(** * Upload queue, linking engine and content resolution

    A shallow embedding of the backend routes
    [backend/app/routes/uploads.py] and [backend/app/routes/media.py]
    and of the streaming bot's [send_video_from_channel]
    ([bots/streaming_bot/bot.py]), with the MongoDB collections they work
    on modelled as lists of stored documents in natural (insertion) order. *)

From Stdlib Require Import ZArith NArith Arith String Ascii List Bool Lia.
From Stdlib Require Import Sorting.Sorted Sorting.Permutation DecimalString.
Import ListNotations.

Set Implicit Arguments.

Local Open Scope string_scope.
Local Open Scope list_scope.

(** ** The document store *)

(** A BSON object id.  The store hands out a new one at every insert. *)
Definition oid := N.

(** [datetime.utcnow()] as milliseconds of wall-clock time: a reading of
    the server's clock, which the code takes whenever it builds a
    document. *)
Definition datetime := Z.

Module Mongo.

(** A document of a collection: its [_id] and the fields the code wrote. *)
Record Stored (A : Type) : Type := mkStored { _id : oid; body : A }.

Section Collection.
Context {A : Type}.

Definition collection := list (Stored A).

(** [coll.find(query)]: the matching documents, in natural order. *)
Definition find (query : Stored A -> bool) (c : collection) : collection :=
  filter query c.

(** [coll.find_one(query)]: the first matching document, if any. *)
Definition find_one (query : Stored A -> bool) (c : collection)
  : option (Stored A) :=
  List.find query c.

(** [coll.count_documents(query)]. *)
Definition count_documents (query : Stored A -> bool) (c : collection)
  : nat :=
  length (filter query c).

(** [coll.insert_one(doc)]: appended under the fresh id. *)
Definition insert_one (fresh : oid) (doc : A) (c : collection)
  : collection :=
  c ++ [mkStored fresh doc].

(** [coll.delete_one(query)]: removes the first match; the second
    component is [deleted_count]. *)
Fixpoint delete_one (query : Stored A -> bool) (c : collection)
  : collection * nat :=
  match c with
  | [] => ([], 0%nat)
  | d :: c' =>
      if query d then (c', 1%nat)
      else let (r, k) := delete_one query c' in (d :: r, k)
  end.

(** [coll.delete_many(query)]. *)
Definition delete_many (query : Stored A -> bool) (c : collection)
  : collection * nat :=
  (filter (fun d => negb (query d)) c, length (filter query c)).

(** The replacing half of [replace_one]: the first match keeps its
    [_id] and takes the new fields; [None] when nothing matches. *)
Fixpoint replace_first (query : Stored A -> bool) (doc : A)
  (c : collection) : option collection :=
  match c with
  | [] => None
  | d :: c' =>
      if query d then Some (mkStored (_id d) doc :: c')
      else option_map (cons d) (replace_first query doc c')
  end.

(** [coll.replace_one(query, doc, upsert=True)]; the boolean tells
    whether a document was inserted (and the fresh id used). *)
Definition replace_one (query : Stored A -> bool) (doc : A)
  (fresh : oid) (c : collection) : collection * bool :=
  match replace_first query doc c with
  | Some c' => (c', false)
  | None => (insert_one fresh doc c, true)
  end.

(** [cursor.sort(key, 1)]: ascending by [key].  Documents with equal
    keys keep their natural order here (the server promises no order
    among them). *)
Fixpoint insert_sorted (key : Stored A -> Z) (d : Stored A)
  (c : collection) : collection :=
  match c with
  | [] => [d]
  | e :: c' =>
      if (key d <=? key e)%Z then d :: e :: c'
      else e :: insert_sorted key d c'
  end.

Definition sort (key : Stored A -> Z) (c : collection) : collection :=
  fold_right (insert_sorted key) [] c.

(** [cursor.limit(n)]: a limit of 0 is no limit, a negative limit
    counts as its absolute value. *)
Definition limit (n : Z) (c : collection) : collection :=
  if (n =? 0)%Z then c else firstn (Z.abs_nat n) c.

End Collection.

Arguments collection A : clear implicits.

End Mongo.
Import Mongo.

(** [ObjectId(s)] of the bson library: a string of 24 hexadecimal digits
    denotes an object id, any other string raises [InvalidId] ([None]).
    bson reads the digits with [bytes.fromhex] and so also takes 24
    characters with white space between pairs of digits, for an id of
    fewer than 12 bytes that no document has; such a string gives [None]
    here as well. *)
Definition hex_digit (c : ascii) : option N :=
  let n := N_of_ascii c in
  if ((48 <=? n) && (n <=? 57))%N then Some (n - 48)%N
  else if ((97 <=? n) && (n <=? 102))%N then Some (n - 87)%N
  else if ((65 <=? n) && (n <=? 70))%N then Some (n - 55)%N
  else None.

Fixpoint from_hex (s : string) (acc : N) : option N :=
  match s with
  | EmptyString => Some acc
  | String c s' =>
      match hex_digit c with
      | Some d => from_hex s' (16 * acc + d)%N
      | None => None
      end
  end.

Definition ObjectId (s : string) : option oid :=
  if (String.length s =? 24)%nat then from_hex s 0%N else None.

(** Python's [str] of an integer, as the f-strings use it. *)
Definition str_int (z : Z) : string := NilZero.string_of_int (Z.to_int z).

(** ** Models ([backend/app/models.py]) and stored documents *)

Inductive MediaType : Type := film | series.

Definition MediaType_eqb (a b : MediaType) : bool :=
  match a, b with
  | film, film | series, series => true
  | _, _ => false
  end.

(** A document of [db.media]; only the fields the linking routes read. *)
Module Media.
Record t : Type := mk { title : string; type : MediaType }.
End Media.

Module FilmLink.
Record t : Type := mk {
  film_id : string;
  file_id : string;
  message_id : option Z;
  storage_bot : string;
  uploader_id : Z }.
End FilmLink.

Module EpisodeLink.
Record t : Type := mk {
  media_id : string;
  season_number : Z;
  episode_number : Z;
  file_id : string;
  message_id : option Z;
  storage_bot : string;
  uploader_id : Z }.
End EpisodeLink.

Module UploadCreate.
Record t : Type := mk {
  user_id : Z;
  file_id : string;
  bot_name : string;
  message_id : option Z }.
End UploadCreate.

(** A document of [db.upload_queue]: [data.model_dump()] plus
    ["timestamp"]. *)
Module Upload.
Record t : Type := mk {
  user_id : Z;
  file_id : string;
  bot_name : string;
  message_id : option Z;
  timestamp : datetime }.
End Upload.

(** A document of [db.films]. *)
Module Film.
Record t : Type := mk {
  media_id : string;
  file_id : string;
  message_id : option Z;
  storage_bot : string;
  uploader_id : Z;
  linked_at : datetime }.
End Film.

(** A document of [db.episodes]. *)
Module Episode.
Record t : Type := mk {
  media_id : string;
  season_number : Z;
  episode_number : Z;
  file_id : string;
  message_id : option Z;
  storage_bot : string;
  uploader_id : Z;
  linked_at : datetime }.
End Episode.

(** The database: the four collections the routes touch and the source
    of fresh object ids. *)
Record Db : Type := mkDb {
  media : collection Media.t;
  films : collection Film.t;
  episodes : collection Episode.t;
  upload_queue : collection Upload.t;
  next_id : oid }.

Definition empty_db : Db := mkDb [] [] [] [] 1%N.

(** ** Request results *)

Record HTTPException : Type := mkHTTPException {
  status_code : Z;
  detail : string }.

Inductive Result (A : Type) : Type :=
| Ok (a : A)
| Raise (e : HTTPException).

Arguments Ok {A} a.
Arguments Raise {A} e.

(** ** Upload routes ([backend/app/routes/uploads.py]) *)

Module Uploads.

(** The query [{"user_id": user_id}] on [db.upload_queue]. *)
Definition by_user (user_id : Z) (d : Stored Upload.t) : bool :=
  (Upload.user_id (body d) =? user_id)%Z.

(** The sort key ["timestamp"]. *)
Definition by_timestamp (d : Stored Upload.t) : Z :=
  Upload.timestamp (body d).

(** [{**data.model_dump(), "timestamp": datetime.utcnow()}]. *)
Definition queue_doc (data : UploadCreate.t) (now : datetime) : Upload.t :=
  Upload.mk (UploadCreate.user_id data) (UploadCreate.file_id data)
    (UploadCreate.bot_name data) (UploadCreate.message_id data) now.

(** [POST /{user_id}/queue]; [now] is what [datetime.utcnow()] reads.
    The response carries the inserted id. *)
Definition add_to_queue (user_id : Z) (data : UploadCreate.t)
  (now : datetime) (db : Db) : Db * (bool * oid) :=
  let doc := queue_doc data now in
  let inserted_id := next_id db in
  (mkDb (media db) (films db) (episodes db)
     (insert_one inserted_id doc (upload_queue db))
     (N.succ (next_id db)),
   (true, inserted_id)).

(** [GET /{user_id}/queue]. *)
Definition get_queue (user_id : Z) (db : Db) : list (Stored Upload.t) :=
  sort by_timestamp (find (by_user user_id) (upload_queue db)).

(** [GET /{user_id}/queue/count]: the ["count"] of the response. *)
Definition get_queue_count (user_id : Z) (db : Db) : nat :=
  count_documents (by_user user_id) (upload_queue db).

(** [DELETE /{user_id}/queue]: the new state and ["deleted"]. *)
Definition clear_queue (user_id : Z) (db : Db) : Db * nat :=
  let (q, deleted_count) := delete_many (by_user user_id) (upload_queue db) in
  (mkDb (media db) (films db) (episodes db) q (next_id db), deleted_count).

(** [DELETE /{user_id}/queue/{file_id}]. *)
Definition remove_from_queue (user_id : Z) (file_id : string) (db : Db)
  : Db * bool :=
  let (q, deleted_count) :=
    delete_one
      (fun d => by_user user_id d
                && String.eqb (Upload.file_id (body d)) file_id)
      (upload_queue db) in
  (mkDb (media db) (films db) (episodes db) q (next_id db),
   (0 <? deleted_count)%nat).

End Uploads.

(** ** Media routes ([backend/app/routes/media.py]) *)

Module MediaRoutes.

(** The query [{"_id": oid}]. *)
Definition by_id {A : Type} (i : oid) (d : Stored A) : bool :=
  (_id d =? i)%N.

(** The query [{"media_id": film_id}] on [db.films]. *)
Definition film_key (film_id : string) (d : Stored Film.t) : bool :=
  String.eqb (Film.media_id (body d)) film_id.

(** The query [{"media_id", "season_number", "episode_number"}] on
    [db.episodes]. *)
Definition episode_key (media_id : string) (season_number : Z)
  (episode_number : Z) (d : Stored Episode.t) : bool :=
  String.eqb (Episode.media_id (body d)) media_id
  && (Episode.season_number (body d) =? season_number)%Z
  && (Episode.episode_number (body d) =? episode_number)%Z.

(** [POST /film/link].  The response on success is
    [{"success": True, "film_id": data.film_id}]. *)
Definition link_film (data : FilmLink.t) (now : datetime) (db : Db)
  : Db * Result (bool * string) :=
  match ObjectId (FilmLink.film_id data) with
  | None => (db, Raise (mkHTTPException 400 "Invalid film ID"))
  | Some i =>
      match find_one (by_id i) (media db) with
      | None => (db, Raise (mkHTTPException 404 "Film not found"))
      | Some m =>
          if negb (MediaType_eqb (Media.type (body m)) film)
          then (db, Raise (mkHTTPException 400 "Media is not a film"))
          else
            let doc :=
              Film.mk (FilmLink.film_id data) (FilmLink.file_id data)
                (FilmLink.message_id data) (FilmLink.storage_bot data)
                (FilmLink.uploader_id data) now in
            let (fs, inserted) :=
              replace_one (film_key (FilmLink.film_id data)) doc
                (next_id db) (films db) in
            (mkDb (media db) fs (episodes db) (upload_queue db)
               (if inserted then N.succ (next_id db) else next_id db),
             Ok (true, FilmLink.film_id data))
      end
  end.

(** [GET /film/{film_id}]. *)
Definition get_film (film_id : string) (db : Db)
  : Result (Stored Film.t) :=
  match find_one (film_key film_id) (films db) with
  | None => Raise (mkHTTPException 404 "Film not linked")
  | Some f => Ok f
  end.

(** [POST /episode/link]. *)
Definition link_episode (data : EpisodeLink.t) (now : datetime) (db : Db)
  : Db * Result bool :=
  match ObjectId (EpisodeLink.media_id data) with
  | None => (db, Raise (mkHTTPException 400 "Invalid media ID"))
  | Some i =>
      match find_one (by_id i) (media db) with
      | None => (db, Raise (mkHTTPException 404 "Series not found"))
      | Some m =>
          if negb (MediaType_eqb (Media.type (body m)) series)
          then (db, Raise (mkHTTPException 400 "Media is not a series"))
          else
            let doc :=
              Episode.mk (EpisodeLink.media_id data)
                (EpisodeLink.season_number data)
                (EpisodeLink.episode_number data)
                (EpisodeLink.file_id data) (EpisodeLink.message_id data)
                (EpisodeLink.storage_bot data)
                (EpisodeLink.uploader_id data) now in
            let (es, inserted) :=
              replace_one
                (episode_key (EpisodeLink.media_id data)
                   (EpisodeLink.season_number data)
                   (EpisodeLink.episode_number data))
                doc (next_id db) (episodes db) in
            (mkDb (media db) (films db) es (upload_queue db)
               (if inserted then N.succ (next_id db) else next_id db),
             Ok true)
      end
  end.

(** [GET /{media_id}/season/{season}/episode/{episode}]. *)
Definition get_episode (media_id : string) (season episode : Z) (db : Db)
  : Result (Stored Episode.t) :=
  match find_one (episode_key media_id season episode) (episodes db) with
  | None => Raise (mkHTTPException 404 "Episode not found")
  | Some e => Ok e
  end.

(** What the store does to one pass of the bulk loop: nothing wrong,
    or [replace_one] raises, or [delete_one] raises (with the text of
    the exception).  A call that raises leaves its collection as it
    was. *)
Inductive StoreFault : Type :=
| NoFault
| ReplaceFails (e : string)
| DeleteFails (e : string).

(** An element of ["details"]. *)
Record Detail : Type := mkDetail {
  episode : Z;
  success : bool;
  error : option string }.

(** The response of the bulk route. *)
Record BulkResponse : Type := mkBulkResponse {
  media_id : string;
  season : Z;
  total_episodes : Z;
  linked_successfully : nat;
  details : list Detail }.

(** The episode document of one pass. *)
Definition episode_doc (media_id : string) (season_number : Z)
  (episode_num : Z) (upload : Stored Upload.t) (uploader_id : Z)
  (now : datetime) : Episode.t :=
  Episode.mk media_id season_number episode_num
    (Upload.file_id (body upload)) (Upload.message_id (body upload))
    (Upload.bot_name (body upload)) uploader_id now.

(** [db.episodes.replace_one(key, doc, upsert=True)]. *)
Definition upsert_episode (doc : Episode.t) (db : Db) : Db :=
  let (es, inserted) :=
    replace_one
      (episode_key (Episode.media_id doc) (Episode.season_number doc)
         (Episode.episode_number doc))
      doc (next_id db) (episodes db) in
  mkDb (media db) (films db) es (upload_queue db)
    (if inserted then N.succ (next_id db) else next_id db).

(** [db.upload_queue.delete_one({"_id": upload["_id"]})]. *)
Definition dequeue (upload : Stored Upload.t) (db : Db) : Db :=
  mkDb (media db) (films db) (episodes db)
    (fst (delete_one (by_id (_id upload)) (upload_queue db)))
    (next_id db).

(** [for i, upload in enumerate(uploads)], from index [i] on.  Pass [i]
    reads the clock ([utcnow i]) and meets the store's [fault i]; the
    [try]/[except] turns a raised exception into a failed detail and
    the loop goes on. *)
Fixpoint link_each (utcnow : nat -> datetime) (fault : nat -> StoreFault)
  (media_id : string) (season_number : Z) (uploader_id : Z)
  (i : nat) (uploads : list (Stored Upload.t)) (db : Db)
  : Db * list Detail :=
  match uploads with
  | [] => (db, [])
  | upload :: rest =>
      let episode_num := (Z.of_nat i + 1)%Z in
      let doc :=
        episode_doc media_id season_number episode_num upload uploader_id
          (utcnow i) in
      let (db1, d) :=
        match fault i with
        | ReplaceFails e => (db, mkDetail episode_num false (Some e))
        | DeleteFails e =>
            (upsert_episode doc db, mkDetail episode_num false (Some e))
        | NoFault =>
            (dequeue upload (upsert_episode doc db),
             mkDetail episode_num true None)
        end in
      let (db2, linked) :=
        link_each utcnow fault media_id season_number uploader_id
          (S i) rest db1 in
      (db2, d :: linked)
  end.

(** [POST /season/link-bulk]. *)
Definition link_season_bulk (utcnow : nat -> datetime)
  (fault : nat -> StoreFault)
  (media_id : string) (season_number : Z) (episode_count : Z)
  (uploader_id : Z) (db : Db) : Db * Result BulkResponse :=
  let uploads :=
    limit episode_count
      (sort Uploads.by_timestamp
         (find (Uploads.by_user uploader_id) (upload_queue db))) in
  if (Z.of_nat (length uploads) <? episode_count)%Z
  then
    (db, Raise (mkHTTPException 400
                  ("Not enough uploads. Found "
                   ++ str_int (Z.of_nat (length uploads))
                   ++ ", need " ++ str_int episode_count)))
  else
    let (db', linked) :=
      link_each utcnow fault media_id season_number uploader_id
        0 uploads db in
    let success_count := length (filter success linked) in
    (db', Ok (mkBulkResponse media_id season_number episode_count
                success_count linked)).

End MediaRoutes.

(** ** Streaming bot ([bots/streaming_bot/bot.py]) *)

Module StreamingBot.

(** The JSON object the backend returned for a film or an episode, as
    [send_video_from_channel] reads it: [video_data.get("message_id")]
    and [video_data.get("file_id")], [None] for a missing or null
    field. *)
Record VideoData : Type := mkVideoData {
  message_id : option Z;
  file_id : option string }.

(** The two Telegram calls of the function. *)
Inductive BotCall : Type :=
| copy_message (message_id : Z)
| send_video (video : option string).

(** The bot API: what a call raises, [None] when it returns. *)
Definition Bot := BotCall -> option string.

(** [try: await call / except Exception as e: logger.error(...); raise]:
    the call is made once and what it raises leaves the function as it
    is. *)
Definition attempt (bot : Bot) (call : BotCall)
  : list BotCall * option string :=
  match bot call with
  | None => ([call], None)
  | Some e => ([call], Some e)
  end.

(** [send_video_from_channel]: the calls made on the bot, in order, and
    the exception that leaves the function ([None] when it returns).
    [if message_id:] is Python's truth test: [None] and the integer 0
    are false. *)
Definition send_video_from_channel (bot : Bot) (video_data : VideoData)
  : list BotCall * option string :=
  let message_id := message_id video_data in
  let file_id := file_id video_data in
  match message_id with
  | Some m =>
      if negb (m =? 0)%Z
      then attempt bot (copy_message m)
      else attempt bot (send_video file_id)
  | None => attempt bot (send_video file_id)
  end.

End StreamingBot.

(** ** Invariants of the store *)

(** Object ids are unique within [db.upload_queue], and all below the
    next one to be handed out. *)
Definition queue_ids_unique (db : Db) : Prop :=
  NoDup (map (@_id Upload.t) (upload_queue db)).

Definition queue_ids_fresh (db : Db) : Prop :=
  Forall (fun d => (_id d < next_id db)%N) (upload_queue db).

Definition queue_wf (db : Db) : Prop :=
  queue_ids_unique db /\ queue_ids_fresh db.

(** The unique index on [films.media_id] ([create_indexes]). *)
Definition films_unique (db : Db) : Prop :=
  forall film_id,
    (count_documents (MediaRoutes.film_key film_id) (films db) <= 1)%nat.

(** Object ids are unique within [db.media]. *)
Definition media_ids_unique (db : Db) : Prop :=
  NoDup (map (@_id Media.t) (media db)).

(** ** Reading the bulk loop *)

(** A pass succeeds when the store raises nothing. *)
Definition pass_ok (f : MediaRoutes.StoreFault) : bool :=
  match f with
  | MediaRoutes.NoFault => true
  | _ => false
  end.

(** A pass writes its episode unless [replace_one] raises. *)
Definition pass_writes (f : MediaRoutes.StoreFault) : bool :=
  match f with
  | MediaRoutes.ReplaceFails _ => false
  | _ => true
  end.

(** The detail a pass appends to ["details"]. *)
Definition pass_detail (fault : nat -> MediaRoutes.StoreFault) (k : nat)
  : MediaRoutes.Detail :=
  match fault k with
  | MediaRoutes.NoFault =>
      MediaRoutes.mkDetail (Z.of_nat k + 1)%Z true None
  | MediaRoutes.ReplaceFails e | MediaRoutes.DeleteFails e =>
      MediaRoutes.mkDetail (Z.of_nat k + 1)%Z false (Some e)
  end.

(** One pass of the loop, as a function of the state. *)
Definition loop_pass (utcnow : nat -> datetime)
  (fault : nat -> MediaRoutes.StoreFault)
  (media_id : string) (season_number uploader_id : Z)
  (i : nat) (upload : Stored Upload.t) (db : Db) : Db :=
  let doc :=
    MediaRoutes.episode_doc media_id season_number (Z.of_nat i + 1)%Z upload
      uploader_id (utcnow i) in
  match fault i with
  | MediaRoutes.ReplaceFails _ => db
  | MediaRoutes.DeleteFails _ => MediaRoutes.upsert_episode doc db
  | MediaRoutes.NoFault =>
      MediaRoutes.dequeue upload (MediaRoutes.upsert_episode doc db)
  end.

(** The uploads whose pass, from index [i] on, reaches [delete_one]
    and returns from it. *)
Fixpoint consumed (fault : nat -> MediaRoutes.StoreFault) (i : nat)
  (uploads : list (Stored Upload.t)) : list (Stored Upload.t) :=
  match uploads with
  | [] => []
  | upload :: rest =>
      if pass_ok (fault i) then upload :: consumed fault (S i) rest
      else consumed fault (S i) rest
  end.

(** [delete_one] by id, for each of [us] in turn. *)
Definition dequeue_all (us : list (Stored Upload.t))
  (q : collection Upload.t) : collection Upload.t :=
  fold_left (fun q u => fst (delete_one (MediaRoutes.by_id (_id u)) q)) us q.

(** Whether a document has the id of one of [us]. *)
Definition id_in {A : Type} (us : list (Stored A)) (d : Stored A) : bool :=
  existsb (fun u => (_id u =? _id d)%N) us.

(** ** Sample data *)

(** A bot whose raw-handle replay fails with an expired handle. *)
Definition expiring_bot : StreamingBot.Bot :=
  fun call =>
    match call with
    | StreamingBot.copy_message _ => None
    | StreamingBot.send_video _ => Some "Bad Request: wrong file identifier"
    end.

(** A catalog of one film and one series. *)
Definition dune_id : string := "64b7f0c2a1d3e4f5a6b7c8d9".
Definition dark_id : string := "64b7f0c2a1d3e4f5a6b7c8da".
Definition unknown_id : string := "64b7f0c2a1d3e4f5a6b7c8db".

Definition oid_of (s : string) : oid :=
  match ObjectId s with Some i => i | None => 0%N end.

Definition catalog_db : Db :=
  mkDb [mkStored (oid_of dune_id) (Media.mk "Dune" film);
        mkStored (oid_of dark_id) (Media.mk "Dark" series)]
       [] [] [] 1%N.

(** Two link requests for the same film, with different content. *)
Definition dune_first : FilmLink.t :=
  FilmLink.mk dune_id "BAACAgQAAx-1" (Some 811%Z) "storage_bot" 7%Z.
Definition dune_second : FilmLink.t :=
  FilmLink.mk dune_id "BAACAgQAAx-2" None "storage_bot" 9%Z.

Definition dune_linked_once : Db :=
  fst (MediaRoutes.link_film dune_first 1000%Z catalog_db).
Definition dune_linked_twice : Db :=
  fst (MediaRoutes.link_film dune_second 2000%Z dune_linked_once).

(** A producer's run: enqueue requests in the order they arrive, each
    with the clock reading the server takes for it. *)
Record Enqueue : Type := mkEnqueue {
  path_user : Z;
  payload : UploadCreate.t;
  clock : datetime }.

Definition enqueue_all (reqs : list Enqueue) (db : Db) : Db :=
  fold_left
    (fun db r =>
       fst (Uploads.add_to_queue (path_user r) (payload r) (clock r) db))
    reqs db.

(** The requests that name [owner] in their body, in arrival order, and
    the queue documents they make. *)
Definition enqueued_for (owner : Z) (reqs : list Enqueue) : list Enqueue :=
  filter (fun r => (UploadCreate.user_id (payload r) =? owner)%Z) reqs.

Definition arrival_docs (owner : Z) (reqs : list Enqueue) : list Upload.t :=
  map (fun r => Uploads.queue_doc (payload r) (clock r))
    (enqueued_for owner reqs).

(** The documents a run of enqueues appends, from the id [n] on. *)
Fixpoint appended (n : oid) (reqs : list Enqueue)
  : list (Stored Upload.t) :=
  match reqs with
  | [] => []
  | r :: rs =>
      mkStored n (Uploads.queue_doc (payload r) (clock r)) :: appended (N.succ n) rs
  end.

(** Two uploads of user 7; the server's clock was set back between
    them. *)
Definition upload_a : UploadCreate.t :=
  UploadCreate.mk 7%Z "BAACAgQAAx-a" "storage_bot" (Some 811%Z).
Definition upload_b : UploadCreate.t :=
  UploadCreate.mk 7%Z "BAACAgQAAx-b" "storage_bot" (Some 812%Z).
Definition upload_c : UploadCreate.t :=
  UploadCreate.mk 7%Z "BAACAgQAAx-c" "storage_bot" (Some 813%Z).

Definition clock_set_back : list Enqueue :=
  [mkEnqueue 7%Z upload_a 1000%Z; mkEnqueue 7%Z upload_b 990%Z].

Definition clock_running : list Enqueue :=
  [mkEnqueue 7%Z upload_a 1000%Z; mkEnqueue 7%Z upload_b 1010%Z;
   mkEnqueue 7%Z upload_c 1020%Z].

(** The catalogue with the queue of user 7 filled, by a clock that runs
    and by one that was set back. *)
Definition queued_db : Db := enqueue_all clock_running catalog_db.
Definition late_clock_db : Db := enqueue_all clock_set_back catalog_db.

(** The clock of the bulk loop, and two behaviours of the store: no
    fault, and [replace_one] raising in the second pass. *)
Definition server_clock : nat -> datetime := fun k => (5000 + Z.of_nat k)%Z.

Definition no_fault : nat -> MediaRoutes.StoreFault :=
  fun _ => MediaRoutes.NoFault.

Definition second_fails : nat -> MediaRoutes.StoreFault :=
  fun k =>
    if (k =? 1)%nat then MediaRoutes.ReplaceFails "connection reset"
    else MediaRoutes.NoFault.

(** An enqueue posted to the path of user 7 with user 8 in its body. *)
Definition upload_of_8 : UploadCreate.t :=
  UploadCreate.mk 8%Z "BAACAgQAAx-d" "storage_bot" (Some 814%Z).

(** The same state with another catalogue. *)
Definition set_media (catalog : collection Media.t) (db : Db) : Db :=
  mkDb catalog (films db) (episodes db) (upload_queue db) (next_id db).

(** ** The other media routes ([backend/app/routes/media.py]) *)

Module MediaCreate.
Record t : Type := mk {
  title : string;
  type : MediaType;
  year : option Z;
  description : option string;
  genre : option string }.
End MediaCreate.

Module Catalog.

(** [POST /]: the new title is stored under a fresh id and answered with
    it.  Of the document only title and type are kept here; the
    metadata [fetch_tmdb_metadata] adds sets neither. *)
Definition create_media (data : MediaCreate.t) (db : Db)
  : Db * Stored Media.t :=
  let doc := Media.mk (MediaCreate.title data) (MediaCreate.type data) in
  let inserted_id := next_id db in
  (mkDb (insert_one inserted_id doc (media db)) (films db) (episodes db)
     (upload_queue db) (N.succ (next_id db)),
   mkStored inserted_id doc).

(** [GET /{media_id}]. *)
Definition get_media (media_id : string) (db : Db)
  : Result (Stored Media.t) :=
  match ObjectId media_id with
  | None => Raise (mkHTTPException 400 "Invalid media ID")
  | Some i =>
      match find_one (MediaRoutes.by_id i) (media db) with
      | None => Raise (mkHTTPException 404 "Media not found")
      | Some doc => Ok doc
      end
  end.

(** The query [{"media_id": media_id}] on [db.episodes]. *)
Definition of_media (media_id : string) (d : Stored Episode.t) : bool :=
  String.eqb (Episode.media_id (body d)) media_id.

(** [DELETE /{media_id}]: the title goes first, then the films and the
    episodes stored under the same string. *)
Definition delete_media (media_id : string) (db : Db) : Db * Result bool :=
  match ObjectId media_id with
  | None => (db, Raise (mkHTTPException 400 "Invalid media ID"))
  | Some i =>
      let (ms, deleted_count) :=
        delete_one (MediaRoutes.by_id i) (media db) in
      let db1 :=
        mkDb ms (films db) (episodes db) (upload_queue db) (next_id db) in
      if (deleted_count =? 0)%nat
      then (db1, Raise (mkHTTPException 404 "Media not found"))
      else
        let fs := fst (delete_many (MediaRoutes.film_key media_id) (films db1)) in
        let es := fst (delete_many (of_media media_id) (episodes db1)) in
        (mkDb ms fs es (upload_queue db1) (next_id db1), Ok true)
  end.

(** Python's [sorted] on integers. *)
Fixpoint insert_int (x : Z) (l : list Z) : list Z :=
  match l with
  | [] => [x]
  | y :: l' => if (x <=? y)%Z then x :: y :: l' else y :: insert_int x l'
  end.

Definition sorted (l : list Z) : list Z := fold_right insert_int [] l.

(** [coll.distinct(key, query)]: the values of [key] among the matching
    documents, each once. *)
Definition distinct {A : Type} (key : Stored A -> Z)
  (query : Stored A -> bool) (c : collection A) : list Z :=
  nodup Z.eq_dec (map key (find query c)).

(** [GET /{media_id}/seasons]. *)
Definition get_seasons (media_id : string) (db : Db) : list Z :=
  sorted
    (distinct (fun d => Episode.season_number (body d)) (of_media media_id)
       (episodes db)).

(** The query [{"media_id", "season_number"}] on [db.episodes]. *)
Definition season_key (media_id : string) (season : Z)
  (d : Stored Episode.t) : bool :=
  String.eqb (Episode.media_id (body d)) media_id
  && (Episode.season_number (body d) =? season)%Z.

(** [GET /{media_id}/season/{season}]. *)
Definition get_episodes (media_id : string) (season : Z) (db : Db)
  : list (Stored Episode.t) :=
  sort (fun d => Episode.episode_number (body d))
    (find (season_key media_id season) (episodes db)).

(** [DELETE /{media_id}/season/{season}/episode/{episode}]. *)
Definition delete_episode (media_id : string) (season episode : Z) (db : Db)
  : Db * Result bool :=
  let (es, deleted_count) :=
    delete_one (MediaRoutes.episode_key media_id season episode)
      (episodes db) in
  let db1 := mkDb (media db) (films db) es (upload_queue db) (next_id db) in
  if (deleted_count =? 0)%nat
  then (db1, Raise (mkHTTPException 404 "Episode not found"))
  else (db1, Ok true).

End Catalog.

(** ** The single upload routes ([backend/app/routes/uploads.py]) *)

(** The database with the collection [db.uploads] of last uploads. *)
Record Store : Type := mkStore {
  core : Db;
  uploads : collection Upload.t }.

Definition empty_store : Store := mkStore empty_db [].

Module UploadSlot.

(** [POST /]: the response is [{"success": True, "user_id": ...}]. *)
Definition save_upload (data : UploadCreate.t) (now : datetime) (st : Store)
  : Store * (bool * Z) :=
  let doc := Uploads.queue_doc data now in
  let (us, inserted) :=
    replace_one (Uploads.by_user (UploadCreate.user_id data)) doc
      (next_id (core st)) (uploads st) in
  (mkStore
     (mkDb (media (core st)) (films (core st)) (episodes (core st))
        (upload_queue (core st))
        (if inserted then N.succ (next_id (core st)) else next_id (core st)))
     us,
   (true, UploadCreate.user_id data)).

(** [GET /{user_id}]. *)
Definition get_upload (user_id : Z) (st : Store) : Result (Stored Upload.t) :=
  match find_one (Uploads.by_user user_id) (uploads st) with
  | None => Raise (mkHTTPException 404 "No upload found")
  | Some upload => Ok upload
  end.

(** [DELETE /{user_id}]: the new state and ["deleted"]. *)
Definition clear_upload (user_id : Z) (st : Store) : Store * bool :=
  let (us, deleted_count) :=
    delete_one (Uploads.by_user user_id) (uploads st) in
  (mkStore (core st) us, (0 <? deleted_count)%nat).

End UploadSlot.

(** At most one last upload per user. *)
Definition slot_unique (st : Store) : Prop :=
  forall user_id,
    (count_documents (Uploads.by_user user_id) (uploads st) <= 1)%nat.

(** The unique index on the episode key ([create_indexes]). *)
Definition episodes_unique (db : Db) : Prop :=
  forall media_id season episode,
    (count_documents (MediaRoutes.episode_key media_id season episode)
       (episodes db) <= 1)%nat.

(** ** Storage bot ([bots/storage_bot/bot.py]) *)

Module StorageBot.

Definition BOT_NAME : string := "storage_bot".

(** [save_to_backend], both requests answered: the upload becomes the
    user's last upload and is appended to the queue.  [t1] and [t2] are
    the clock readings of the two routes. *)
Definition save_to_backend (user_id : Z) (file_id : string) (message_id : Z)
  (t1 t2 : datetime) (st : Store) : Store :=
  let data := UploadCreate.mk user_id file_id BOT_NAME (Some message_id) in
  let st1 := fst (UploadSlot.save_upload data t1 st) in
  let db2 := fst (Uploads.add_to_queue user_id data t2 (core st1)) in
  mkStore db2 (uploads st1).

End StorageBot.

(** ** Control bot ([bots/control_bot/bot.py]) *)

(** The commands put an id into a URL as it was typed:
    [f"{BACKEND_URL}/api/media/{id}"].  The request is [GET /{media_id}]
    for that very id when the id is one path segment of letters and
    digits other than ["search"]; with other characters (["/"], ["?"],
    ["#"], ["%"], ...) it can be a request for another id or to another
    route. *)
Definition alphanumeric (c : ascii) : bool :=
  let n := N_of_ascii c in
  ((48 <=? n) && (n <=? 57) || (65 <=? n) && (n <=? 90)
   || (97 <=? n) && (n <=? 122))%N.

Fixpoint all_alphanumeric (s : string) : bool :=
  match s with
  | EmptyString => true
  | String c s' => alphanumeric c && all_alphanumeric s'
  end.

Definition plain_segment (id : string) : bool :=
  negb (String.eqb id "") && all_alphanumeric id
  && negb (String.eqb id "search").

Module ControlBot.

(** The texts the commands send with [reply_text], by kind and with the
    values they interpolate. *)
Inductive Reply : Type :=
| AccessDenied
| Usage
| Linking (episode_count : Z)
| NotEnoughVideos (found : nat) (need : Z)
| QueueHas (found : nat)
| FilmLinked (title film_id : string) (message_id : option Z)
| SeasonLinked (title : string) (season : Z) (linked : nat)
    (episode_count : Z)
| Error (e : string).

(** [GET /api/media/{id}] as the commands send it: the answer of
    [get_media] for a plain id, and outside this model ([None])
    otherwise. *)
Definition get_media_by_url (id : string) (db : Db)
  : option (Result (Stored Media.t)) :=
  if plain_segment id then Some (Catalog.get_media id db) else None.

(** [/linkfilm]: [admin] is the answer of [is_admin], [args] is
    [context.args].  A response without the key read from it raises
    [KeyError], which the handler reports.  [None] when the request for
    the title is outside the model. *)
Definition link_film (admin : bool) (args : list string) (user_id : Z)
  (now : datetime) (st : Store) : option (Store * list Reply) :=
  if negb admin then Some (st, [AccessDenied])
  else
    match args with
    | [film_id] =>
        match UploadSlot.get_upload user_id st with
        | Raise _ => Some (st, [Error "'file_id'"])
        | Ok upload =>
            let data :=
              FilmLink.mk film_id (Upload.file_id (body upload))
                (Upload.message_id (body upload))
                (Upload.bot_name (body upload)) user_id in
            let db1 := fst (MediaRoutes.link_film data now (core st)) in
            let st2 :=
              fst (UploadSlot.clear_upload user_id
                     (mkStore db1 (uploads st))) in
            match get_media_by_url film_id (core st2) with
            | None => None
            | Some (Raise _) => Some (st2, [Error "'title'"])
            | Some (Ok m) =>
                Some (st2,
                      [FilmLinked (Media.title (body m)) film_id
                         (Upload.message_id (body upload))])
            end
        end
    | _ => Some (st, [Usage])
    end.

(** [/linkseason], once its three arguments are read ([season] and
    [episode_count] by [int]).  [None] when the request for the title is
    outside the model. *)
Definition link_season (admin : bool) (series_id : string)
  (season episode_count : Z) (user_id : Z)
  (utcnow : nat -> datetime) (fault : nat -> MediaRoutes.StoreFault)
  (db : Db) : option (Db * list Reply) :=
  if negb admin then Some (db, [AccessDenied])
  else
    let queue := Uploads.get_queue user_id db in
    if (Z.of_nat (length queue) <? episode_count)%Z
    then
      Some (db, [Linking episode_count;
                 NotEnoughVideos (length queue) episode_count])
    else
      let (db', result) :=
        MediaRoutes.link_season_bulk utcnow fault series_id season
          episode_count user_id db in
      match get_media_by_url series_id db' with
      | None => None
      | Some media =>
          Some (db',
                [Linking episode_count; QueueHas (length queue);
                 match media with
                 | Raise _ => Error "'title'"
                 | Ok m =>
                     match result with
                     | Raise _ => Error "'linked_successfully'"
                     | Ok r =>
                         SeasonLinked (Media.title (body m)) season
                           (MediaRoutes.linked_successfully r) episode_count
                     end
                 end])
      end.

End ControlBot.

(** ** Runs of requests *)

(** The requests of the backend that write to the database, with what
    each reads from its environment. *)
Inductive Request : Type :=
| AddToQueue (user_id : Z) (data : UploadCreate.t) (now : datetime)
| ClearQueue (user_id : Z)
| RemoveFromQueue (user_id : Z) (file_id : string)
| LinkFilm (data : FilmLink.t) (now : datetime)
| LinkEpisode (data : EpisodeLink.t) (now : datetime)
| LinkSeasonBulk (utcnow : nat -> datetime)
    (fault : nat -> MediaRoutes.StoreFault) (media_id : string)
    (season_number episode_count uploader_id : Z)
| DeleteEpisode (media_id : string) (season episode : Z)
| DeleteMedia (media_id : string)
| CreateMedia (data : MediaCreate.t).

Definition serve (r : Request) (db : Db) : Db :=
  match r with
  | AddToQueue user_id data now =>
      fst (Uploads.add_to_queue user_id data now db)
  | ClearQueue user_id => fst (Uploads.clear_queue user_id db)
  | RemoveFromQueue user_id file_id =>
      fst (Uploads.remove_from_queue user_id file_id db)
  | LinkFilm data now => fst (MediaRoutes.link_film data now db)
  | LinkEpisode data now => fst (MediaRoutes.link_episode data now db)
  | LinkSeasonBulk utcnow fault media_id season_number episode_count
      uploader_id =>
      fst (MediaRoutes.link_season_bulk utcnow fault media_id season_number
             episode_count uploader_id db)
  | DeleteEpisode media_id season episode =>
      fst (Catalog.delete_episode media_id season episode db)
  | DeleteMedia media_id => fst (Catalog.delete_media media_id db)
  | CreateMedia data => fst (Catalog.create_media data db)
  end.

Definition serve_all (reqs : list Request) (db : Db) : Db :=
  fold_left (fun db r => serve r db) reqs db.

(** Object ids of [db.media] are below the next one to be handed out. *)
Definition media_ids_fresh (db : Db) : Prop :=
  Forall (fun d => (_id d < next_id db)%N) (media db).

Definition media_wf (db : Db) : Prop :=
  media_ids_unique db /\ media_ids_fresh db.

(** A day of the backend: a film is created and linked twice, a series
    is created, three uploads are queued and linked as its season 1. *)
Definition first_id : string := "000000000000000000000001".
Definition third_id : string := "000000000000000000000003".

Definition sample_run : list Request :=
  [CreateMedia (MediaCreate.mk "Dune" film (Some 2021%Z) None None);
   LinkFilm
     (FilmLink.mk first_id "BAACAgQAAx-1" (Some 811%Z) "storage_bot" 7%Z)
     1000%Z;
   LinkFilm (FilmLink.mk first_id "BAACAgQAAx-2" None "storage_bot" 9%Z)
     2000%Z;
   CreateMedia (MediaCreate.mk "Dark" series None None None);
   AddToQueue 7%Z upload_a 3000%Z;
   AddToQueue 7%Z upload_b 3010%Z;
   AddToQueue 7%Z upload_c 3020%Z;
   LinkSeasonBulk server_clock no_fault third_id 1%Z 3%Z 7%Z].

(** ** More sample data *)

(** The filled queue of user 7 with one entry of user 8 behind it. *)
Definition mixed_db : Db :=
  fst (Uploads.add_to_queue 7%Z upload_of_8 1030%Z queued_db).

(** The catalogue with [upload_a] as the last upload of user 7. *)
Definition slot_store : Store :=
  fst (UploadSlot.save_upload upload_a 900%Z (mkStore catalog_db [])).

(** Season 1 of the series linked from the queue of user 7. *)
Definition linked_db : Db :=
  fst (MediaRoutes.link_season_bulk server_clock no_fault dark_id 1%Z 3%Z 7%Z
         queued_db).

Definition dark_s2e1 : EpisodeLink.t :=
  EpisodeLink.mk dark_id 2%Z 1%Z "BAACAgQAAx-e" (Some 815%Z) "storage_bot" 7%Z.

(** ** Playing from the streaming bot ([handle_callback]) *)

Module StreamingPlay.

(** What [handle_callback] does towards Telegram, in order:
    [query.answer()], the "Access denied" reply,
    [query.message.delete()], a call of [send_video_from_channel], and
    the alert "Error occurred" of the handler's [except]. *)
Inductive Action : Type :=
| Answered
| AccessDenied
| DeleteMessage
| Call (c : StreamingBot.BotCall)
| ErrorOccurred.

(** [response.json()] of [GET /film/{film_id}] or of the episode route as
    [send_video_from_channel] reads it; an error response has neither
    key. *)
Definition film_data (r : Result (Stored Film.t)) : StreamingBot.VideoData :=
  match r with
  | Ok f =>
      StreamingBot.mkVideoData (Film.message_id (body f))
        (Some (Film.file_id (body f)))
  | Raise _ => StreamingBot.mkVideoData None None
  end.

Definition ep_data (r : Result (Stored Episode.t))
  : StreamingBot.VideoData :=
  match r with
  | Ok e =>
      StreamingBot.mkVideoData (Episode.message_id (body e))
        (Some (Episode.file_id (body e)))
  | Raise _ => StreamingBot.mkVideoData None None
  end.

(** The end of both play branches: the menu message is deleted, the
    caption reads [media['title']] (a [KeyError] when the title is
    unknown), the video is sent; any exception ends in the alert. *)
Definition play (bot : StreamingBot.Bot) (video_data : StreamingBot.VideoData)
  (media : Result (Stored Media.t)) : list Action :=
  match media with
  | Raise _ => [DeleteMessage; ErrorOccurred]
  | Ok _ =>
      let (calls, raised) :=
        StreamingBot.send_video_from_channel bot video_data in
      DeleteMessage :: map Call calls
      ++ match raised with
         | Some _ => [ErrorOccurred]
         | None => []
         end
  end.

(** The branch [data.startswith("film_")], with [film_id] read from the
    callback data; [approved] is the answer of [is_approved]. *)
Definition play_film (approved : bool) (bot : StreamingBot.Bot)
  (film_id : string) (db : Db) : list Action :=
  Answered ::
  if negb approved then [AccessDenied]
  else
    play bot (film_data (MediaRoutes.get_film film_id db))
      (Catalog.get_media film_id db).

(** The branch [data.startswith("play_")], with the id and the two
    numbers read from the callback data. *)
Definition play_episode (approved : bool) (bot : StreamingBot.Bot)
  (series_id : string) (season episode : Z) (db : Db) : list Action :=
  Answered ::
  if negb approved then [AccessDenied]
  else
    play bot (ep_data (MediaRoutes.get_episode series_id season episode db))
      (Catalog.get_media series_id db).

End StreamingPlay.

(** The call [send_video_from_channel] makes for a reference and a
    handle. *)
Definition replay_of (message_id : option Z) (file_id : string)
  : StreamingBot.BotCall :=
  match message_id with
  | Some m =>
      if (m =? 0)%Z then StreamingBot.send_video (Some file_id)
      else StreamingBot.copy_message m
  | None => StreamingBot.send_video (Some file_id)
  end.

(** The actions of a play once the title is known: the menu goes, one
    call is made, and the alert follows when the call raised. *)
Definition played (bot : StreamingBot.Bot) (call : StreamingBot.BotCall)
  : list StreamingPlay.Action :=
  [StreamingPlay.Answered; StreamingPlay.DeleteMessage;
   StreamingPlay.Call call]
  ++ match bot call with
     | Some _ => [StreamingPlay.ErrorOccurred]
     | None => []
     end.

(** * Facts about the document store *)

Import Uploads MediaRoutes.

Section CollectionFacts.
Context {A : Type}.
Implicit Types (c : collection A) (d : Stored A) (q : Stored A -> bool).

Lemma delete_one_subset q c d :
  In d (fst (delete_one q c)) -> In d c.
Proof.
  induction c as [|e c IH]; simpl; [tauto|].
  destruct (q e); simpl; [tauto|].
  destruct (delete_one q c) as [r k]; simpl in *.
  intros [->|H]; [now left | right; now apply IH].
Qed.

Lemma delete_one_keeps q c d :
  q d = false -> In d c -> In d (fst (delete_one q c)).
Proof.
  intros Hq. induction c as [|e c IH]; simpl; [tauto|].
  intros [->|H].
  - rewrite Hq. destruct (delete_one q c); now left.
  - destruct (q e); simpl; [assumption|].
    destruct (delete_one q c) as [r k]; simpl in *. right; now apply IH.
Qed.

(** With distinct ids, deleting by id removes every document of that id. *)
Lemma delete_one_by_id c (i : oid) :
  NoDup (map (@_id A) c) ->
  fst (delete_one (by_id i) c) = filter (fun d => negb (by_id i d)) c.
Proof.
  induction c as [|e c IH]; simpl; [reflexivity|].
  intros Hnd. inversion Hnd as [|x l Hnotin Hnd' Heq]; subst.
  destruct (by_id i e) eqn:He; simpl.
  - symmetry. apply forallb_filter_id. apply forallb_forall.
    intros d Hd. unfold by_id in *. apply N.eqb_eq in He.
    apply negb_true_iff, N.eqb_neq. intros Hdi.
    apply Hnotin. rewrite He, <- Hdi. now apply in_map.
  - specialize (IH Hnd'). destruct (delete_one (by_id i) c) as [r k].
    simpl in *. now rewrite IH.
Qed.

Lemma replace_first_none q (doc : A) c :
  replace_first q doc c = None <-> find_one q c = None.
Proof.
  unfold find_one.
  induction c as [|e c IH]; simpl; [tauto|].
  destruct (q e); [split; discriminate|].
  destruct (replace_first q doc c); simpl; intuition congruence.
Qed.

(** After an upsert, the key finds the new fields. *)
Lemma find_one_replace_one q (doc : A) fresh c :
  (forall i, q (mkStored i doc) = true) ->
  exists i, find_one q (fst (replace_one q doc fresh c))
            = Some (mkStored i doc).
Proof.
  intros Hdoc. unfold replace_one, insert_one, find_one.
  induction c as [|e c IH]; simpl.
  - rewrite Hdoc. now exists fresh.
  - destruct (q e) eqn:He; simpl.
    + rewrite Hdoc. now exists (_id e).
    + destruct IH as [i IH]. exists i.
      destruct (replace_first q doc c); simpl in *; now rewrite He.
Qed.

(** An upsert under one key leaves what another key finds. *)
Lemma find_one_replace_one_other q q' (doc : A) fresh c :
  (forall d, q' d = true -> q d = false) ->
  (forall i, q (mkStored i doc) = false) ->
  find_one q (fst (replace_one q' doc fresh c)) = find_one q c.
Proof.
  intros Hdisj Hdoc. unfold replace_one, insert_one, find_one.
  induction c as [|e c IH]; simpl.
  - now rewrite Hdoc.
  - destruct (q' e) eqn:He; simpl.
    + rewrite Hdoc, (Hdisj _ He). reflexivity.
    + destruct (replace_first q' doc c); simpl in *;
        destruct (q e); auto.
Qed.

(** An upsert never adds a second match: the count becomes one when
    nothing matched and stays as it was otherwise. *)
Lemma count_replace_one q (doc : A) fresh c :
  (forall i, q (mkStored i doc) = true) ->
  count_documents q (fst (replace_one q doc fresh c))
  = Nat.max 1 (count_documents q c).
Proof.
  intros Hdoc. unfold replace_one, insert_one, count_documents.
  induction c as [|e c IH]; simpl.
  - now rewrite Hdoc.
  - destruct (q e) eqn:He; simpl.
    + rewrite Hdoc. simpl. reflexivity.
    + destruct (replace_first q doc c); simpl in *; rewrite He; exact IH.
Qed.

Lemma count_replace_one_other q q' (doc : A) fresh c :
  (forall d, q' d = true -> q d = false) ->
  (forall i, q (mkStored i doc) = false) ->
  count_documents q (fst (replace_one q' doc fresh c))
  = count_documents q c.
Proof.
  intros Hdisj Hdoc. unfold replace_one, insert_one, count_documents.
  induction c as [|e c IH]; simpl.
  - now rewrite Hdoc.
  - destruct (q' e) eqn:He; simpl.
    + rewrite Hdoc, (Hdisj _ He). reflexivity.
    + destruct (replace_first q' doc c); simpl in *;
        destruct (q e); simpl; auto.
Qed.

(** ** Sorting *)

Lemma insert_sorted_perm key d c :
  Permutation (insert_sorted key d c) (d :: c).
Proof.
  induction c as [|e c IH]; simpl; [reflexivity|].
  destruct (key d <=? key e)%Z; [reflexivity|].
  rewrite IH. apply perm_swap.
Qed.

Lemma sort_perm key c : Permutation (sort key c) c.
Proof.
  induction c as [|e c IH]; simpl; [reflexivity|].
  rewrite insert_sorted_perm. now constructor.
Qed.

Lemma sort_length key c : length (sort key c) = length c.
Proof. apply Permutation_length, sort_perm. Qed.

Lemma sort_In key c d : In d (sort key c) <-> In d c.
Proof.
  split; apply Permutation_in; [|symmetry]; apply sort_perm.
Qed.

(** Strictly increasing keys: the sort changes nothing. *)
Lemma sort_increasing key c :
  StronglySorted Z.lt (map key c) -> sort key c = c.
Proof.
  induction c as [|e c IH]; simpl; [reflexivity|].
  intros Hs. inversion Hs as [|x l Hs' Hall]; subst.
  rewrite (IH Hs'). destruct c as [|e' c]; simpl; [reflexivity|].
  inversion Hall; subst.
  destruct (key e <=? key e')%Z eqn:Hle; [reflexivity|].
  apply Z.leb_gt in Hle. lia.
Qed.

Lemma limit_positive (n : Z) c :
  (0 < n)%Z -> limit n c = firstn (Z.to_nat n) c.
Proof.
  intros Hn. unfold limit.
  destruct (n =? 0)%Z eqn:E; [apply Z.eqb_eq in E; lia|].
  f_equal. lia.
Qed.

End CollectionFacts.

(** * Content resolution: [send_video_from_channel] *)

Section Resolver.
Import StreamingBot.
Local Open Scope Z_scope.

Variable bot : Bot.

(** Whatever the record, exactly one call goes to the bot and its
    outcome is the function's outcome. *)
Lemma send_video_one_call (video_data : VideoData) :
  exists call,
    send_video_from_channel bot video_data = ([call], bot call).
Proof.
  unfold send_video_from_channel, attempt.
  destruct (message_id video_data) as [m|].
  - destruct (negb (m =? 0)).
    + exists (copy_message m). now destruct (bot _).
    + exists (send_video (file_id video_data)). now destruct (bot _).
  - exists (send_video (file_id video_data)). now destruct (bot _).
Qed.

(** C6, as amended: the choice is total and two-tier.  A reference that
    is present and not zero is replayed by [copy_message]; an absent
    reference, or the reference 0, is replayed by [send_video] with the
    raw handle; the one call made is the only one, and what it raises
    is what the function raises. *)
Theorem resolve_two_tier (video_data : VideoData) :
  (forall m, message_id video_data = Some m -> m <> 0 ->
     send_video_from_channel bot video_data
     = ([copy_message m], bot (copy_message m)))
  /\ (message_id video_data = None \/ message_id video_data = Some 0 ->
      send_video_from_channel bot video_data
      = ([send_video (file_id video_data)],
         bot (send_video (file_id video_data))))
  /\ (exists call,
        send_video_from_channel bot video_data = ([call], bot call)).
Proof.
  split; [|split].
  - intros m Hm Hnz. unfold send_video_from_channel, attempt.
    rewrite Hm. apply Z.eqb_neq in Hnz. rewrite Hnz. simpl.
    now destruct (bot _).
  - intros [H|H]; unfold send_video_from_channel, attempt; rewrite H;
      simpl; now destruct (bot _).
  - apply send_video_one_call.
Qed.

(** C9: presence is Python truth.  With the reference 0 the function
    does what it does with no reference at all: one [send_video] of the
    raw handle. *)
Theorem resolve_zero_reference_is_fallback (video_data : VideoData) :
  message_id video_data = Some 0 ->
  send_video_from_channel bot video_data
  = send_video_from_channel bot (mkVideoData None (file_id video_data))
  /\ fst (send_video_from_channel bot video_data)
     = [send_video (file_id video_data)].
Proof.
  intros H. unfold send_video_from_channel, attempt. rewrite H. simpl.
  split; [reflexivity|]. now destruct (bot _).
Qed.

End Resolver.

(** C6, as the spec words it, fails: this record has a channel reference
    (the integer 0) and a handle, and the handle is what is replayed. *)
Lemma resolve_present_reference_not_replayed :
  let video_data := StreamingBot.mkVideoData (Some 0%Z) (Some "BAACAgQAAx") in
  StreamingBot.message_id video_data <> None
  /\ StreamingBot.send_video_from_channel expiring_bot video_data
     = ([StreamingBot.send_video (Some "BAACAgQAAx")],
        Some "Bad Request: wrong file identifier").
Proof. split; [discriminate | reflexivity]. Qed.

Lemma resolve_two_tier_witness :
  StreamingBot.send_video_from_channel expiring_bot
    (StreamingBot.mkVideoData (Some 812%Z) (Some "BAACAgQAAx"))
  = ([StreamingBot.copy_message 812], None)
  /\ StreamingBot.send_video_from_channel expiring_bot
       (StreamingBot.mkVideoData None (Some "BAACAgQAAx"))
     = ([StreamingBot.send_video (Some "BAACAgQAAx")],
        Some "Bad Request: wrong file identifier").
Proof.
  split.
  - apply (proj1 (resolve_two_tier expiring_bot
                    (StreamingBot.mkVideoData (Some 812%Z)
                       (Some "BAACAgQAAx"))) 812%Z eq_refl).
    discriminate.
  - apply (proj1 (proj2 (resolve_two_tier expiring_bot
                           (StreamingBot.mkVideoData None
                              (Some "BAACAgQAAx"))))).
    left. reflexivity.
Defined.

Lemma resolve_zero_reference_is_fallback_witness :
  fst (StreamingBot.send_video_from_channel expiring_bot
         (StreamingBot.mkVideoData (Some 0%Z) (Some "BAACAgQAAx")))
  = [StreamingBot.send_video (Some "BAACAgQAAx")].
Proof.
  apply (proj2 (resolve_zero_reference_is_fallback expiring_bot
                  (StreamingBot.mkVideoData (Some 0%Z) (Some "BAACAgQAAx"))
                  eq_refl)).
Defined.

(** * Film linking: [link_film] *)

Section FilmLinking.
Local Open Scope Z_scope.

Lemma find_one_by_id_absent {A : Type} (c : collection A) (i : oid) :
  ~ In i (map (@_id A) c) -> find_one (by_id i) c = None.
Proof.
  unfold find_one, by_id. induction c as [|e c IH]; simpl; [reflexivity|].
  intros Hn. destruct (_id e =? i)%N eqn:E.
  - apply N.eqb_eq in E. tauto.
  - apply IH. tauto.
Qed.

Lemma find_one_by_id_present {A : Type} (c : collection A) (d : Stored A) :
  NoDup (map (@_id A) c) -> In d c -> find_one (by_id (_id d)) c = Some d.
Proof.
  unfold find_one, by_id. induction c as [|e c IH]; simpl; [tauto|].
  intros Hnd Hin. inversion Hnd as [|x l Hnotin Hnd' Heq]; subst.
  destruct Hin as [->|Hin]; [now rewrite N.eqb_refl|].
  destruct (_id e =? _id d)%N eqn:E; [|now apply IH].
  apply N.eqb_eq in E. exfalso. apply Hnotin. rewrite E. now apply in_map.
Qed.

Lemma film_key_doc (data : FilmLink.t) (now : datetime) (i : oid) :
  film_key (FilmLink.film_id data)
    (mkStored i
       (Film.mk (FilmLink.film_id data) (FilmLink.file_id data)
          (FilmLink.message_id data) (FilmLink.storage_bot data)
          (FilmLink.uploader_id data) now)) = true.
Proof. unfold film_key. simpl. apply String.eqb_refl. Qed.

(** What a call does once the catalogue has answered. *)
Lemma link_film_ok_inv data now db db' r :
  link_film data now db = (db', Ok r) ->
  films db'
  = fst (replace_one (film_key (FilmLink.film_id data))
           (Film.mk (FilmLink.film_id data) (FilmLink.file_id data)
              (FilmLink.message_id data) (FilmLink.storage_bot data)
              (FilmLink.uploader_id data) now)
           (next_id db) (films db))
  /\ media db' = media db
  /\ episodes db' = episodes db
  /\ upload_queue db' = upload_queue db
  /\ r = (true, FilmLink.film_id data).
Proof.
  unfold link_film. destruct (ObjectId _); [|discriminate].
  destruct (find_one _ _); [|discriminate].
  destruct (negb _); [discriminate|].
  destruct (replace_one _ _ _ _) as [fs ins] eqn:E.
  intros H. inversion H; subst; simpl. repeat split; reflexivity.
Qed.

(** Any call, failed or not, keeps the unique index. *)
Lemma link_film_films_unique data now db :
  films_unique db -> films_unique (fst (link_film data now db)).
Proof.
  intros Hu. destruct (link_film data now db) as [db' [r|e]] eqn:E.
  - apply link_film_ok_inv in E. destruct E as (Hf & _). simpl.
    intros fid. rewrite Hf.
    destruct (String.eqb (FilmLink.film_id data) fid) eqn:Efid.
    + apply String.eqb_eq in Efid. subst fid.
      rewrite count_replace_one by (intros; apply film_key_doc).
      specialize (Hu (FilmLink.film_id data)). lia.
    + rewrite count_replace_one_other; [apply Hu| |].
      * intros d Hd. unfold film_key in *. apply String.eqb_eq in Hd.
        rewrite Hd. exact Efid.
      * intros i. unfold film_key. simpl. exact Efid.
  - unfold link_film in E. destruct (ObjectId _).
    + destruct (find_one _ _).
      * destruct (negb _).
        -- inversion E; subst. exact Hu.
        -- destruct (replace_one _ _ _ _). discriminate.
      * inversion E; subst. exact Hu.
    + inversion E; subst. exact Hu.
Qed.

(** C7: two successive links of one film id, with records [r1] then
    [r2], leave exactly one film document under that id, and it holds
    the fields of [r2] and the second call's timestamp.  No call ever
    makes a second document for an id. *)
Theorem link_film_upsert (r1 r2 : FilmLink.t) (t1 t2 : datetime)
  (db db1 db2 : Db) (a1 a2 : bool * string) :
  films_unique db ->
  FilmLink.film_id r1 = FilmLink.film_id r2 ->
  link_film r1 t1 db = (db1, Ok a1) ->
  link_film r2 t2 db1 = (db2, Ok a2) ->
  count_documents (film_key (FilmLink.film_id r2)) (films db2) = 1%nat
  /\ (exists i,
        get_film (FilmLink.film_id r2) db2
        = Ok (mkStored i
                (Film.mk (FilmLink.film_id r2) (FilmLink.file_id r2)
                   (FilmLink.message_id r2) (FilmLink.storage_bot r2)
                   (FilmLink.uploader_id r2) t2)))
  /\ films_unique db1 /\ films_unique db2.
Proof.
  intros Hu Hid H1 H2.
  assert (Hu1 : films_unique db1).
  { pose proof (link_film_films_unique r1 t1 Hu) as H. now rewrite H1 in H. }
  assert (Hu2 : films_unique db2).
  { pose proof (link_film_films_unique r2 t2 Hu1) as H. now rewrite H2 in H. }
  apply link_film_ok_inv in H2. destruct H2 as (Hf2 & _).
  apply link_film_ok_inv in H1. destruct H1 as (Hf1 & _).
  repeat split; try assumption.
  - rewrite Hf2, count_replace_one by (intros; apply film_key_doc).
    rewrite Hf1, <- Hid.
    rewrite count_replace_one by (intros; apply film_key_doc).
    specialize (Hu (FilmLink.film_id r1)). lia.
  - unfold get_film. rewrite Hf2.
    destruct (find_one_replace_one (film_key (FilmLink.film_id r2))
                (Film.mk (FilmLink.film_id r2) (FilmLink.file_id r2)
                   (FilmLink.message_id r2) (FilmLink.storage_bot r2)
                   (FilmLink.uploader_id r2) t2)
                (next_id db1) (films db1)) as [i Hi].
    + intros; apply film_key_doc.
    + exists i. now rewrite Hi.
Qed.

(** C8, as amended.  An id whose title is a series: "Media is not a
    film", nothing written.  An id with no title: the call fails with
    "Film not found" (404) or, the string being refused as an object id,
    with "Invalid film ID" (400), and nothing is written; for an id of
    24 hexadecimal digits it is "Film not found". *)
Theorem link_film_rejects (data : FilmLink.t) (now : datetime) (db : Db) :
  (forall m,
     media_ids_unique db ->
     In m (media db) ->
     ObjectId (FilmLink.film_id data) = Some (_id m) ->
     Media.type (body m) = series ->
     link_film data now db
     = (db, Raise (mkHTTPException 400 "Media is not a film")))
  /\ ((forall i,
         ObjectId (FilmLink.film_id data) = Some i ->
         ~ In i (map (@_id Media.t) (media db))) ->
      link_film data now db
      = (db, Raise (mkHTTPException 404 "Film not found"))
      \/ link_film data now db
         = (db, Raise (mkHTTPException 400 "Invalid film ID")))
  /\ (forall i,
        ObjectId (FilmLink.film_id data) = Some i ->
        ~ In i (map (@_id Media.t) (media db)) ->
        link_film data now db
        = (db, Raise (mkHTTPException 404 "Film not found"))).
Proof.
  split; [|split].
  - intros m Hnd Hin Hoid Hty. unfold link_film. rewrite Hoid.
    rewrite (find_one_by_id_present _ _ Hnd Hin), Hty. reflexivity.
  - intros Hnone. unfold link_film.
    destruct (ObjectId (FilmLink.film_id data)) as [i|]; [|now right].
    left. now rewrite (find_one_by_id_absent _ _ (Hnone i eq_refl)).
  - intros i Hoid Hnot. unfold link_film. rewrite Hoid.
    now rewrite (find_one_by_id_absent _ _ Hnot).
Qed.

End FilmLinking.

Lemma films_unique_no_films (db : Db) : films db = [] -> films_unique db.
Proof. intros H fid. rewrite H. unfold count_documents. simpl. lia. Qed.

Lemma link_film_upsert_witness :
  count_documents (film_key dune_id) (films dune_linked_twice) = 1%nat
  /\ (exists i,
        get_film dune_id dune_linked_twice
        = Ok (mkStored i
                (Film.mk dune_id "BAACAgQAAx-2" None "storage_bot" 9%Z
                   2000%Z))).
Proof.
  assert (H : films_unique catalog_db) by (now apply films_unique_no_films).
  destruct (link_film_upsert dune_first dune_second 1000%Z 2000%Z
              (db := catalog_db) (db1 := dune_linked_once)
              (db2 := dune_linked_twice)
              (a1 := (true, dune_id)) (a2 := (true, dune_id))
              H eq_refl eq_refl eq_refl) as (Hc & Hg & _).
  split; [exact Hc | exact Hg].
Defined.

(** C8, as the spec words it, fails: the string ["dune"] is the id of no
    title (the catalogue is empty), and the call does not answer "Film not
    found" (404) but "Invalid film ID" (400). *)
Lemma link_film_malformed_id_not_found_fails :
  let data := FilmLink.mk "dune" "BAACAgQAAx-1" (Some 811%Z) "storage_bot" 7%Z in
  media empty_db = []
  /\ link_film data 1000%Z empty_db
     = (empty_db, Raise (mkHTTPException 400 "Invalid film ID"))
  /\ snd (link_film data 1000%Z empty_db)
     <> Raise (mkHTTPException 404 "Film not found").
Proof. repeat split. discriminate. Qed.

Lemma link_film_rejects_witness :
  link_film (FilmLink.mk dark_id "BAACAgQAAx-1" (Some 811%Z) "storage_bot" 7%Z)
    1000%Z catalog_db
  = (catalog_db, Raise (mkHTTPException 400 "Media is not a film"))
  /\ link_film
       (FilmLink.mk unknown_id "BAACAgQAAx-1" (Some 811%Z) "storage_bot" 7%Z)
       1000%Z catalog_db
     = (catalog_db, Raise (mkHTTPException 404 "Film not found"))
  /\ (link_film
        (FilmLink.mk "dune" "BAACAgQAAx-1" (Some 811%Z) "storage_bot" 7%Z)
        1000%Z catalog_db
      = (catalog_db, Raise (mkHTTPException 404 "Film not found"))
      \/ link_film
           (FilmLink.mk "dune" "BAACAgQAAx-1" (Some 811%Z) "storage_bot" 7%Z)
           1000%Z catalog_db
         = (catalog_db, Raise (mkHTTPException 400 "Invalid film ID"))).
Proof.
  split; [|split].
  - apply (proj1 (link_film_rejects
                    (FilmLink.mk dark_id "BAACAgQAAx-1" (Some 811%Z)
                       "storage_bot" 7%Z) 1000%Z catalog_db)
             (mkStored (oid_of dark_id) (Media.mk "Dark" series))).
    + unfold media_ids_unique. vm_compute.
      repeat constructor; simpl; intuition discriminate.
    + simpl. right. left. reflexivity.
    + reflexivity.
    + reflexivity.
  - apply (proj2 (proj2 (link_film_rejects
                           (FilmLink.mk unknown_id "BAACAgQAAx-1" (Some 811%Z)
                              "storage_bot" 7%Z) 1000%Z catalog_db))
             (oid_of unknown_id)).
    + reflexivity.
    + vm_compute. intuition discriminate.
  - apply (proj1 (proj2 (link_film_rejects
                           (FilmLink.mk "dune" "BAACAgQAAx-1" (Some 811%Z)
                              "storage_bot" 7%Z) 1000%Z catalog_db))).
    intros i Hi. discriminate Hi.
Defined.

(** * The upload queue *)

Section Queue.
Local Open Scope Z_scope.

Lemma enqueue_all_queue reqs db :
  upload_queue (enqueue_all reqs db)
  = upload_queue db ++ appended (next_id db) reqs.
Proof.
  unfold enqueue_all. revert db.
  induction reqs as [|r rs IH]; intros db; simpl.
  - now rewrite app_nil_r.
  - rewrite IH. simpl. unfold insert_one. now rewrite <- app_assoc.
Qed.

Lemma appended_for owner n reqs :
  map (@body Upload.t) (find (by_user owner) (appended n reqs))
  = arrival_docs owner reqs.
Proof.
  unfold arrival_docs, enqueued_for, find. revert n.
  induction reqs as [|r rs IH]; intros n; simpl; [reflexivity|].
  unfold by_user at 1. simpl.
  destruct (UploadCreate.user_id (payload r) =? owner); simpl;
    now rewrite IH.
Qed.

Lemma get_queue_empty owner db :
  get_queue owner db = [] -> find (by_user owner) (upload_queue db) = [].
Proof.
  unfold get_queue. intros H. apply length_zero_iff_nil.
  rewrite <- (sort_length by_timestamp), H. reflexivity.
Qed.

(** C5, as amended: the order of the queue is the order of the stored
    timestamps.  When the clock readings of the owner's enqueues
    strictly increase, the queue reads in arrival order, and a peek of
    [k] returns the first [k] enqueued. *)
Theorem get_queue_fifo_when_clock_increases (owner : Z)
  (reqs : list Enqueue) (db : Db) :
  get_queue owner db = [] ->
  StronglySorted Z.lt (map Upload.timestamp (arrival_docs owner reqs)) ->
  map (@body Upload.t) (get_queue owner (enqueue_all reqs db))
  = arrival_docs owner reqs
  /\ (forall k : Z,
        0 < k ->
        map (@body Upload.t)
          (limit k (get_queue owner (enqueue_all reqs db)))
        = firstn (Z.to_nat k) (arrival_docs owner reqs)).
Proof.
  intros Hempty Hclock.
  assert (Hq : get_queue owner (enqueue_all reqs db)
               = find (by_user owner) (appended (next_id db) reqs)).
  { unfold get_queue. rewrite enqueue_all_queue. unfold find at 1.
    rewrite filter_app. fold (find (by_user owner) (upload_queue db)).
    rewrite (get_queue_empty _ _ Hempty). simpl.
    apply sort_increasing.
    rewrite <- (appended_for owner (next_id db) reqs) in Hclock.
    rewrite map_map in Hclock. exact Hclock. }
  split.
  - rewrite Hq. apply appended_for.
  - intros k Hk. rewrite limit_positive by assumption.
    rewrite Hq, <- firstn_map. f_equal. apply appended_for.
Qed.

End Queue.

(** C5, as the spec words it, fails: [upload_a] arrives first and
    [upload_b] second, the clock reads less at the second, and the queue
    and a peek of one return [upload_b] first. *)
Lemma get_queue_not_in_arrival_order :
  let db := enqueue_all clock_set_back empty_db in
  map Upload.file_id (arrival_docs 7%Z clock_set_back)
  = ["BAACAgQAAx-a"; "BAACAgQAAx-b"]
  /\ map (fun d => Upload.file_id (body d)) (get_queue 7%Z db)
     = ["BAACAgQAAx-b"; "BAACAgQAAx-a"]
  /\ map (fun d => Upload.file_id (body d)) (limit 1%Z (get_queue 7%Z db))
     = ["BAACAgQAAx-b"].
Proof. repeat split. Qed.

Lemma get_queue_fifo_when_clock_increases_witness :
  map (fun d => Upload.file_id (body d))
    (get_queue 7%Z (enqueue_all clock_running empty_db))
  = ["BAACAgQAAx-a"; "BAACAgQAAx-b"; "BAACAgQAAx-c"].
Proof.
  assert (Hs : StronglySorted Z.lt
                 (map Upload.timestamp (arrival_docs 7%Z clock_running))).
  { simpl. repeat constructor. }
  pose proof (proj1 (get_queue_fifo_when_clock_increases 7%Z clock_running
                       empty_db eq_refl Hs)) as H.
  rewrite <- (map_map (@body Upload.t) Upload.file_id), H. reflexivity.
Defined.

(** * Bulk season linking: [link_season_bulk] *)

Section BulkLoop.
Local Open Scope Z_scope.

Variable utcnow : nat -> datetime.
Variable fault : nat -> StoreFault.
Variables (media_id : string) (season_number uploader_id : Z).

Local Abbreviation loop :=
  (link_each utcnow fault media_id season_number uploader_id).
Local Abbreviation pass :=
  (loop_pass utcnow fault media_id season_number uploader_id).

Lemma upsert_episode_frame doc db :
  media (upsert_episode doc db) = media db
  /\ films (upsert_episode doc db) = films db
  /\ upload_queue (upsert_episode doc db) = upload_queue db.
Proof.
  unfold upsert_episode. destruct (replace_one _ _ _ _). simpl. tauto.
Qed.

Lemma upsert_episode_episodes doc db :
  episodes (upsert_episode doc db)
  = fst (replace_one
           (episode_key (Episode.media_id doc) (Episode.season_number doc)
              (Episode.episode_number doc))
           doc (next_id db) (episodes db)).
Proof.
  unfold upsert_episode. destruct (replace_one _ _ _ _). reflexivity.
Qed.

Lemma loop_cons i upload rest db :
  loop i (upload :: rest) db
  = (fst (loop (S i) rest (pass i upload db)),
     pass_detail fault i :: snd (loop (S i) rest (pass i upload db))).
Proof.
  unfold loop_pass, pass_detail. simpl.
  destruct (fault i);
    match goal with
    | |- context [link_each ?a ?b ?c ?d ?e ?f ?g ?h] =>
        destruct (link_each a b c d e f g h)
    end; reflexivity.
Qed.

(** The loop never stops early: one detail per upload, in order. *)
Lemma loop_details uploads i db :
  snd (loop i uploads db) = map (pass_detail fault) (seq i (length uploads)).
Proof.
  revert i db. induction uploads as [|u rest IH]; intros i db.
  - reflexivity.
  - rewrite loop_cons. simpl. now rewrite IH.
Qed.

Lemma pass_frame i upload db :
  media (pass i upload db) = media db /\ films (pass i upload db) = films db.
Proof.
  unfold loop_pass, dequeue. destruct (fault i); simpl;
    try (destruct (upsert_episode_frame
                     (episode_doc media_id season_number (Z.of_nat i + 1)
                        upload uploader_id (utcnow i)) db) as (? & ? & ?));
    tauto.
Qed.

Lemma loop_frame uploads i db :
  media (fst (loop i uploads db)) = media db
  /\ films (fst (loop i uploads db)) = films db.
Proof.
  revert i db. induction uploads as [|u rest IH]; intros i db.
  - simpl. tauto.
  - rewrite loop_cons. simpl.
    destruct (IH (S i) (pass i u db)) as [-> ->]. apply pass_frame.
Qed.

Lemma pass_queue i upload db :
  upload_queue (pass i upload db)
  = if pass_ok (fault i)
    then fst (delete_one (by_id (_id upload)) (upload_queue db))
    else upload_queue db.
Proof.
  unfold loop_pass, dequeue. destruct (fault i); simpl;
    try (destruct (upsert_episode_frame
                     (episode_doc media_id season_number (Z.of_nat i + 1)
                        upload uploader_id (utcnow i)) db) as (_ & _ & ->));
    reflexivity.
Qed.

(** The queue after the loop: exactly the consumed uploads are deleted
    by id. *)
Lemma loop_queue uploads i db :
  upload_queue (fst (loop i uploads db))
  = dequeue_all (consumed fault i uploads) (upload_queue db).
Proof.
  revert i db. induction uploads as [|u rest IH]; intros i db.
  - reflexivity.
  - rewrite loop_cons. simpl. rewrite IH, pass_queue.
    destruct (pass_ok (fault i)); reflexivity.
Qed.

Lemma pass_episodes i upload db :
  episodes (pass i upload db)
  = if pass_writes (fault i)
    then fst (replace_one
                (episode_key media_id season_number (Z.of_nat i + 1))
                (episode_doc media_id season_number (Z.of_nat i + 1) upload
                   uploader_id (utcnow i))
                (next_id db) (episodes db))
    else episodes db.
Proof.
  unfold loop_pass, dequeue. destruct (fault i); simpl;
    try reflexivity; apply upsert_episode_episodes.
Qed.

Lemma episode_key_doc e upload now i :
  episode_key media_id season_number e
    (mkStored i
       (episode_doc media_id season_number e upload uploader_id now)) = true.
Proof.
  unfold episode_key, episode_doc. simpl.
  now rewrite String.eqb_refl, !Z.eqb_refl.
Qed.

Lemma episode_key_other_doc e e' upload now i :
  e <> e' ->
  episode_key media_id season_number e
    (mkStored i
       (episode_doc media_id season_number e' upload uploader_id now)) = false.
Proof.
  intros Hne. unfold episode_key, episode_doc. simpl.
  apply andb_false_iff. right. apply Z.eqb_neq. congruence.
Qed.

Lemma episode_key_disjoint e e' d :
  e <> e' ->
  episode_key media_id season_number e' d = true ->
  episode_key media_id season_number e d = false.
Proof.
  intros Hne. unfold episode_key. intros H.
  apply andb_true_iff in H. destruct H as [_ He']. apply Z.eqb_eq in He'.
  apply andb_false_iff. right. apply Z.eqb_neq. congruence.
Qed.

(** A pass touches the episode of its own number only. *)
Lemma pass_find_other i upload db e :
  (e = Z.of_nat i + 1 -> pass_writes (fault i) = false) ->
  find_one (episode_key media_id season_number e) (episodes (pass i upload db))
  = find_one (episode_key media_id season_number e) (episodes db).
Proof.
  intros H. rewrite pass_episodes.
  destruct (pass_writes (fault i)); [|reflexivity].
  assert (Hne : e <> Z.of_nat i + 1) by (intros ->; now specialize (H eq_refl)).
  apply find_one_replace_one_other.
  - intros d. now apply episode_key_disjoint.
  - intros j. now apply episode_key_other_doc.
Qed.

Lemma loop_find_other uploads i db e :
  (forall k, (i <= k < i + length uploads)%nat ->
             e = Z.of_nat k + 1 -> pass_writes (fault k) = false) ->
  find_one (episode_key media_id season_number e)
    (episodes (fst (loop i uploads db)))
  = find_one (episode_key media_id season_number e) (episodes db).
Proof.
  revert i db. induction uploads as [|u rest IH]; intros i db H.
  - reflexivity.
  - rewrite loop_cons. simpl fst. simpl in H. rewrite IH.
    + apply pass_find_other. apply H. lia.
    + intros k Hk. apply H. lia.
Qed.

(** The pass of the upload at position [j] writes its fields under
    episode number [j + 1], and no later pass overwrites them. *)
Lemma loop_find_linked uploads i db j upload :
  nth_error uploads j = Some upload ->
  pass_writes (fault (i + j)) = true ->
  exists id,
    find_one (episode_key media_id season_number (Z.of_nat (i + j) + 1))
      (episodes (fst (loop i uploads db)))
    = Some (mkStored id
              (episode_doc media_id season_number (Z.of_nat (i + j) + 1)
                 upload uploader_id (utcnow (i + j)))).
Proof.
  revert i db j. induction uploads as [|u rest IH]; intros i db j Hnth Hw.
  - destruct j; discriminate.
  - rewrite loop_cons. simpl fst. destruct j as [|j].
    + simpl in Hnth. inversion Hnth; subst u. rewrite Nat.add_0_r in *.
      rewrite loop_find_other by (intros k Hk Hek; lia).
      rewrite pass_episodes, Hw.
      apply find_one_replace_one. intros; apply episode_key_doc.
    + simpl in Hnth. replace (i + S j)%nat with (S i + j)%nat in * by lia.
      now apply IH.
Qed.

End BulkLoop.

Section Consumption.

Variable fault : nat -> StoreFault.

Lemma NoDup_map_filter {A B : Type} (f : A -> B) (p : A -> bool) l :
  NoDup (map f l) -> NoDup (map f (filter p l)).
Proof.
  induction l as [|x l IH]; simpl; [trivial|].
  intros H. inversion H as [|y l' Hn Hd]; subst.
  destruct (p x); simpl; [|now apply IH].
  constructor; [|now apply IH].
  intros Hin. apply Hn. apply in_map_iff in Hin.
  destruct Hin as (z & Hz & Hin). apply filter_In in Hin.
  apply in_map_iff. exists z. tauto.
Qed.

Lemma filter_twice {A : Type} (p q : A -> bool) l :
  filter q (filter p l) = filter (fun x => p x && q x) l.
Proof.
  induction l as [|x l IH]; simpl; [reflexivity|].
  destruct (p x); simpl; [destruct (q x)|]; now rewrite IH.
Qed.

(** With distinct ids, deleting [us] one by one keeps the documents
    whose id is none of theirs. *)
Lemma dequeue_all_filter us q :
  NoDup (map (@_id Upload.t) q) ->
  dequeue_all us q = filter (fun d => negb (id_in us d)) q.
Proof.
  unfold dequeue_all. revert q. induction us as [|u us IH]; intros q Hq.
  - simpl. symmetry. apply forallb_filter_id. now apply forallb_forall.
  - simpl. rewrite delete_one_by_id by assumption.
    rewrite IH by now apply NoDup_map_filter.
    rewrite filter_twice. apply filter_ext. intros d.
    unfold by_id. rewrite N.eqb_sym. now rewrite negb_orb.
Qed.

Lemma consumed_spec i uploads x :
  In x (consumed fault i uploads)
  <-> exists j, nth_error uploads j = Some x
                /\ pass_ok (fault (i + j)) = true.
Proof.
  revert i. induction uploads as [|u rest IH]; intros i; simpl.
  - split; [tauto|]. intros (j & Hj & _). destruct j; discriminate.
  - split.
    + intros H. destruct (pass_ok (fault i)) eqn:E.
      * destruct H as [->|H].
        -- exists 0%nat. now rewrite Nat.add_0_r.
        -- apply IH in H. destruct H as (j & Hj & Hok).
           exists (S j). now rewrite Nat.add_succ_r.
      * apply IH in H. destruct H as (j & Hj & Hok).
        exists (S j). now rewrite Nat.add_succ_r.
    + intros (j & Hj & Hok). destruct j as [|j]; simpl in Hj.
      * inversion Hj; subst. rewrite Nat.add_0_r in Hok. rewrite Hok.
        now left.
      * assert (In x (consumed fault (S i) rest)).
        { apply IH. exists j. now rewrite Nat.add_succ_r in Hok. }
        destruct (pass_ok (fault i)); [now right | assumption].
Qed.

Lemma id_in_true {A : Type} (us : list (Stored A)) d :
  id_in us d = true <-> exists u, In u us /\ _id u = _id d.
Proof.
  unfold id_in. rewrite existsb_exists.
  split; intros (u & Hu & E); exists u; split; auto;
    now apply N.eqb_eq.
Qed.

(** An upload whose pass failed has the id of no consumed upload. *)
Lemma failed_not_consumed uploads j upload :
  NoDup (map (@_id Upload.t) uploads) ->
  nth_error uploads j = Some upload ->
  pass_ok (fault j) = false ->
  id_in (consumed fault 0 uploads) upload = false.
Proof.
  intros Hnd Hj Hfail.
  destruct (id_in (consumed fault 0 uploads) upload) eqn:E; [|reflexivity].
  apply id_in_true in E. destruct E as (u & Hu & Hid).
  apply consumed_spec in Hu. destruct Hu as (j' & Hj' & Hok). simpl in Hok.
  assert (j' = j).
  { apply (proj1 (NoDup_nth_error (map (@_id Upload.t) uploads)) Hnd).
    - rewrite length_map. apply nth_error_Some. congruence.
    - rewrite !nth_error_map, Hj, Hj'. simpl. now f_equal. }
  subst. congruence.
Qed.

End Consumption.

Section Peek.
Local Open Scope Z_scope.

Lemma limit_incl {A : Type} (n : Z) (c : collection A) x :
  In x (limit n c) -> In x c.
Proof.
  unfold limit. destruct (n =? 0); [trivial|].
  intros H. rewrite <- (firstn_skipn (Z.abs_nat n) c).
  apply in_or_app. now left.
Qed.

Lemma limit_NoDup_ids {A : Type} (n : Z) (c : collection A) :
  NoDup (map (@_id A) c) -> NoDup (map (@_id A) (limit n c)).
Proof.
  unfold limit. destruct (n =? 0); [trivial|].
  intros H. rewrite <- (firstn_skipn (Z.abs_nat n) c), map_app in H.
  now apply NoDup_app_remove_r in H.
Qed.

Lemma get_queue_In user_id db x :
  In x (get_queue user_id db)
  <-> In x (upload_queue db) /\ by_user user_id x = true.
Proof.
  unfold get_queue, find. rewrite sort_In. apply filter_In.
Qed.

Lemma get_queue_NoDup user_id db :
  queue_ids_unique db -> NoDup (map (@_id Upload.t) (get_queue user_id db)).
Proof.
  unfold queue_ids_unique, get_queue, find. intros H.
  apply (Permutation_NoDup
           (l := map (@_id Upload.t)
                   (filter (by_user user_id) (upload_queue db)))).
  - apply Permutation_map. symmetry. apply sort_perm.
  - now apply NoDup_map_filter.
Qed.

Lemma get_queue_length user_id db :
  length (get_queue user_id db) = get_queue_count user_id db.
Proof. unfold get_queue, get_queue_count, find. apply sort_length. Qed.

(** A positive request against a long enough queue peeks exactly the
    requested number. *)
Lemma peek_length (n : Z) user_id db :
  0 < n -> n <= Z.of_nat (get_queue_count user_id db) ->
  limit n (get_queue user_id db) = firstn (Z.to_nat n) (get_queue user_id db)
  /\ length (limit n (get_queue user_id db)) = Z.to_nat n.
Proof.
  intros Hn Hle. rewrite limit_positive by assumption. split; [reflexivity|].
  rewrite length_firstn, get_queue_length. lia.
Qed.

(** A queue shorter than the request is peeked whole. *)
Lemma peek_short (n : Z) user_id db :
  Z.of_nat (get_queue_count user_id db) < n ->
  limit n (get_queue user_id db) = get_queue user_id db.
Proof.
  intros Hlt. rewrite limit_positive by lia.
  apply firstn_all2. rewrite get_queue_length. lia.
Qed.

Variable utcnow : nat -> datetime.
Variable fault : nat -> StoreFault.
Variables (media_id : string) (season_number uploader_id : Z).

Local Abbreviation loop :=
  (link_each utcnow fault media_id season_number uploader_id).

(** Past the guard, the route is the loop over the peeked uploads. *)
Lemma link_season_bulk_past_guard (n : Z) db :
  n <= Z.of_nat (length (limit n (get_queue uploader_id db))) ->
  link_season_bulk utcnow fault media_id season_number n uploader_id db
  = (fst (loop 0%nat (limit n (get_queue uploader_id db)) db),
     Ok (mkBulkResponse media_id season_number n
           (length
              (filter success
                 (snd (loop 0%nat (limit n (get_queue uploader_id db)) db))))
           (snd (loop 0%nat (limit n (get_queue uploader_id db)) db)))).
Proof.
  intros Hle. unfold link_season_bulk.
  change (sort by_timestamp (find (by_user uploader_id) (upload_queue db)))
    with (get_queue uploader_id db).
  destruct (Z.of_nat (length (limit n (get_queue uploader_id db))) <? n)
    eqn:E; [apply Z.ltb_lt in E; lia|].
  destruct (link_each _ _ _ _ _ _ _ _). reflexivity.
Qed.

(** C2: against a queue of fewer than [episode_count] entries the route
    raises "Not enough uploads", naming the queue's length as found and
    [episode_count] as needed, and the database is the one it was given:
    no entry dequeued, no episode written. *)
Theorem link_season_bulk_insufficient_queue (episode_count : Z) (db : Db) :
  Z.of_nat (get_queue_count uploader_id db) < episode_count ->
  link_season_bulk utcnow fault media_id season_number episode_count
    uploader_id db
  = (db,
     Raise (mkHTTPException 400
              ("Not enough uploads. Found "
               ++ str_int (Z.of_nat (get_queue_count uploader_id db))
               ++ ", need " ++ str_int episode_count))).
Proof.
  intros Hlt. unfold link_season_bulk.
  change (sort by_timestamp (find (by_user uploader_id) (upload_queue db)))
    with (get_queue uploader_id db).
  rewrite (peek_short _ _ Hlt), get_queue_length.
  destruct (Z.of_nat (get_queue_count uploader_id db) <? episode_count)
    eqn:E; [reflexivity|]. apply Z.ltb_ge in E. lia.
Qed.

End Peek.

Section Removal.

Lemma Permutation_filter_same {A : Type} (p : A -> bool) (l l' : list A) :
  Permutation l l' -> Permutation (filter p l) (filter p l').
Proof.
  induction 1 as [|x l l' _ IH|x y l|l l' l'' _ IH1 _ IH2]; simpl.
  - constructor.
  - destruct (p x); [now constructor | assumption].
  - destruct (p x), (p y); try reflexivity. apply perm_swap.
  - now transitivity (filter p l').
Qed.

Lemma NoDup_app_disjoint {A : Type} (l1 l2 : list A) a :
  NoDup (l1 ++ l2) -> In a l1 -> ~ In a l2.
Proof.
  induction l1 as [|x l1 IH]; simpl; [tauto|].
  intros H. inversion H as [|y l Hn Hd]; subst.
  intros [->|Hin]; [|now apply IH].
  intros Hin2. apply Hn. apply in_or_app. now right.
Qed.

Lemma id_in_self {A : Type} (us : list (Stored A)) u :
  In u us -> id_in us u = true.
Proof. intros H. apply id_in_true. now exists u. Qed.

(** Of a list with distinct ids, dropping the documents with an id of
    the front part leaves the back part. *)
Lemma filter_id_in_front {A : Type} (l1 l2 : list (Stored A)) :
  NoDup (map (@_id A) (l1 ++ l2)) ->
  filter (fun d => negb (id_in l1 d)) (l1 ++ l2) = l2.
Proof.
  intros Hnd. rewrite filter_app.
  assert (H1 : filter (fun d => negb (id_in l1 d)) l1 = []).
  { assert (G : forall l, incl l l1 ->
                          filter (fun d => negb (id_in l1 d)) l = []).
    { induction l as [|x l IH]; intros Hincl; simpl; [reflexivity|].
      rewrite id_in_self by (apply Hincl; now left). simpl.
      apply IH. intros y Hy. apply Hincl. now right. }
    apply G, incl_refl. }
  rewrite H1. simpl. apply forallb_filter_id, forallb_forall.
  intros x Hx. apply negb_true_iff.
  destruct (id_in l1 x) eqn:E; [|reflexivity].
  apply id_in_true in E. destruct E as (u & Hu & Hid).
  rewrite map_app in Hnd. exfalso.
  apply (NoDup_app_disjoint _ _ (_id u) Hnd).
  - now apply in_map.
  - rewrite Hid. now apply in_map.
Qed.

(** Removing the [m] first of a user's queue by id lowers the user's
    count by [m]. *)
Lemma count_without_oldest (m : nat) user_id db q' :
  queue_ids_unique db ->
  (m <= get_queue_count user_id db)%nat ->
  q' = filter (fun d => negb (id_in (firstn m (get_queue user_id db)) d))
         (upload_queue db) ->
  (count_documents (by_user user_id) q'
   = get_queue_count user_id db - m)%nat.
Proof.
  intros Hu Hm ->. unfold count_documents.
  set (oldest := firstn m (get_queue user_id db)).
  rewrite filter_twice.
  rewrite (filter_ext _ (fun x => by_user user_id x && negb (id_in oldest x)))
    by (intros; apply andb_comm).
  rewrite <- filter_twice.
  rewrite <- (Permutation_length
                (Permutation_filter_same (fun d => negb (id_in oldest d))
                   (sort_perm by_timestamp
                      (filter (by_user user_id) (upload_queue db))))).
  change (sort by_timestamp (filter (by_user user_id) (upload_queue db)))
    with (get_queue user_id db).
  rewrite <- (firstn_skipn m (get_queue user_id db)) at 1.
  fold oldest. rewrite filter_id_in_front.
  - rewrite length_skipn, get_queue_length. reflexivity.
  - unfold oldest. rewrite firstn_skipn. now apply get_queue_NoDup.
Qed.

End Removal.

Section BulkLinking.
Local Open Scope Z_scope.

Variable utcnow : nat -> datetime.
Variable fault : nat -> StoreFault.
Variables (media_id : string) (season_number uploader_id : Z).

Local Abbreviation loop :=
  (link_each utcnow fault media_id season_number uploader_id).

Lemma pass_detail_episode l :
  map episode (map (pass_detail fault) l)
  = map (fun k => Z.of_nat k + 1) l.
Proof.
  rewrite map_map. apply map_ext. intros k. unfold pass_detail.
  now destruct (fault k).
Qed.

Lemma pass_detail_success l :
  map success (map (pass_detail fault) l)
  = map (fun k => pass_ok (fault k)) l.
Proof.
  rewrite map_map. apply map_ext. intros k. unfold pass_detail.
  now destruct (fault k).
Qed.

Lemma pass_detail_count l :
  length (filter success (map (pass_detail fault) l))
  = length (filter (fun k => pass_ok (fault k)) l).
Proof.
  induction l as [|k l IH]; simpl; [reflexivity|].
  unfold pass_detail at 1. destruct (fault k); simpl; now rewrite IH.
Qed.

Lemma consumed_all i uploads :
  (forall k, (i <= k < i + length uploads)%nat -> fault k = NoFault) ->
  consumed fault i uploads = uploads.
Proof.
  revert i. induction uploads as [|u rest IH]; intros i H; simpl.
  - reflexivity.
  - rewrite (H i) by (simpl; lia). simpl. f_equal.
    apply IH. intros k Hk. apply H. simpl. lia.
Qed.

(** C4: past the guard the loop visits every peeked upload, whatever
    the store does to the others.  The response is a request-level
    success with one detail per episode number, in order, each telling
    whether its pass succeeded, and [linked_successfully] counts the
    passes that succeeded.  An upload whose pass failed is still in the
    queue; an upload whose pass succeeded is gone from it and its fields
    are the episode of its position; an episode whose [replace_one]
    raised is what it was before the call. *)
Theorem link_season_bulk_partial_failure (episode_count : Z) (db : Db) :
  queue_ids_unique db ->
  let uploads := limit episode_count (get_queue uploader_id db) in
  episode_count <= Z.of_nat (length uploads) ->
  exists db' linked,
    link_season_bulk utcnow fault media_id season_number episode_count
      uploader_id db
    = (db',
       Ok (mkBulkResponse media_id season_number episode_count
             (length (filter (fun k => pass_ok (fault k))
                        (seq 0 (length uploads))))
             linked))
    /\ (0 < episode_count -> length uploads = Z.to_nat episode_count)
    /\ map episode linked
       = map (fun k => Z.of_nat k + 1) (seq 0 (length uploads))
    /\ map success linked
       = map (fun k => pass_ok (fault k)) (seq 0 (length uploads))
    /\ (forall j upload,
          nth_error uploads j = Some upload ->
          (pass_ok (fault j) = false -> In upload (upload_queue db'))
          /\ (pass_ok (fault j) = true -> ~ In upload (upload_queue db'))
          /\ (pass_writes (fault j) = true ->
              exists i,
                get_episode media_id season_number (Z.of_nat j + 1) db'
                = Ok (mkStored i
                        (episode_doc media_id season_number (Z.of_nat j + 1)
                           upload uploader_id (utcnow j))))
          /\ (pass_writes (fault j) = false ->
              get_episode media_id season_number (Z.of_nat j + 1) db'
              = get_episode media_id season_number (Z.of_nat j + 1) db)).
Proof.
  intros Hu uploads Hguard.
  exists (fst (loop 0%nat uploads db)), (snd (loop 0%nat uploads db)).
  assert (Hq : upload_queue (fst (loop 0%nat uploads db))
               = filter (fun d => negb (id_in (consumed fault 0 uploads) d))
                   (upload_queue db)).
  { rewrite loop_queue. now apply dequeue_all_filter. }
  split; [|split; [|split; [|split]]].
  - rewrite link_season_bulk_past_guard by exact Hguard.
    fold uploads. rewrite loop_details, pass_detail_count. reflexivity.
  - intros Hpos. unfold uploads in *. rewrite limit_positive in * by assumption.
    rewrite length_firstn in *. lia.
  - rewrite loop_details. apply pass_detail_episode.
  - rewrite loop_details. apply pass_detail_success.
  - intros j upload Hj.
    assert (Hin : In upload (upload_queue db)).
    { apply nth_error_In in Hj. apply limit_incl in Hj.
      now apply get_queue_In in Hj. }
    split; [|split; [|split]].
    + intros Hfail. rewrite Hq. apply filter_In. split; [assumption|].
      rewrite (failed_not_consumed fault uploads j); auto.
      apply limit_NoDup_ids. now apply get_queue_NoDup.
    + intros Hok. rewrite Hq. rewrite filter_In. intros [_ Hneg].
      rewrite id_in_self in Hneg; [discriminate|].
      apply consumed_spec. now exists j.
    + intros Hw. unfold get_episode.
      destruct (loop_find_linked utcnow fault media_id season_number
                  uploader_id uploads 0%nat db j Hj Hw) as [i Hi].
      simpl in Hi. rewrite Hi. now exists i.
    + intros Hw. unfold get_episode. rewrite loop_find_other; [reflexivity|].
      intros k _ Hk. assert (k = j) by lia. now subst.
Qed.

(** C3, as amended: a bulk link of [episode_count >= 1] uploads in which
    no pass fails takes the uploads in the order of their stored
    timestamps, as the queue reads.  The entry at position [j] of the
    queue becomes episode [j + 1] with its own content fields, whatever
    they are; exactly the [episode_count] first entries leave the queue;
    and the uploader's count falls by [episode_count]. *)
Theorem link_season_bulk_positional (episode_count : Z) (db : Db) :
  queue_ids_unique db ->
  0 < episode_count ->
  episode_count <= Z.of_nat (get_queue_count uploader_id db) ->
  (forall k, (k < Z.to_nat episode_count)%nat -> fault k = NoFault) ->
  let oldest := firstn (Z.to_nat episode_count) (get_queue uploader_id db) in
  exists db' linked,
    link_season_bulk utcnow fault media_id season_number episode_count
      uploader_id db
    = (db',
       Ok (mkBulkResponse media_id season_number episode_count
             (Z.to_nat episode_count) linked))
    /\ linked
       = map (fun k => mkDetail (Z.of_nat k + 1) true None)
           (seq 0 (Z.to_nat episode_count))
    /\ (forall j e,
          nth_error oldest j = Some e ->
          exists i,
            get_episode media_id season_number (Z.of_nat j + 1) db'
            = Ok (mkStored i
                    (Episode.mk media_id season_number (Z.of_nat j + 1)
                       (Upload.file_id (body e)) (Upload.message_id (body e))
                       (Upload.bot_name (body e)) uploader_id (utcnow j))))
    /\ upload_queue db'
       = filter (fun d => negb (id_in oldest d)) (upload_queue db)
    /\ (forall e, In e oldest ->
                  ~ In e (upload_queue db')
                  /\ ~ In e (get_queue uploader_id db'))
    /\ Z.of_nat (get_queue_count uploader_id db')
       = Z.of_nat (get_queue_count uploader_id db) - episode_count.
Proof.
  intros Hu Hpos Hlen Hok oldest.
  destruct (peek_length uploader_id db Hpos Hlen) as [Hpeek Hn].
  exists (fst (loop 0%nat oldest db)), (snd (loop 0%nat oldest db)).
  assert (Hlo : length oldest = Z.to_nat episode_count).
  { unfold oldest. now rewrite <- Hpeek. }
  assert (Hq : upload_queue (fst (loop 0%nat oldest db))
               = filter (fun d => negb (id_in oldest d)) (upload_queue db)).
  { rewrite loop_queue, consumed_all.
    - now apply dequeue_all_filter.
    - intros k Hk. apply Hok. lia. }
  assert (Hd : snd (loop 0%nat oldest db)
               = map (fun k => mkDetail (Z.of_nat k + 1) true None)
                   (seq 0 (Z.to_nat episode_count))).
  { rewrite loop_details, Hlo. apply map_ext_in. intros k Hk.
    apply in_seq in Hk. unfold pass_detail. now rewrite Hok by lia. }
  assert (Hgone : forall e, In e oldest ->
                            ~ In e (upload_queue (fst (loop 0%nat oldest db)))).
  { intros e He. rewrite Hq, filter_In. intros [_ Hneg].
    now rewrite id_in_self in Hneg. }
  split; [|split; [|split; [|split; [|split]]]].
  - rewrite link_season_bulk_past_guard by (rewrite Hn; lia).
    rewrite Hpeek. fold oldest.
    assert (Hc : length (filter success (snd (loop 0%nat oldest db)))
                 = Z.to_nat episode_count).
    { rewrite Hd.
      transitivity (length (seq 0 (Z.to_nat episode_count)));
        [|apply length_seq].
      generalize (seq 0 (Z.to_nat episode_count)). intros l.
      induction l as [|k l IH]; simpl; [reflexivity | now rewrite IH]. }
    now rewrite Hc.
  - exact Hd.
  - intros j e Hj. unfold get_episode.
    assert (Hjn : (j < Z.to_nat episode_count)%nat).
    { rewrite <- Hlo. apply nth_error_Some. congruence. }
    destruct (loop_find_linked utcnow fault media_id season_number
                uploader_id oldest 0%nat db j Hj) as [i Hi].
    + simpl. now rewrite Hok.
    + simpl in Hi. rewrite Hi. now exists i.
  - exact Hq.
  - intros e He. split; [now apply Hgone|].
    rewrite get_queue_In. intros [Hin _]. now apply (Hgone e).
  - unfold get_queue_count at 1.
    rewrite (count_without_oldest (m := Z.to_nat episode_count)
               uploader_id (db := db) Hu); [lia | lia | exact Hq].
Qed.

End BulkLinking.

(** * The bulk route and the catalogue *)

Section Catalogue.
Local Open Scope Z_scope.

Variable utcnow : nat -> datetime.
Variable fault : nat -> StoreFault.
Variables (media_id : string) (season_number uploader_id : Z).

Local Abbreviation loop :=
  (link_each utcnow fault media_id season_number uploader_id).
Local Abbreviation pass :=
  (loop_pass utcnow fault media_id season_number uploader_id).

Lemma pass_set_media catalog i upload db :
  pass i upload (set_media catalog db)
  = set_media catalog (pass i upload db).
Proof.
  unfold loop_pass, set_media, dequeue, upsert_episode. simpl.
  destruct (fault i); simpl; try reflexivity;
    destruct (replace_one _ _ _ _); reflexivity.
Qed.

Lemma loop_set_media catalog uploads i db :
  loop i uploads (set_media catalog db)
  = (set_media catalog (fst (loop i uploads db)), snd (loop i uploads db)).
Proof.
  revert i db. induction uploads as [|u rest IH]; intros i db.
  - reflexivity.
  - rewrite !loop_cons, pass_set_media, IH. reflexivity.
Qed.

(** X18: The route never reads [db.media]: under any catalogue it does the
    same to the queue and the episodes and answers the same. *)
Lemma link_season_bulk_ignores_catalog catalog (episode_count : Z) db :
  link_season_bulk utcnow fault media_id season_number episode_count
    uploader_id (set_media catalog db)
  = (set_media catalog
       (fst (link_season_bulk utcnow fault media_id season_number
               episode_count uploader_id db)),
     snd (link_season_bulk utcnow fault media_id season_number
            episode_count uploader_id db)).
Proof.
  unfold link_season_bulk. simpl upload_queue.
  destruct (_ <? episode_count); [reflexivity|].
  rewrite loop_set_media.
  destruct (link_each _ _ _ _ _ _ _ _). reflexivity.
Qed.

End Catalogue.

(** C1 fails on the code.  No title has the id [unknown_id], and
    [dune_id] is a film: [link_episode] refuses both, and
    [link_season_bulk] links three episodes under each and empties the
    queue. *)
Theorem link_season_bulk_no_catalogue_check :
  find_one (by_id (oid_of unknown_id)) (media queued_db) = None
  /\ snd (link_episode
            (EpisodeLink.mk unknown_id 1%Z 1%Z "BAACAgQAAx-a" (Some 811%Z)
               "storage_bot" 7%Z) 5000%Z queued_db)
     = Raise (mkHTTPException 404 "Series not found")
  /\ snd (link_episode
            (EpisodeLink.mk dune_id 1%Z 1%Z "BAACAgQAAx-a" (Some 811%Z)
               "storage_bot" 7%Z) 5000%Z queued_db)
     = Raise (mkHTTPException 400 "Media is not a series")
  /\ link_season_bulk server_clock no_fault unknown_id 1%Z 3%Z 7%Z queued_db
     = (mkDb (media queued_db) []
          [mkStored 4%N
             (Episode.mk unknown_id 1%Z 1%Z "BAACAgQAAx-a" (Some 811%Z)
                "storage_bot" 7%Z 5000%Z);
           mkStored 5%N
             (Episode.mk unknown_id 1%Z 2%Z "BAACAgQAAx-b" (Some 812%Z)
                "storage_bot" 7%Z 5001%Z);
           mkStored 6%N
             (Episode.mk unknown_id 1%Z 3%Z "BAACAgQAAx-c" (Some 813%Z)
                "storage_bot" 7%Z 5002%Z)]
          [] 7%N,
        Ok (mkBulkResponse unknown_id 1%Z 3%Z 3
              [mkDetail 1%Z true None; mkDetail 2%Z true None;
               mkDetail 3%Z true None]))
  /\ snd (link_season_bulk server_clock no_fault dune_id 1%Z 3%Z 7%Z
            queued_db)
     = Ok (mkBulkResponse dune_id 1%Z 3%Z 3
             [mkDetail 1%Z true None; mkDetail 2%Z true None;
              mkDetail 3%Z true None])
  /\ upload_queue
       (fst (link_season_bulk server_clock no_fault dune_id 1%Z 3%Z 7%Z
               queued_db)) = [].
Proof. repeat split. Qed.

Lemma queued_db_ids_unique : queue_ids_unique queued_db.
Proof.
  unfold queue_ids_unique. vm_compute.
  repeat constructor; simpl; intuition discriminate.
Qed.

Lemma link_season_bulk_insufficient_queue_witness :
  link_season_bulk server_clock no_fault dark_id 1%Z 5%Z 7%Z queued_db
  = (queued_db,
     Raise (mkHTTPException 400 "Not enough uploads. Found 3, need 5")).
Proof.
  exact (@link_season_bulk_insufficient_queue server_clock no_fault dark_id
           1%Z 7%Z 5%Z queued_db eq_refl).
Defined.

(** The second of three passes fails: two episodes are linked, the
    second upload stays queued. *)
Lemma link_season_bulk_partial_failure_witness :
  exists db' linked,
    link_season_bulk server_clock second_fails dark_id 1%Z 3%Z 7%Z queued_db
    = (db', Ok (mkBulkResponse dark_id 1%Z 3%Z 2 linked))
    /\ map episode linked = [1%Z; 2%Z; 3%Z]
    /\ map success linked = [true; false; true]
    /\ In (mkStored 2%N (queue_doc upload_b 1010%Z)) (upload_queue db')
    /\ get_episode dark_id 1%Z 2%Z db' = get_episode dark_id 1%Z 2%Z queued_db.
Proof.
  assert (Hguard : (3 <= Z.of_nat (length (limit 3%Z (get_queue 7%Z queued_db))))%Z)
    by (vm_compute; discriminate).
  destruct (@link_season_bulk_partial_failure server_clock second_fails
              dark_id 1%Z 7%Z 3%Z queued_db queued_db_ids_unique Hguard)
    as (db' & linked & Heq & _ & He & Hs & Hall).
  exists db', linked.
  destruct (Hall 1%nat (mkStored 2%N (queue_doc upload_b 1010%Z)) eq_refl)
    as (Hstay & _ & _ & Hsame).
  repeat split.
  - exact Heq.
  - exact He.
  - exact Hs.
  - apply Hstay. reflexivity.
  - apply Hsame. reflexivity.
Defined.

Lemma link_season_bulk_positional_witness :
  exists db' linked,
    link_season_bulk server_clock no_fault dark_id 1%Z 2%Z 7%Z queued_db
    = (db', Ok (mkBulkResponse dark_id 1%Z 2%Z 2 linked))
    /\ (exists i,
          get_episode dark_id 1%Z 2%Z db'
          = Ok (mkStored i
                  (Episode.mk dark_id 1%Z 2%Z "BAACAgQAAx-b" (Some 812%Z)
                     "storage_bot" 7%Z 5001%Z)))
    /\ Z.of_nat (get_queue_count 7%Z db') = 1%Z.
Proof.
  assert (Hok : forall k, (k < Z.to_nat 2)%nat -> no_fault k = NoFault)
    by reflexivity.
  assert (Hlen : (2 <= Z.of_nat (get_queue_count 7%Z queued_db))%Z)
    by (vm_compute; discriminate).
  destruct (@link_season_bulk_positional server_clock no_fault dark_id 1%Z
              7%Z 2%Z queued_db queued_db_ids_unique eq_refl Hlen Hok)
    as (db' & linked & Heq & _ & Hep & _ & _ & Hcount).
  exists db', linked. repeat split.
  - exact Heq.
  - exact (Hep 1%nat (mkStored 2%N (queue_doc upload_b 1010%Z)) eq_refl).
  - exact Hcount.
Defined.

(** C3, as the spec words it, fails: [upload_a] arrived first and
    [upload_b] second, both passes succeed, and episode 1 holds the
    content of [upload_b]. *)
Lemma link_season_bulk_not_arrival_order :
  map (fun d => Upload.file_id (body d))
    (find (by_user 7%Z) (upload_queue late_clock_db))
  = ["BAACAgQAAx-a"; "BAACAgQAAx-b"]
  /\ snd (link_season_bulk server_clock no_fault dark_id 1%Z 2%Z 7%Z
            late_clock_db)
     = Ok (mkBulkResponse dark_id 1%Z 2%Z 2
             [mkDetail 1%Z true None; mkDetail 2%Z true None])
  /\ get_episode dark_id 1%Z 1%Z
       (fst (link_season_bulk server_clock no_fault dark_id 1%Z 2%Z 7%Z
               late_clock_db))
     = Ok (mkStored 3%N
             (Episode.mk dark_id 1%Z 1%Z "BAACAgQAAx-b" (Some 812%Z)
                "storage_bot" 7%Z 5000%Z)).
Proof. repeat split. Qed.

(** With a count of 0 the cursor has no limit: the route links the whole
    queue while answering [total_episodes = 0]. *)
Lemma link_season_bulk_zero_count :
  snd (link_season_bulk server_clock no_fault dark_id 1%Z 0%Z 7%Z queued_db)
  = Ok (mkBulkResponse dark_id 1%Z 0%Z 3
          [mkDetail 1%Z true None; mkDetail 2%Z true None;
           mkDetail 3%Z true None])
  /\ upload_queue
       (fst (link_season_bulk server_clock no_fault dark_id 1%Z 0%Z 7%Z
               queued_db)) = [].
Proof. split; reflexivity. Qed.

(** * The owner of a queue entry *)

Section Owner.
Local Open Scope Z_scope.

Lemma dequeue_all_keeps us q d :
  In d q ->
  (forall u, In u us -> _id u <> _id d) ->
  In d (dequeue_all us q).
Proof.
  unfold dequeue_all. revert q. induction us as [|u us IH]; intros q Hin Hne.
  - exact Hin.
  - simpl. apply IH.
    + apply delete_one_keeps; [|assumption].
      unfold by_id. apply N.eqb_neq. intros E. apply (Hne u); [now left|].
      now symmetry.
    + intros v Hv. apply Hne. now right.
Qed.

Lemma consumed_incl fault i uploads x :
  In x (consumed fault i uploads) -> In x uploads.
Proof.
  intros H. apply consumed_spec in H. destruct H as (j & Hj & _).
  eapply nth_error_In. exact Hj.
Qed.

(** The bulk route for one user leaves a queue entry whose id no entry
    of that user has. *)
Lemma link_season_bulk_keeps utcnow fault media_id season_number
  (episode_count : Z) user_id db d :
  In d (upload_queue db) ->
  (forall u, In u (get_queue user_id db) -> _id u <> _id d) ->
  In d (upload_queue
          (fst (link_season_bulk utcnow fault media_id season_number
                  episode_count user_id db))).
Proof.
  intros Hin Hne. unfold link_season_bulk.
  change (sort by_timestamp (find (by_user user_id) (upload_queue db)))
    with (get_queue user_id db).
  destruct (_ <? episode_count); [exact Hin|].
  pose proof (loop_queue utcnow fault media_id season_number user_id
                (limit episode_count (get_queue user_id db)) 0%nat db) as Hq.
  destruct (link_each _ _ _ _ _ _ _ _) as [db' linked]. simpl in *.
  rewrite Hq. apply dequeue_all_keeps; [assumption|].
  intros u Hu. apply Hne. eapply limit_incl, consumed_incl. exact Hu.
Qed.

Lemma find_snoc user_id (q : collection Upload.t) d :
  find (by_user user_id) (q ++ [d])
  = find (by_user user_id) q ++ (if by_user user_id d then [d] else []).
Proof. unfold find. rewrite filter_app. reflexivity. Qed.

(** C10: the entry of [add_to_queue] belongs to the user of the request
    body.  When the path names another user, the entry is in the body
    user's queue and count, and for the path's user the queue and the
    count are what they were, and clearing the queue, removing a file
    from it and bulk linking all leave the entry where it is. *)
Theorem add_to_queue_owner_is_body_user (user_id : Z)
  (data : UploadCreate.t) (now : datetime) (db : Db) :
  queue_ids_fresh db ->
  UploadCreate.user_id data <> user_id ->
  let db' := fst (add_to_queue user_id data now db) in
  let entry := mkStored (next_id db) (queue_doc data now) in
  In entry (get_queue (UploadCreate.user_id data) db')
  /\ get_queue_count (UploadCreate.user_id data) db'
     = S (get_queue_count (UploadCreate.user_id data) db)
  /\ get_queue user_id db' = get_queue user_id db
  /\ ~ In entry (get_queue user_id db')
  /\ get_queue_count user_id db' = get_queue_count user_id db
  /\ In entry (upload_queue (fst (clear_queue user_id db')))
  /\ (forall file_id,
        In entry (upload_queue (fst (remove_from_queue user_id file_id db'))))
  /\ (forall utcnow fault media_id season_number episode_count,
        ~ In entry (limit episode_count (get_queue user_id db'))
        /\ In entry
             (upload_queue
                (fst (link_season_bulk utcnow fault media_id season_number
                        episode_count user_id db')))).
Proof.
  intros Hfresh Hne db' entry.
  assert (Hq : upload_queue db' = upload_queue db ++ [entry]) by reflexivity.
  assert (Hmine : by_user (UploadCreate.user_id data) entry = true)
    by (unfold by_user; simpl; apply Z.eqb_refl).
  assert (Hnot : by_user user_id entry = false)
    by (unfold by_user; simpl; now apply Z.eqb_neq).
  assert (Hin : In entry (upload_queue db'))
    by (rewrite Hq; apply in_or_app; right; now left).
  assert (Hsame : get_queue user_id db' = get_queue user_id db).
  { unfold get_queue. rewrite Hq, find_snoc, Hnot. now rewrite app_nil_r. }
  assert (Hout : ~ In entry (get_queue user_id db')).
  { rewrite get_queue_In. intros [_ H]. congruence. }
  repeat split.
  - apply get_queue_In. split; assumption.
  - unfold get_queue_count, count_documents.
    fold (find (by_user (UploadCreate.user_id data)) (upload_queue db')).
    rewrite Hq, find_snoc, Hmine, length_app. simpl. unfold find. lia.
  - exact Hsame.
  - exact Hout.
  - rewrite <- !get_queue_length. now rewrite Hsame.
  - unfold clear_queue, delete_many. simpl. apply filter_In.
    split; [exact Hin | now rewrite Hnot].
  - intros file_id. unfold remove_from_queue.
    destruct (delete_one _ _) as [q k] eqn:E. simpl.
    change q with (fst (q, k)). rewrite <- E.
    apply delete_one_keeps; [|exact Hin]. now rewrite Hnot.
  - intros Hpeek. apply Hout. eapply limit_incl. exact Hpeek.
  - apply link_season_bulk_keeps; [exact Hin|].
    intros u Hu. rewrite Hsame in Hu. apply get_queue_In in Hu.
    destruct Hu as [Hu _]. unfold queue_ids_fresh in Hfresh.
    rewrite Forall_forall in Hfresh. specialize (Hfresh u Hu).
    simpl. lia.
Qed.

End Owner.

Lemma add_to_queue_owner_is_body_user_witness :
  let db' := fst (add_to_queue 7%Z upload_of_8 1030%Z queued_db) in
  let entry := mkStored 4%N (queue_doc upload_of_8 1030%Z) in
  In entry (get_queue 8%Z db')
  /\ get_queue 7%Z db' = get_queue 7%Z queued_db
  /\ In entry
       (upload_queue
          (fst (link_season_bulk server_clock no_fault dark_id 1%Z 3%Z 7%Z
                  db'))).
Proof.
  assert (Hfresh : queue_ids_fresh queued_db).
  { unfold queue_ids_fresh. vm_compute. repeat constructor. }
  assert (Hne : UploadCreate.user_id upload_of_8 <> 7%Z) by discriminate.
  destruct (@add_to_queue_owner_is_body_user 7%Z upload_of_8 1030%Z queued_db
              Hfresh Hne)
    as (Hin & _ & Hsame & _ & _ & _ & _ & Hbulk).
  split; [exact Hin|]. split; [exact Hsame|].
  exact (proj2 (Hbulk server_clock no_fault dark_id 1%Z 3%Z)).
Defined.

(** * The invariants hold in every state the routes reach *)

Section Invariants.

Lemma empty_db_wf : queue_wf empty_db /\ films_unique empty_db.
Proof.
  repeat split.
  - constructor.
  - constructor.
  - now apply films_unique_no_films.
Qed.

Lemma add_to_queue_wf user_id data now db :
  queue_wf db -> queue_wf (fst (add_to_queue user_id data now db)).
Proof.
  unfold queue_wf, queue_ids_unique, queue_ids_fresh.
  intros [Hu Hf]. rewrite Forall_forall in Hf. simpl. unfold insert_one.
  split.
  - rewrite map_app. simpl. apply NoDup_app; [assumption | | ].
    + repeat constructor. simpl. tauto.
    + intros i Hi [<-|[]]. apply in_map_iff in Hi.
      destruct Hi as (d & Hd & Hin). specialize (Hf d Hin). lia.
  - apply Forall_forall. intros d Hd. apply in_app_or in Hd.
    destruct Hd as [Hd|[<-|[]]]; [specialize (Hf d Hd)|simpl]; lia.
Qed.

Lemma enqueue_all_wf reqs db : queue_wf db -> queue_wf (enqueue_all reqs db).
Proof.
  unfold enqueue_all. revert db.
  induction reqs as [|r rs IH]; intros db H; cbn [fold_left]; [assumption|].
  apply IH. now apply add_to_queue_wf.
Qed.

Lemma queue_wf_shrink db db' (p : Stored Upload.t -> bool) :
  queue_wf db ->
  upload_queue db' = filter p (upload_queue db) ->
  (next_id db <= next_id db')%N ->
  queue_wf db'.
Proof.
  unfold queue_wf, queue_ids_unique, queue_ids_fresh.
  intros [Hu Hf] Hq Hn. rewrite Hq. split.
  - now apply NoDup_map_filter.
  - rewrite Forall_forall in *. intros d Hd. apply filter_In in Hd.
    specialize (Hf d (proj1 Hd)). lia.
Qed.

Lemma clear_queue_wf user_id db :
  queue_wf db -> queue_wf (fst (clear_queue user_id db)).
Proof.
  intros H. eapply queue_wf_shrink; [exact H| |]; simpl.
  - reflexivity.
  - lia.
Qed.

Lemma upsert_episode_next_id doc db :
  (next_id db <= next_id (upsert_episode doc db))%N.
Proof.
  unfold upsert_episode. destruct (replace_one _ _ _ _) as [es [|]];
    simpl; lia.
Qed.

Lemma loop_next_id utcnow fault media_id season_number uploader_id
  uploads i db :
  (next_id db
   <= next_id (fst (link_each utcnow fault media_id season_number uploader_id
                      i uploads db)))%N.
Proof.
  revert i db. induction uploads as [|u rest IH]; intros i db.
  - simpl. lia.
  - rewrite loop_cons. simpl fst.
    etransitivity; [|apply IH].
    unfold loop_pass, dequeue. destruct (fault i); simpl;
      try apply upsert_episode_next_id; lia.
Qed.

Lemma link_season_bulk_wf utcnow fault media_id season_number
  (episode_count : Z) uploader_id db :
  queue_wf db ->
  queue_wf (fst (link_season_bulk utcnow fault media_id season_number
                   episode_count uploader_id db)).
Proof.
  intros H. unfold link_season_bulk.
  destruct (_ <? episode_count)%Z; [exact H|].
  set (uploads := limit episode_count _).
  pose proof (loop_queue utcnow fault media_id season_number uploader_id
                uploads 0%nat db) as Hq.
  pose proof (loop_next_id utcnow fault media_id season_number uploader_id
                uploads 0%nat db) as Hn.
  destruct (link_each _ _ _ _ _ _ _ _) as [db' linked]. simpl in *.
  eapply queue_wf_shrink; [exact H| |exact Hn].
  rewrite Hq. apply dequeue_all_filter. exact (proj1 H).
Qed.

Lemma link_film_wf data now db :
  queue_wf db -> queue_wf (fst (link_film data now db)).
Proof.
  intros H. unfold link_film.
  destruct (ObjectId _); [|exact H].
  destruct (find_one _ _); [|exact H].
  destruct (negb _); [exact H|].
  destruct (replace_one _ _ _ _) as [fs ins]. simpl.
  apply (@queue_wf_shrink db _ (fun _ => true) H).
  - simpl. symmetry. apply forallb_filter_id. now apply forallb_forall.
  - simpl. destruct ins; lia.
Qed.

End Invariants.

(** * More facts about the document store *)

Section MoreCollectionFacts.
Context {A : Type}.
Implicit Types (c : collection A) (d : Stored A) (p q : Stored A -> bool).

Lemma delete_one_count q c :
  snd (delete_one q c) = if existsb q c then 1%nat else 0%nat.
Proof.
  induction c as [|e c IH]; simpl; [reflexivity|].
  destruct (q e); simpl; [reflexivity|].
  destruct (delete_one q c) as [r k]. simpl in *. exact IH.
Qed.

Lemma delete_one_nothing q c :
  snd (delete_one q c) = 0%nat -> fst (delete_one q c) = c.
Proof.
  induction c as [|e c IH]; simpl; [reflexivity|].
  destruct (q e); simpl; [discriminate|].
  destruct (delete_one q c) as [r k]. simpl in *.
  intros H. now rewrite IH.
Qed.

Lemma existsb_find_one q c :
  existsb q c = match find_one q c with Some _ => true | None => false end.
Proof.
  unfold find_one. induction c as [|e c IH]; simpl; [reflexivity|].
  now destruct (q e).
Qed.

(** Deleting under [q] leaves what an excluding query finds. *)
Lemma delete_one_filter_other p q c :
  (forall d, q d = true -> p d = false) ->
  filter p (fst (delete_one q c)) = filter p c.
Proof.
  intros H. induction c as [|e c IH]; simpl; [reflexivity|].
  destruct (q e) eqn:E; simpl.
  - now rewrite (H _ E).
  - destruct (delete_one q c) as [r k]. simpl in *. now rewrite IH.
Qed.

(** Deleting under [q] takes [deleted_count] documents from what an
    including query finds. *)
Lemma delete_one_filter_len p q c :
  (forall d, q d = true -> p d = true) ->
  length (filter p (fst (delete_one q c)))
  = (length (filter p c) - snd (delete_one q c))%nat.
Proof.
  intros H. induction c as [|e c IH]; simpl; [reflexivity|].
  destruct (q e) eqn:E; simpl.
  - rewrite (H _ E). simpl. lia.
  - destruct (delete_one q c) as [r k] eqn:D. simpl in *.
    destruct (p e); simpl; [|exact IH].
    rewrite IH.
    assert (Hb : (k <= length (filter p c))%nat).
    { pose proof (delete_one_count q c) as Hk. rewrite D in Hk. simpl in Hk.
      destruct (existsb q c) eqn:Ex; [|lia].
      apply existsb_exists in Ex. destruct Ex as (x & Hx & Hq).
      assert (In x (filter p c)) by (apply filter_In; auto).
      destruct (filter p c); [contradiction | simpl; lia]. }
    destruct k; lia.
Qed.

Lemma delete_one_snoc q c d :
  find_one q c = None -> q d = true ->
  delete_one q (c ++ [d]) = (c, 1%nat).
Proof.
  unfold find_one. intros Hc Hd. induction c as [|e c IH]; simpl in *.
  - now rewrite Hd.
  - destruct (q e); [discriminate|]. now rewrite IH.
Qed.

(** Where at most one document matches, none matches after a delete. *)
Lemma delete_one_unique q c :
  (count_documents q c <= 1)%nat ->
  find_one q (fst (delete_one q c)) = None.
Proof.
  unfold count_documents, find_one.
  induction c as [|e c IH]; simpl; [reflexivity|].
  destruct (q e) eqn:E; simpl.
  - intros H. destruct (List.find q c) eqn:F; [|reflexivity].
    apply find_some in F. destruct F as [Hin Hq].
    assert (In s (filter q c)) by (apply filter_In; auto).
    destruct (filter q c); [contradiction | simpl in H; lia].
  - intros H. specialize (IH H).
    destruct (delete_one q c) as [r k]. simpl in *. now rewrite E.
Qed.

Lemma find_one_delete_one_other p q c :
  (forall d, q d = true -> p d = false) ->
  find_one p (fst (delete_one q c)) = find_one p c.
Proof.
  unfold find_one. intros H. induction c as [|e c IH]; simpl; [reflexivity|].
  destruct (q e) eqn:E; simpl.
  - now rewrite (H _ E).
  - destruct (delete_one q c) as [r k]. simpl in *.
    destruct (p e); [reflexivity | exact IH].
Qed.

Lemma insert_sorted_sorted key d c :
  StronglySorted (fun a b => (key a <= key b)%Z) c ->
  StronglySorted (fun a b => (key a <= key b)%Z) (insert_sorted key d c).
Proof.
  induction c as [|e c IH]; simpl; intros Hs.
  - repeat constructor.
  - inversion Hs as [|x l Hs' Hall]; subst.
    destruct (key d <=? key e)%Z eqn:E.
    + apply Z.leb_le in E. constructor; [assumption|].
      constructor; [assumption|].
      eapply Forall_impl; [|exact Hall]. simpl. intros; lia.
    + apply Z.leb_gt in E. constructor; [now apply IH|].
      eapply Permutation_Forall.
      * symmetry. apply insert_sorted_perm.
      * constructor; [lia | assumption].
Qed.

Lemma sort_sorted key c :
  StronglySorted (fun a b => (key a <= key b)%Z) (sort key c).
Proof.
  induction c as [|e c IH]; simpl; [constructor|].
  now apply insert_sorted_sorted.
Qed.

Lemma find_one_app q c c' :
  find_one q (c ++ c')
  = match find_one q c with Some d => Some d | None => find_one q c' end.
Proof.
  unfold find_one. induction c as [|e c IH]; simpl; [reflexivity|].
  now destruct (q e).
Qed.

End MoreCollectionFacts.

(** * The queue routes *)

Section QueueRoutes.
Local Open Scope Z_scope.

Lemma by_user_other u v (d : Stored Upload.t) :
  v <> u -> by_user u d = true -> by_user v d = false.
Proof.
  unfold by_user. intros Hne Hu. apply Z.eqb_eq in Hu.
  apply Z.eqb_neq. congruence.
Qed.

(** X1: [get_queue] returns the user's queued documents, all of them and no
    other, in ascending order of timestamp, and [get_queue_count] is its
    length. *)
Theorem get_queue_sorted_listing (user_id : Z) (db : Db) :
  Permutation (get_queue user_id db)
    (filter (by_user user_id) (upload_queue db))
  /\ StronglySorted
       (fun a b => Upload.timestamp (body a) <= Upload.timestamp (body b))
       (get_queue user_id db)
  /\ get_queue_count user_id db = length (get_queue user_id db).
Proof.
  unfold get_queue, get_queue_count, count_documents, find.
  split; [apply sort_perm | split].
  - apply (sort_sorted by_timestamp).
  - symmetry. apply sort_length.
Qed.

(** X2: [clear_queue] answers the number of entries the user had, leaves the
    user with an empty queue, and touches neither the queue of any other
    user nor any other collection. *)
Theorem clear_queue_removes_own (user_id : Z) (db : Db) :
  snd (clear_queue user_id db) = get_queue_count user_id db
  /\ get_queue user_id (fst (clear_queue user_id db)) = []
  /\ get_queue_count user_id (fst (clear_queue user_id db)) = 0%nat
  /\ (forall v, v <> user_id ->
        get_queue v (fst (clear_queue user_id db)) = get_queue v db)
  /\ media (fst (clear_queue user_id db)) = media db
  /\ films (fst (clear_queue user_id db)) = films db
  /\ episodes (fst (clear_queue user_id db)) = episodes db.
Proof.
  unfold clear_queue, delete_many. simpl.
  assert (Hnone : filter (by_user user_id)
                    (filter (fun d => negb (by_user user_id d))
                       (upload_queue db)) = []).
  { rewrite filter_twice.
    induction (upload_queue db) as [|e c IH]; simpl; [reflexivity|].
    destruct (by_user user_id e); simpl; exact IH. }
  repeat split.
  - unfold get_queue, find. simpl. now rewrite Hnone.
  - unfold get_queue_count, count_documents. simpl. now rewrite Hnone.
  - intros v Hv. unfold get_queue, find. simpl. f_equal.
    rewrite filter_twice. apply filter_ext. intros d.
    destruct (by_user user_id d) eqn:E; simpl; [|reflexivity].
    symmetry. now apply (by_user_other (u := user_id)).
Qed.

(** The query of [remove_from_queue]. *)
Lemma remove_query_user user_id file_id (d : Stored Upload.t) :
  by_user user_id d && String.eqb (Upload.file_id (body d)) file_id = true ->
  by_user user_id d = true.
Proof. intros H. now apply andb_true_iff in H. Qed.

(** X3: [remove_from_queue] removes one entry of the path's user with the
    given file id when there is one, and only one when there are several;
    it answers whether it did, and leaves every other user's queue. *)
Theorem remove_from_queue_removes_one (user_id : Z) (file_id : string)
  (db : Db) :
  let query :=
    fun d : Stored Upload.t =>
      by_user user_id d && String.eqb (Upload.file_id (body d)) file_id in
  let db' := fst (remove_from_queue user_id file_id db) in
  let deleted := snd (remove_from_queue user_id file_id db) in
  deleted = existsb query (upload_queue db)
  /\ count_documents query (upload_queue db')
     = (count_documents query (upload_queue db) - 1)%nat
  /\ get_queue_count user_id db'
     = (get_queue_count user_id db - (if deleted then 1 else 0))%nat
  /\ (deleted = false -> upload_queue db' = upload_queue db)
  /\ (forall v, v <> user_id -> get_queue v db' = get_queue v db).
Proof.
  intros query db' deleted. unfold db', deleted, remove_from_queue.
  fold query.
  pose proof (delete_one_count query (upload_queue db)) as Hc.
  pose proof (delete_one_filter_len query query (upload_queue db)
                (fun d H => H)) as Hq.
  pose proof (delete_one_filter_len (by_user user_id) query (upload_queue db)
                (remove_query_user user_id file_id)) as Hu.
  pose proof (delete_one_nothing query (upload_queue db)) as Hn.
  pose proof (fun v (Hv : v <> user_id) =>
                delete_one_filter_other (by_user v) query (upload_queue db)
                  (fun d H => by_user_other (u := user_id) d Hv
                                (remove_query_user user_id file_id d H)))
    as Ho.
  destruct (delete_one query (upload_queue db)) as [q k]. simpl in *.
  unfold get_queue_count, count_documents, get_queue, find. simpl.
  repeat split.
  - rewrite Hc. now destruct (existsb query (upload_queue db)).
  - rewrite Hq, Hc.
    destruct (existsb query (upload_queue db)) eqn:E; [reflexivity|].
    assert (filter query (upload_queue db) = []) as ->; [|reflexivity].
    destruct (filter query (upload_queue db)) as [|x l] eqn:F; [reflexivity|].
    assert (Hx : In x (filter query (upload_queue db)))
      by (rewrite F; now left).
    apply filter_In in Hx.
    assert (existsb query (upload_queue db) = true)
      by (apply existsb_exists; now exists x).
    congruence.
  - rewrite Hu, Hc. now destruct (existsb query (upload_queue db)).
  - rewrite Hc. destruct (existsb query (upload_queue db)); [discriminate|].
    intros _. now apply Hn.
  - intros v Hv. now rewrite (Ho v Hv).
Qed.

(** X4: Enqueueing an upload and then removing it by its file id gives the
    queue back, when the user had no entry with that file id. *)
Theorem add_then_remove_restores_queue (user_id : Z) (data : UploadCreate.t)
  (now : datetime) (db : Db) :
  (forall d, In d (upload_queue db) ->
             Upload.user_id (body d) = UploadCreate.user_id data ->
             Upload.file_id (body d) <> UploadCreate.file_id data) ->
  remove_from_queue (UploadCreate.user_id data) (UploadCreate.file_id data)
    (fst (add_to_queue user_id data now db))
  = (mkDb (media db) (films db) (episodes db) (upload_queue db)
       (N.succ (next_id db)), true).
Proof.
  intros Hfree. unfold remove_from_queue, add_to_queue. simpl.
  unfold insert_one. rewrite delete_one_snoc; [reflexivity| |].
  - destruct (find_one _ (upload_queue db)) eqn:F; [|reflexivity].
    unfold find_one in F. apply find_some in F. destruct F as [Hin Hq].
    apply andb_true_iff in Hq. destruct Hq as [Hu Hf].
    unfold by_user in Hu. apply Z.eqb_eq in Hu. apply String.eqb_eq in Hf.
    exfalso. now apply (Hfree s Hin Hu).
  - unfold by_user, queue_doc. simpl.
    now rewrite Z.eqb_refl, String.eqb_refl.
Qed.

(** X5: The id [add_to_queue] answers is the id of the new entry and of no
    entry queued before; every user but the one of the body keeps the
    queue they had. *)
Theorem add_to_queue_fresh_entry (user_id : Z) (data : UploadCreate.t)
  (now : datetime) (db : Db) :
  queue_ids_fresh db ->
  let db' := fst (add_to_queue user_id data now db) in
  let inserted_id := snd (snd (add_to_queue user_id data now db)) in
  find_one (by_id inserted_id) (upload_queue db) = None
  /\ find_one (by_id inserted_id) (upload_queue db')
     = Some (mkStored inserted_id (queue_doc data now))
  /\ (forall v, v <> UploadCreate.user_id data ->
        get_queue v db' = get_queue v db).
Proof.
  intros Hfresh db' inserted_id. unfold db', inserted_id. simpl.
  unfold queue_ids_fresh in Hfresh. rewrite Forall_forall in Hfresh.
  assert (Hnone : find_one (by_id (next_id db)) (upload_queue db) = None).
  { apply find_one_by_id_absent. intros Hin. apply in_map_iff in Hin.
    destruct Hin as (d & Hd & Hin). specialize (Hfresh d Hin). lia. }
  repeat split.
  - exact Hnone.
  - unfold insert_one. rewrite find_one_app, Hnone. unfold find_one. simpl.
    unfold by_id. simpl. now rewrite N.eqb_refl.
  - intros v Hv. unfold get_queue. simpl. unfold insert_one.
    rewrite find_snoc.
    assert (by_user v (mkStored (next_id db) (queue_doc data now)) = false)
      as ->.
    { unfold by_user. simpl. apply Z.eqb_neq. congruence. }
    now rewrite app_nil_r.
Qed.

End QueueRoutes.

(** * The last upload of a user *)

Section LastUpload.
Local Open Scope Z_scope.
Import UploadSlot.

Lemma by_user_doc (data : UploadCreate.t) (now : datetime) (i : oid) :
  by_user (UploadCreate.user_id data) (mkStored i (queue_doc data now)) = true.
Proof. unfold by_user. simpl. apply Z.eqb_refl. Qed.

Lemma save_upload_uploads data now st :
  uploads (fst (save_upload data now st))
  = fst (replace_one (by_user (UploadCreate.user_id data))
           (queue_doc data now) (next_id (core st)) (uploads st)).
Proof.
  unfold save_upload. destruct (replace_one _ _ _ _). reflexivity.
Qed.

Lemma save_upload_core data now st :
  media (core (fst (save_upload data now st))) = media (core st)
  /\ films (core (fst (save_upload data now st))) = films (core st)
  /\ episodes (core (fst (save_upload data now st))) = episodes (core st)
  /\ upload_queue (core (fst (save_upload data now st)))
     = upload_queue (core st).
Proof.
  unfold save_upload. destruct (replace_one _ _ _ _). simpl. tauto.
Qed.

Lemma save_upload_own (data : UploadCreate.t) (now : datetime) (st : Store) :
  exists i,
    get_upload (UploadCreate.user_id data) (fst (save_upload data now st))
    = Ok (mkStored i (queue_doc data now)).
Proof.
  unfold get_upload. rewrite save_upload_uploads.
  destruct (find_one_replace_one (by_user (UploadCreate.user_id data))
              (queue_doc data now) (next_id (core st)) (uploads st)
              (by_user_doc data now)) as [i Hi].
  exists i. now rewrite Hi.
Qed.

Lemma save_upload_others (data : UploadCreate.t) (now : datetime)
  (st : Store) (v : Z) :
  v <> UploadCreate.user_id data ->
  get_upload v (fst (save_upload data now st)) = get_upload v st.
Proof.
  intros Hv. unfold get_upload. rewrite save_upload_uploads.
  rewrite find_one_replace_one_other; [reflexivity| |].
  - intros d. now apply by_user_other.
  - intros i. unfold by_user. simpl. apply Z.eqb_neq. congruence.
Qed.

(** X6: [save_upload] then [get_upload] reads the saved upload back,
    whatever was saved for the user before; the last upload of every
    other user and the queue stay as they were. *)
Theorem save_upload_read_back (data : UploadCreate.t) (now : datetime)
  (st : Store) :
  (exists i,
     get_upload (UploadCreate.user_id data) (fst (save_upload data now st))
     = Ok (mkStored i (queue_doc data now)))
  /\ (forall v, v <> UploadCreate.user_id data ->
        get_upload v (fst (save_upload data now st)) = get_upload v st)
  /\ upload_queue (core (fst (save_upload data now st)))
     = upload_queue (core st).
Proof.
  split; [apply save_upload_own|]. split.
  - intros v Hv. now apply save_upload_others.
  - apply save_upload_core.
Qed.

(** X7: [save_upload] keeps one last upload per user: where no user had
    more than one, none has afterwards, and the saving user has exactly
    one. *)
Theorem save_upload_keeps_one (data : UploadCreate.t) (now : datetime)
  (st : Store) :
  slot_unique st ->
  slot_unique (fst (save_upload data now st))
  /\ count_documents (by_user (UploadCreate.user_id data))
       (uploads (fst (save_upload data now st))) = 1%nat.
Proof.
  intros Hu.
  assert (Hone : count_documents (by_user (UploadCreate.user_id data))
                   (uploads (fst (save_upload data now st))) = 1%nat).
  { rewrite save_upload_uploads, count_replace_one by apply by_user_doc.
    specialize (Hu (UploadCreate.user_id data)). lia. }
  split; [|exact Hone].
  intros v. destruct (Z.eq_dec v (UploadCreate.user_id data)) as [->|Hv].
  - rewrite Hone. lia.
  - rewrite save_upload_uploads, count_replace_one_other; [apply Hu| |].
    + intros d. now apply by_user_other.
    + intros i. unfold by_user. simpl. apply Z.eqb_neq. congruence.
Qed.

(** X8: [clear_upload] answers whether the user had a last upload; with one
    last upload per user, [get_upload] then answers "No upload found";
    every other user's last upload stays. *)
Theorem clear_upload_forgets (user_id : Z) (st : Store) :
  snd (clear_upload user_id st)
  = match get_upload user_id st with Ok _ => true | Raise _ => false end
  /\ (slot_unique st ->
      get_upload user_id (fst (clear_upload user_id st))
      = Raise (mkHTTPException 404 "No upload found"))
  /\ (forall v, v <> user_id ->
        get_upload v (fst (clear_upload user_id st)) = get_upload v st)
  /\ core (fst (clear_upload user_id st)) = core st.
Proof.
  unfold clear_upload, get_upload.
  pose proof (delete_one_count (by_user user_id) (uploads st)) as Hc.
  pose proof (delete_one_unique (by_user user_id) (uploads st)) as Hu.
  pose proof (fun v (Hv : v <> user_id) =>
                find_one_delete_one_other (by_user v) (by_user user_id)
                  (uploads st)
                  (fun d H => by_user_other (u := user_id) d Hv H)) as Ho.
  destruct (delete_one (by_user user_id) (uploads st)) as [us k].
  simpl in *. repeat split.
  - rewrite Hc, existsb_find_one.
    now destruct (find_one (by_user user_id) (uploads st)).
  - intros Hs. now rewrite (Hu (Hs user_id)).
  - intros v Hv. now rewrite (Ho v Hv).
Qed.

(** X9: The storage bot's [save_to_backend] makes the upload the user's last
    upload and one more entry of the same user's queue, both under the
    bot's name; no other user's last upload or queue changes. *)
Theorem save_to_backend_stores_both (user_id : Z) (file_id : string)
  (message_id : Z) (t1 t2 : datetime) (st : Store) :
  let st' := StorageBot.save_to_backend user_id file_id message_id t1 t2 st in
  (exists i,
     get_upload user_id st'
     = Ok (mkStored i
             (Upload.mk user_id file_id "storage_bot" (Some message_id) t1)))
  /\ (exists i,
        In (mkStored i
              (Upload.mk user_id file_id "storage_bot" (Some message_id) t2))
          (get_queue user_id (core st')))
  /\ get_queue_count user_id (core st')
     = S (get_queue_count user_id (core st))
  /\ (forall v, v <> user_id ->
        get_upload v st' = get_upload v st
        /\ get_queue v (core st') = get_queue v (core st)).
Proof.
  intros st'. unfold st', StorageBot.save_to_backend, StorageBot.BOT_NAME.
  set (data := UploadCreate.mk user_id file_id "storage_bot" (Some message_id)).
  destruct (save_upload_own data t1 st) as (i & Hi).
  pose proof (fun v => @save_upload_others data t1 st v) as Hother.
  pose proof (proj2 (proj2 (proj2 (save_upload_core data t1 st)))) as Hq.
  set (st1 := fst (save_upload data t1 st)) in *.
  assert (Hqueue : upload_queue (fst (add_to_queue user_id data t2 (core st1)))
                   = upload_queue (core st)
                     ++ [mkStored (next_id (core st1)) (queue_doc data t2)]).
  { simpl. unfold insert_one. now rewrite Hq. }
  split; [|split; [|split]].
  - exists i. exact Hi.
  - exists (next_id (core st1)). apply get_queue_In. split.
    + simpl upload_queue in *. rewrite Hqueue. apply in_or_app. right.
      now left.
    + unfold by_user. simpl. apply Z.eqb_refl.
  - unfold get_queue_count, count_documents. simpl upload_queue in *.
    rewrite Hqueue.
    fold (find (by_user user_id)
            (upload_queue (core st)
             ++ [mkStored (next_id (core st1)) (queue_doc data t2)])).
    rewrite find_snoc. unfold by_user at 2. simpl.
    rewrite Z.eqb_refl, length_app. simpl. unfold find. lia.
  - intros v Hv. split.
    + apply (Hother v Hv).
    + unfold get_queue. simpl upload_queue in *. rewrite Hqueue, find_snoc.
      unfold by_user at 2. simpl.
      assert ((user_id =? v) = false) as -> by (apply Z.eqb_neq; congruence).
      now rewrite app_nil_r.
Qed.

End LastUpload.

(** * The other media routes *)

Section MediaCatalog.
Local Open Scope Z_scope.
Import Catalog.

Lemma episode_key_self (doc : Episode.t) (i : oid) :
  episode_key (Episode.media_id doc) (Episode.season_number doc)
    (Episode.episode_number doc) (mkStored i doc) = true.
Proof.
  unfold episode_key. simpl. now rewrite String.eqb_refl, !Z.eqb_refl.
Qed.

Lemma episode_key_true m s e (d : Stored Episode.t) :
  episode_key m s e d = true
  <-> Episode.media_id (body d) = m
      /\ Episode.season_number (body d) = s
      /\ Episode.episode_number (body d) = e.
Proof.
  unfold episode_key.
  rewrite !andb_true_iff, String.eqb_eq, !Z.eqb_eq. tauto.
Qed.

Lemma episode_key_exclusive m s e m' s' e' (d : Stored Episode.t) :
  (m, s, e) <> (m', s', e') ->
  episode_key m s e d = true -> episode_key m' s' e' d = false.
Proof.
  intros Hne H. apply episode_key_true in H. destruct H as (<- & <- & <-).
  destruct (episode_key _ s' e' d) eqn:E; [|reflexivity].
  apply episode_key_true in E. destruct E as (<- & <- & <-).
  now contradiction Hne.
Qed.

Lemma find_one_filter_out {A : Type} (p q : Stored A -> bool)
  (c : collection A) :
  (forall d, q d = true -> p d = true) ->
  find_one q (filter (fun d => negb (p d)) c) = None.
Proof.
  intros H. unfold find_one.
  induction c as [|x c IH]; simpl; [reflexivity|].
  destruct (p x) eqn:P; simpl; [exact IH|].
  destruct (q x) eqn:Q; [|exact IH].
  rewrite (H _ Q) in P. discriminate.
Qed.

Lemma find_one_filter_keep {A : Type} (p q : Stored A -> bool)
  (c : collection A) :
  (forall d, q d = true -> p d = false) ->
  find_one q (filter (fun d => negb (p d)) c) = find_one q c.
Proof.
  intros H. unfold find_one.
  induction c as [|x c IH]; simpl; [reflexivity|].
  destruct (p x) eqn:P; simpl.
  - destruct (q x) eqn:Q; [|exact IH].
    rewrite (H _ Q) in P. discriminate.
  - destruct (q x); [reflexivity | exact IH].
Qed.

Lemma link_episode_ok_inv data now db db' r :
  link_episode data now db = (db', Ok r) ->
  episodes db'
  = fst (replace_one
           (episode_key (EpisodeLink.media_id data)
              (EpisodeLink.season_number data)
              (EpisodeLink.episode_number data))
           (Episode.mk (EpisodeLink.media_id data)
              (EpisodeLink.season_number data)
              (EpisodeLink.episode_number data) (EpisodeLink.file_id data)
              (EpisodeLink.message_id data) (EpisodeLink.storage_bot data)
              (EpisodeLink.uploader_id data) now)
           (next_id db) (episodes db))
  /\ media db' = media db
  /\ films db' = films db
  /\ upload_queue db' = upload_queue db.
Proof.
  unfold link_episode. destruct (ObjectId _); [|discriminate].
  destruct (find_one _ _); [|discriminate].
  destruct (negb _); [discriminate|].
  destruct (replace_one _ _ _ _) as [es ins] eqn:E.
  intros H. inversion H; subst; simpl. repeat split; reflexivity.
Qed.

(** X10: A successful [link_episode] is read back by [get_episode] under its
    key; every other episode key reads as before; films, queue and
    catalogue are untouched; and a key never gets a second document. *)
Theorem link_episode_read_back (data : EpisodeLink.t) (now : datetime)
  (db db' : Db) (r : bool) :
  link_episode data now db = (db', Ok r) ->
  (exists i,
     get_episode (EpisodeLink.media_id data) (EpisodeLink.season_number data)
       (EpisodeLink.episode_number data) db'
     = Ok (mkStored i
             (Episode.mk (EpisodeLink.media_id data)
                (EpisodeLink.season_number data)
                (EpisodeLink.episode_number data) (EpisodeLink.file_id data)
                (EpisodeLink.message_id data) (EpisodeLink.storage_bot data)
                (EpisodeLink.uploader_id data) now)))
  /\ (forall m s e,
        (EpisodeLink.media_id data, EpisodeLink.season_number data,
         EpisodeLink.episode_number data) <> (m, s, e) ->
        get_episode m s e db' = get_episode m s e db)
  /\ media db' = media db /\ films db' = films db
  /\ upload_queue db' = upload_queue db
  /\ (episodes_unique db -> episodes_unique db').
Proof.
  intros H. apply link_episode_ok_inv in H.
  destruct H as (He & Hm & Hf & Hq).
  set (doc := Episode.mk (EpisodeLink.media_id data)
                (EpisodeLink.season_number data)
                (EpisodeLink.episode_number data) (EpisodeLink.file_id data)
                (EpisodeLink.message_id data) (EpisodeLink.storage_bot data)
                (EpisodeLink.uploader_id data) now) in *.
  assert (Hother : forall m s e,
            (EpisodeLink.media_id data, EpisodeLink.season_number data,
             EpisodeLink.episode_number data) <> (m, s, e) ->
            (forall d, episode_key (EpisodeLink.media_id data)
                         (EpisodeLink.season_number data)
                         (EpisodeLink.episode_number data) d = true ->
                       episode_key m s e d = false)
            /\ (forall i, episode_key m s e (mkStored i doc) = false)).
  { intros m s e Hne. split.
    - intros d. now apply episode_key_exclusive.
    - intros i. apply (@episode_key_exclusive _ _ _ m s e (mkStored i doc) Hne).
      apply (episode_key_self doc). }
  repeat split; try assumption.
  - unfold get_episode. rewrite He.
    destruct (find_one_replace_one
                (episode_key (EpisodeLink.media_id data)
                   (EpisodeLink.season_number data)
                   (EpisodeLink.episode_number data))
                doc (next_id db) (episodes db) (episode_key_self doc))
      as [i Hi].
    exists i. now rewrite Hi.
  - intros m s e Hne. unfold get_episode. rewrite He.
    destruct (Hother m s e Hne) as [H1 H2].
    now rewrite find_one_replace_one_other.
  - intros Hu m s e. rewrite He.
    destruct (string_dec (EpisodeLink.media_id data) m) as [Em|Em];
      [destruct (Z.eq_dec (EpisodeLink.season_number data) s) as [Es|Es];
       [destruct (Z.eq_dec (EpisodeLink.episode_number data) e) as [Ee|Ee]|]|].
    + subst m s e.
      rewrite count_replace_one by apply (episode_key_self doc).
      specialize (Hu (EpisodeLink.media_id data)
                    (EpisodeLink.season_number data)
                    (EpisodeLink.episode_number data)). lia.
    + destruct (Hother m s e) as [H1 H2]; [congruence|].
      rewrite count_replace_one_other; auto.
    + destruct (Hother m s e) as [H1 H2]; [congruence|].
      rewrite count_replace_one_other; auto.
    + destruct (Hother m s e) as [H1 H2]; [congruence|].
      rewrite count_replace_one_other; auto.
Qed.

(** X11: [link_film] accepts exactly the ids that [get_media] shows as a film
    and [link_episode] exactly those it shows as a series; a refused link
    leaves the database as it was. *)
Theorem links_accept_what_get_media_shows (db : Db) :
  (forall data now,
     (exists r, snd (link_film data now db) = Ok r)
     <-> (exists m, get_media (FilmLink.film_id data) db = Ok m
                    /\ Media.type (body m) = film))
  /\ (forall data now,
        (exists r, snd (link_episode data now db) = Ok r)
        <-> (exists m, get_media (EpisodeLink.media_id data) db = Ok m
                       /\ Media.type (body m) = series))
  /\ (forall data now e,
        snd (link_film data now db) = Raise e ->
        fst (link_film data now db) = db)
  /\ (forall data now e,
        snd (link_episode data now db) = Raise e ->
        fst (link_episode data now db) = db).
Proof.
  split; [|split; [|split]].
  - intros data now. unfold link_film, get_media.
    destruct (ObjectId _) as [i|].
    + destruct (find_one _ _) as [m|].
      * destruct (Media.type (body m)) eqn:T; simpl.
        -- destruct (replace_one _ _ _ _). simpl. split.
           ++ intros _. now exists m.
           ++ intros _. eexists. reflexivity.
        -- split; [intros [r H]; discriminate|].
           intros (m' & Hm & Ht). inversion Hm; subst. congruence.
      * split; [intros [r H]; discriminate | intros (m & H & _); discriminate].
    + split; [intros [r H]; discriminate | intros (m & H & _); discriminate].
  - intros data now. unfold link_episode, get_media.
    destruct (ObjectId _) as [i|].
    + destruct (find_one _ _) as [m|].
      * destruct (Media.type (body m)) eqn:T; simpl.
        -- split; [intros [r H]; discriminate|].
           intros (m' & Hm & Ht). inversion Hm; subst. congruence.
        -- destruct (replace_one _ _ _ _). simpl. split.
           ++ intros _. now exists m.
           ++ intros _. eexists. reflexivity.
      * split; [intros [r H]; discriminate | intros (m & H & _); discriminate].
    + split; [intros [r H]; discriminate | intros (m & H & _); discriminate].
  - intros data now e. unfold link_film.
    destruct (ObjectId _); [|reflexivity].
    destruct (find_one _ _); [|reflexivity].
    destruct (negb _); [reflexivity|].
    destruct (replace_one _ _ _ _). discriminate.
  - intros data now e. unfold link_episode.
    destruct (ObjectId _); [|reflexivity].
    destruct (find_one _ _); [|reflexivity].
    destruct (negb _); [reflexivity|].
    destruct (replace_one _ _ _ _). discriminate.
Qed.

(** X12: [get_episodes] lists the episodes stored for the title and season,
    all of them and no other, in ascending order of episode number. *)
Theorem get_episodes_sorted_listing (media_id : string) (season : Z)
  (db : Db) :
  Permutation (get_episodes media_id season db)
    (filter (season_key media_id season) (episodes db))
  /\ StronglySorted
       (fun a b =>
          Episode.episode_number (body a) <= Episode.episode_number (body b))
       (get_episodes media_id season db).
Proof.
  unfold get_episodes, find. split; [apply sort_perm|].
  apply (sort_sorted (fun d : Stored Episode.t =>
                        Episode.episode_number (body d))).
Qed.

End MediaCatalog.

Section Seasons.
Local Open Scope Z_scope.
Import Catalog.

Lemma insert_int_perm x l : Permutation (insert_int x l) (x :: l).
Proof.
  induction l as [|y l IH]; simpl; [reflexivity|].
  destruct (x <=? y); [reflexivity|].
  rewrite IH. apply perm_swap.
Qed.

Lemma sorted_perm l : Permutation (sorted l) l.
Proof.
  induction l as [|x l IH]; simpl; [reflexivity|].
  rewrite insert_int_perm. now constructor.
Qed.

Lemma insert_int_sorted x l :
  StronglySorted Z.le l -> StronglySorted Z.le (insert_int x l).
Proof.
  induction l as [|y l IH]; simpl; intros Hs.
  - repeat constructor.
  - inversion Hs as [|a b Hs' Hall]; subst.
    destruct (x <=? y) eqn:E.
    + apply Z.leb_le in E. constructor; [assumption|].
      constructor; [assumption|].
      eapply Forall_impl; [|exact Hall]. simpl. intros; lia.
    + apply Z.leb_gt in E. constructor; [now apply IH|].
      eapply Permutation_Forall.
      * symmetry. apply insert_int_perm.
      * constructor; [lia | assumption].
Qed.

Lemma sorted_sorted l : StronglySorted Z.le (sorted l).
Proof.
  induction l as [|x l IH]; simpl; [constructor|].
  now apply insert_int_sorted.
Qed.

Lemma sorted_distinct_increasing l :
  StronglySorted Z.le l -> NoDup l -> StronglySorted Z.lt l.
Proof.
  induction l as [|x l IH]; intros Hs Hn; [constructor|].
  inversion Hs as [|a b Hs' Hall]; subst.
  inversion Hn as [|a b Hnotin Hn']; subst.
  constructor; [now apply IH|].
  rewrite Forall_forall in *. intros y Hy.
  specialize (Hall y Hy).
  assert (x <> y) by (intros ->; contradiction). lia.
Qed.

(** X13: [get_seasons] lists the season numbers under which the title has an
    episode, each once, in increasing order. *)
Theorem get_seasons_listing (media_id : string) (db : Db) :
  StronglySorted Z.lt (get_seasons media_id db)
  /\ (forall s,
        In s (get_seasons media_id db)
        <-> exists d, In d (episodes db)
                      /\ Episode.media_id (body d) = media_id
                      /\ Episode.season_number (body d) = s).
Proof.
  unfold get_seasons, distinct, find. split.
  - apply sorted_distinct_increasing; [apply sorted_sorted|].
    eapply Permutation_NoDup; [symmetry; apply sorted_perm|].
    apply NoDup_nodup.
  - intros s. split.
    + intros H. apply (Permutation_in _ (sorted_perm _)) in H.
      apply nodup_In in H. apply in_map_iff in H.
      destruct H as (d & Hs & Hd). apply filter_In in Hd.
      destruct Hd as [Hin Hm]. unfold of_media in Hm.
      apply String.eqb_eq in Hm. now exists d.
    + intros (d & Hin & Hm & Hs).
      apply (Permutation_in _ (Permutation_sym (sorted_perm _))).
      apply nodup_In. apply in_map_iff. exists d. split; [assumption|].
      apply filter_In. split; [assumption|].
      unfold of_media. now apply String.eqb_eq.
Qed.

Lemma db_eta (db : Db) :
  mkDb (media db) (films db) (episodes db) (upload_queue db) (next_id db)
  = db.
Proof. now destruct db. Qed.

(** X14: [delete_episode] on a key with no episode answers "Episode not
    found" and changes nothing.  Otherwise it removes one document of
    that key and, the key being unique, [get_episode] no longer finds
    it.  Every other key reads as before, and no other collection
    changes. *)
Theorem delete_episode_removes_key (media_id : string) (season episode : Z)
  (db : Db) :
  let db' := fst (delete_episode media_id season episode db) in
  (forall e, get_episode media_id season episode db = Raise e ->
             delete_episode media_id season episode db
             = (db, Raise (mkHTTPException 404 "Episode not found")))
  /\ (forall d, get_episode media_id season episode db = Ok d ->
                snd (delete_episode media_id season episode db) = Ok true
                /\ length (episodes db') = (length (episodes db) - 1)%nat
                /\ (episodes_unique db ->
                    get_episode media_id season episode db'
                    = Raise (mkHTTPException 404 "Episode not found")))
  /\ (forall m s e, (media_id, season, episode) <> (m, s, e) ->
                    get_episode m s e db' = get_episode m s e db)
  /\ media db' = media db /\ films db' = films db
  /\ upload_queue db' = upload_queue db.
Proof.
  intros db'. unfold db', delete_episode, get_episode.
  set (key := episode_key media_id season episode).
  pose proof (delete_one_count key (episodes db)) as Hc.
  pose proof (delete_one_nothing key (episodes db)) as Hn.
  pose proof (delete_one_unique key (episodes db)) as Hu.
  pose proof (delete_one_filter_len (fun _ => true) key (episodes db)
                (fun _ _ => eq_refl)) as Hl.
  pose proof (fun m s e (Hne : (media_id, season, episode) <> (m, s, e)) =>
                find_one_delete_one_other (episode_key m s e) key
                  (episodes db)
                  (fun d H => @episode_key_exclusive media_id season episode
                                m s e d Hne H)) as Ho.
  rewrite existsb_find_one in Hc.
  destruct (delete_one key (episodes db)) as [es k]. simpl in *.
  split; [|split; [|split; [|split; [|split]]]].
  - intros e He. destruct (find_one key (episodes db)); [discriminate|].
    subst k. simpl. rewrite (Hn eq_refl). now rewrite db_eta.
  - intros d Hd.
    destruct (find_one key (episodes db)); [|discriminate].
    subst k. simpl. split; [reflexivity|]. split.
    + rewrite !forallb_filter_id in Hl by (now apply forallb_forall).
      exact Hl.
    + intros Hq. now rewrite (Hu (Hq _ _ _)).
  - intros m s e Hne. destruct (k =? 0)%nat; simpl; now rewrite (Ho m s e Hne).
  - now destruct (k =? 0)%nat.
  - now destruct (k =? 0)%nat.
  - now destruct (k =? 0)%nat.
Qed.

Lemma delete_media_found media_id i db :
  ObjectId media_id = Some i ->
  find_one (by_id i) (media db) <> None ->
  delete_media media_id db
  = (mkDb (fst (delete_one (by_id i) (media db)))
       (filter (fun d => negb (film_key media_id d)) (films db))
       (filter (fun d => negb (of_media media_id d)) (episodes db))
       (upload_queue db) (next_id db),
     Ok true).
Proof.
  intros Hi Hf. unfold delete_media. rewrite Hi.
  pose proof (delete_one_count (by_id i) (media db)) as Hc.
  rewrite existsb_find_one in Hc.
  destruct (delete_one (by_id i) (media db)) as [ms k]. simpl in *.
  destruct (find_one (by_id i) (media db)); [|congruence].
  subst k. reflexivity.
Qed.

(** X15: [delete_media] refuses a string that is no object id (400) and an id
    with no title (404) and changes nothing then.  For a title it has,
    it removes the title and every film and episode stored under the
    same string: [get_film], [get_episode] and [get_seasons] find
    nothing more under it, and what is stored under other strings, and
    the queue, stay. *)
Theorem delete_media_cascades (media_id : string) (db : Db) :
  let db' := fst (delete_media media_id db) in
  (forall e, get_media media_id db = Raise e ->
             delete_media media_id db = (db, Raise e))
  /\ (forall m, get_media media_id db = Ok m ->
                snd (delete_media media_id db) = Ok true
                /\ get_film media_id db'
                   = Raise (mkHTTPException 404 "Film not linked")
                /\ (forall s e,
                      get_episode media_id s e db'
                      = Raise (mkHTTPException 404 "Episode not found"))
                /\ get_seasons media_id db' = []
                /\ (media_ids_unique db ->
                    get_media media_id db'
                    = Raise (mkHTTPException 404 "Media not found")))
  /\ (forall other, other <> media_id ->
        get_film other db' = get_film other db
        /\ (forall s e, get_episode other s e db' = get_episode other s e db))
  /\ upload_queue db' = upload_queue db.
Proof.
  intros db'. unfold db'. unfold get_media.
  destruct (ObjectId media_id) as [i|] eqn:Hi.
  - destruct (find_one (by_id i) (media db)) as [m|] eqn:Hf.
    + rewrite (@delete_media_found media_id i db Hi)
        by (rewrite Hf; discriminate).
      simpl. split; [intros e H; discriminate|].
      split; [|split; [|reflexivity]].
      * intros m' _. split; [reflexivity|].
        split; [|split; [|split]].
        -- unfold get_film. simpl.
           now rewrite find_one_filter_out.
        -- intros s e. unfold get_episode. simpl.
           rewrite find_one_filter_out; [reflexivity|].
           intros d H. apply episode_key_true in H. unfold of_media.
           apply String.eqb_eq. tauto.
        -- unfold get_seasons, distinct, find. simpl.
           rewrite filter_twice.
           assert (filter (fun x => negb (of_media media_id x)
                                    && of_media media_id x) (episodes db) = [])
             as ->; [|reflexivity].
           induction (episodes db) as [|x l IH]; simpl; [reflexivity|].
           now destruct (of_media media_id x).
        -- intros Hnd. rewrite delete_one_by_id by exact Hnd.
           now rewrite find_one_filter_out.
      * intros other Hne. split.
        -- unfold get_film. simpl. rewrite find_one_filter_keep; [reflexivity|].
           intros d H. unfold film_key in *. apply String.eqb_eq in H.
           apply String.eqb_neq. congruence.
        -- intros s e. unfold get_episode. simpl.
           rewrite find_one_filter_keep; [reflexivity|].
           intros d H. apply episode_key_true in H. unfold of_media.
           apply String.eqb_neq. destruct H as (-> & _). exact Hne.
    + assert (Hd : delete_media media_id db
                   = (db, Raise (mkHTTPException 404 "Media not found"))).
      { unfold delete_media. rewrite Hi.
        pose proof (delete_one_count (by_id i) (media db)) as Hc.
        pose proof (delete_one_nothing (by_id i) (media db)) as Hn.
        rewrite existsb_find_one, Hf in Hc.
        destruct (delete_one (by_id i) (media db)) as [ms k]. simpl in *.
        subst k. simpl. rewrite (Hn eq_refl). now rewrite db_eta. }
      rewrite Hd. simpl. split; [intros e H; now inversion H|].
      split; [intros m H; discriminate|]. split; [|reflexivity].
      intros other _. split; reflexivity.
  - assert (Hd : delete_media media_id db
                 = (db, Raise (mkHTTPException 400 "Invalid media ID"))).
    { unfold delete_media. now rewrite Hi. }
    rewrite Hd. simpl. split; [intros e H; now inversion H|].
    split; [intros m H; discriminate|]. split; [|reflexivity].
    intros other _. split; reflexivity.
Qed.

End Seasons.

(** * What the bulk route leaves alone *)

Section BulkFrame.
Local Open Scope Z_scope.

Variable utcnow : nat -> datetime.
Variable fault : nat -> StoreFault.
Variables (media_id : string) (season_number uploader_id : Z).

Local Abbreviation loop :=
  (link_each utcnow fault media_id season_number uploader_id).
Local Abbreviation pass :=
  (loop_pass utcnow fault media_id season_number uploader_id).

Lemma ids_unique_eq {A : Type} (c : collection A) (x y : Stored A) :
  NoDup (map (@_id A) c) -> In x c -> In y c -> _id x = _id y -> x = y.
Proof.
  induction c as [|e c IH]; simpl; [tauto|].
  intros Hnd Hx Hy Hid. inversion Hnd as [|a l Hnotin Hnd']; subst.
  destruct Hx as [->|Hx], Hy as [->|Hy]; auto.
  - exfalso. apply Hnotin. rewrite Hid. now apply in_map.
  - exfalso. apply Hnotin. rewrite <- Hid. now apply in_map.
Qed.

Lemma loop_find_outside uploads i db m s e :
  (m, s) <> (media_id, season_number)
  \/ e <= Z.of_nat i \/ Z.of_nat i + Z.of_nat (length uploads) < e ->
  find_one (episode_key m s e) (episodes (fst (loop i uploads db)))
  = find_one (episode_key m s e) (episodes db).
Proof.
  revert i db. induction uploads as [|u rest IH]; intros i db H.
  - reflexivity.
  - rewrite loop_cons. simpl fst. rewrite IH.
    + rewrite pass_episodes. destruct (pass_writes (fault i)); [|reflexivity].
      assert (Hne : (media_id, season_number, Z.of_nat i + 1) <> (m, s, e)).
      { intros E. inversion E; subst. simpl in H.
        destruct H as [H|[H|H]]; [now apply H | lia | lia]. }
      apply find_one_replace_one_other.
      * intros d. now apply episode_key_exclusive.
      * intros j.
        apply (@episode_key_exclusive media_id season_number
                 (Z.of_nat i + 1) m s e _ Hne).
        apply (episode_key_self
                 (episode_doc media_id season_number (Z.of_nat i + 1) u
                    uploader_id (utcnow i))).
    + simpl in H. destruct H as [H|[H|H]]; [now left | right; left; lia
                                           | right; right; lia].
Qed.

(** X16: [link_season_bulk] writes to the queue and to the episodes of its
    own title and season only: the catalogue and the films are what they
    were, every episode of another title or season, or numbered outside
    1 to the number of uploads read, reads as before, and with distinct
    ids in the queue every other user's queue is what it was. *)
Theorem link_season_bulk_frame (episode_count : Z) (db : Db) :
  let db' :=
    fst (link_season_bulk utcnow fault media_id season_number episode_count
           uploader_id db) in
  media db' = media db
  /\ films db' = films db
  /\ (forall m s e,
        (m, s) <> (media_id, season_number) \/ e <= 0
        \/ Z.of_nat (length (limit episode_count (get_queue uploader_id db)))
           < e ->
        get_episode m s e db' = get_episode m s e db)
  /\ (queue_ids_unique db ->
      forall v, v <> uploader_id -> get_queue v db' = get_queue v db).
Proof.
  intros db'. unfold db', link_season_bulk.
  change (sort by_timestamp (find (by_user uploader_id) (upload_queue db)))
    with (get_queue uploader_id db).
  set (uploads := limit episode_count (get_queue uploader_id db)).
  destruct (_ <? episode_count).
  - simpl. repeat split; reflexivity.
  - pose proof (loop_frame utcnow fault media_id season_number uploader_id
                  uploads 0%nat db) as [Hm Hf].
    pose proof (loop_queue utcnow fault media_id season_number uploader_id
                  uploads 0%nat db) as Hq.
    pose proof (fun m s e => @loop_find_outside uploads 0%nat db m s e) as He.
    destruct (link_each _ _ _ _ _ _ _ _) as [d linked]. simpl in *.
    split; [exact Hm|]. split; [exact Hf|]. split.
    + intros m s e H. unfold get_episode. rewrite He; [reflexivity|].
      destruct H as [H|[H|H]]; [now left | right; left; lia
                                | right; right; lia].
    + intros Hu v Hv. unfold get_queue, find. f_equal. rewrite Hq.
      rewrite dequeue_all_filter by exact Hu.
      rewrite filter_twice. apply filter_ext_in. intros x Hx.
      destruct (by_user v x) eqn:Bv; [|apply andb_false_r].
      rewrite andb_true_r. apply negb_true_iff.
      destruct (id_in (consumed fault 0 uploads) x) eqn:E; [|reflexivity].
      apply id_in_true in E. destruct E as (y & Hy & Hid).
      apply consumed_incl in Hy. unfold uploads in Hy.
      apply limit_incl in Hy. apply get_queue_In in Hy.
      destruct Hy as [Hy Bu].
      assert (y = x) by (now apply (ids_unique_eq (upload_queue db))).
      subst y. rewrite (by_user_other x Hv Bu) in Bv. discriminate.
Qed.

(** X17: A count of 0 or less is never refused.  With 0 the cursor has no
    limit: every queued upload of the user gets a pass, and when no pass
    fails the user's queue ends empty while the response says
    [total_episodes = 0].  With a negative count at most its absolute
    value are read. *)
Theorem link_season_bulk_count_not_positive (episode_count : Z) (db : Db) :
  episode_count <= 0 ->
  exists db' linked,
    link_season_bulk utcnow fault media_id season_number episode_count
      uploader_id db
    = (db',
       Ok (mkBulkResponse media_id season_number episode_count
             (length (filter success linked)) linked))
    /\ length linked
       = (if episode_count =? 0 then get_queue_count uploader_id db
          else Nat.min (Z.abs_nat episode_count)
                 (get_queue_count uploader_id db))
    /\ (episode_count = 0 -> queue_ids_unique db ->
        (forall k, (k < get_queue_count uploader_id db)%nat ->
                   fault k = NoFault) ->
        get_queue uploader_id db' = []
        /\ length (filter success linked) = get_queue_count uploader_id db).
Proof.
  intros Hn.
  set (uploads := limit episode_count (get_queue uploader_id db)).
  exists (fst (loop 0%nat uploads db)), (snd (loop 0%nat uploads db)).
  assert (Hlen : length uploads
                 = if episode_count =? 0 then get_queue_count uploader_id db
                   else Nat.min (Z.abs_nat episode_count)
                          (get_queue_count uploader_id db)).
  { unfold uploads, limit. destruct (episode_count =? 0).
    - apply get_queue_length.
    - now rewrite length_firstn, get_queue_length. }
  split; [|split].
  - apply link_season_bulk_past_guard. fold uploads. lia.
  - rewrite loop_details, length_map, length_seq. exact Hlen.
  - intros -> Hu Hok. simpl in Hlen.
    assert (Hup : uploads = get_queue uploader_id db) by reflexivity.
    split.
    + unfold get_queue at 1, find. rewrite loop_queue.
      rewrite dequeue_all_filter by exact Hu.
      rewrite consumed_all by (intros k Hk; apply Hok; lia).
      rewrite filter_twice.
      assert (filter (fun x => negb (id_in uploads x) && by_user uploader_id x)
                (upload_queue db) = []) as ->; [|reflexivity].
      assert (G : forall l, incl l (upload_queue db) ->
                filter (fun x => negb (id_in uploads x)
                                 && by_user uploader_id x) l = []).
      { induction l as [|x l IH]; intros Hincl; simpl; [reflexivity|].
        destruct (by_user uploader_id x) eqn:B.
        - rewrite id_in_self.
          + simpl. apply IH. intros y Hy. apply Hincl. now right.
          + rewrite Hup. apply get_queue_In. split; [|exact B].
            apply Hincl. now left.
        - rewrite andb_false_r. apply IH. intros y Hy. apply Hincl.
          now right. }
      apply G, incl_refl.
    + rewrite loop_details, pass_detail_count, Hlen.
      transitivity (length (seq 0 (get_queue_count uploader_id db)));
        [|apply length_seq].
      f_equal. apply forallb_filter_id, forallb_forall.
      intros k Hk. apply in_seq in Hk. now rewrite Hok by lia.
Qed.

End BulkFrame.

(** * The invariants over runs of requests *)

Section Reachable.

Lemma count_filter_le {A : Type} (p q : Stored A -> bool) (c : collection A) :
  (count_documents q (filter p c) <= count_documents q c)%nat.
Proof.
  unfold count_documents. induction c as [|x c IH]; simpl; [lia|].
  destruct (p x); simpl; destruct (q x); simpl; lia.
Qed.

Lemma count_delete_one_le {A : Type} (p q : Stored A -> bool)
  (c : collection A) :
  (count_documents q (fst (delete_one p c)) <= count_documents q c)%nat.
Proof.
  unfold count_documents. induction c as [|x c IH]; simpl; [lia|].
  destruct (p x); simpl.
  - destruct (q x); simpl; lia.
  - destruct (delete_one p c) as [r k]. simpl in *.
    destruct (q x); simpl; lia.
Qed.

Lemma delete_one_NoDup {A : Type} (p : Stored A -> bool) (c : collection A) :
  NoDup (map (@_id A) c) -> NoDup (map (@_id A) (fst (delete_one p c))).
Proof.
  induction c as [|x c IH]; simpl; [trivial|].
  intros H. inversion H as [|a l Hnotin Hnd]; subst.
  destruct (p x); simpl; [assumption|].
  pose proof (@delete_one_subset A p c) as Hsub.
  destruct (delete_one p c) as [r k]. simpl in *.
  constructor; [|now apply IH].
  intros Hin. apply Hnotin. apply in_map_iff in Hin.
  destruct Hin as (d & Hd & Hin). apply in_map_iff. exists d.
  split; [assumption | now apply Hsub].
Qed.

Lemma queue_wf_sub db db' :
  queue_wf db ->
  NoDup (map (@_id Upload.t) (upload_queue db')) ->
  incl (upload_queue db') (upload_queue db) ->
  (next_id db <= next_id db')%N ->
  queue_wf db'.
Proof.
  unfold queue_wf, queue_ids_unique, queue_ids_fresh.
  intros [Hu Hf] Hnd Hincl Hn. split; [assumption|].
  rewrite Forall_forall in *. intros d Hd.
  specialize (Hf d (Hincl d Hd)). lia.
Qed.

Lemma link_season_bulk_films utcnow fault media_id season_number
  (episode_count : Z) uploader_id db :
  films (fst (link_season_bulk utcnow fault media_id season_number
                episode_count uploader_id db)) = films db.
Proof.
  unfold link_season_bulk. destruct (_ <? episode_count)%Z; [reflexivity|].
  pose proof (loop_frame utcnow fault media_id season_number uploader_id
                (limit episode_count
                   (sort by_timestamp
                      (find (by_user uploader_id) (upload_queue db))))
                0%nat db) as [_ Hf].
  destruct (link_each _ _ _ _ _ _ _ _). exact Hf.
Qed.

Lemma upsert_keeps_unique (doc : Episode.t) fresh
  (c : collection Episode.t) :
  (forall m s e, (count_documents (episode_key m s e) c <= 1)%nat) ->
  forall m s e,
    (count_documents (episode_key m s e)
       (fst (replace_one
               (episode_key (Episode.media_id doc) (Episode.season_number doc)
                  (Episode.episode_number doc)) doc fresh c)) <= 1)%nat.
Proof.
  intros Hu m s e.
  destruct (string_dec (Episode.media_id doc) m) as [Em|Em];
    [destruct (Z.eq_dec (Episode.season_number doc) s) as [Es|Es];
     [destruct (Z.eq_dec (Episode.episode_number doc) e) as [Ee|Ee]|]|].
  - subst m s e. rewrite count_replace_one by apply (episode_key_self doc).
    specialize (Hu (Episode.media_id doc) (Episode.season_number doc)
                  (Episode.episode_number doc)). lia.
  - rewrite count_replace_one_other; [apply Hu| |].
    + intros d. apply episode_key_exclusive. congruence.
    + intros i. apply (@episode_key_exclusive (Episode.media_id doc)
                         (Episode.season_number doc)
                         (Episode.episode_number doc) m s e); [congruence|].
      apply episode_key_self.
  - rewrite count_replace_one_other; [apply Hu| |].
    + intros d. apply episode_key_exclusive. congruence.
    + intros i. apply (@episode_key_exclusive (Episode.media_id doc)
                         (Episode.season_number doc)
                         (Episode.episode_number doc) m s e); [congruence|].
      apply episode_key_self.
  - rewrite count_replace_one_other; [apply Hu| |].
    + intros d. apply episode_key_exclusive. congruence.
    + intros i. apply (@episode_key_exclusive (Episode.media_id doc)
                         (Episode.season_number doc)
                         (Episode.episode_number doc) m s e); [congruence|].
      apply episode_key_self.
Qed.

Lemma loop_episodes_unique utcnow fault media_id season_number uploader_id
  uploads i db :
  episodes_unique db ->
  episodes_unique
    (fst (link_each utcnow fault media_id season_number uploader_id
            i uploads db)).
Proof.
  revert i db. induction uploads as [|u rest IH]; intros i db H.
  - exact H.
  - rewrite loop_cons. simpl fst. apply IH.
    unfold episodes_unique. rewrite pass_episodes.
    destruct (pass_writes (fault i)); [|exact H].
    apply (upsert_keeps_unique
             (episode_doc media_id season_number (Z.of_nat i + 1)%Z u
                uploader_id (utcnow i)) (next_id db) (episodes db)).
    exact H.
Qed.

Lemma serve_queue_wf r db : queue_wf db -> queue_wf (serve r db).
Proof.
  intros H.
  destruct r as [user_id data now|user_id|user_id file_id|data now|data now
               |utcnow fault mid season_number episode_count uploader_id
               |mid season episode|mid|data]; cbn [serve].
  - now apply add_to_queue_wf.
  - now apply clear_queue_wf.
  - unfold remove_from_queue.
    pose proof (@delete_one_subset Upload.t
                  (fun d => by_user user_id d
                            && String.eqb (Upload.file_id (body d)) file_id)
                  (upload_queue db)) as Hsub.
    pose proof (@delete_one_NoDup Upload.t
                  (fun d => by_user user_id d
                            && String.eqb (Upload.file_id (body d)) file_id)
                  (upload_queue db) (proj1 H)) as Hnd.
    destruct (delete_one _ _) as [q k]. simpl in *.
    apply (@queue_wf_sub db _ H); simpl; [assumption | exact Hsub | lia].
  - now apply link_film_wf.
  - unfold link_episode.
    destruct (ObjectId _); [|exact H].
    destruct (find_one _ _); [|exact H].
    destruct (negb _); [exact H|].
    destruct (replace_one _ _ _ _) as [es ins]. simpl.
    apply (@queue_wf_sub db _ H); simpl;
      [exact (proj1 H) | apply incl_refl | destruct ins; lia].
  - now apply link_season_bulk_wf.
  - unfold Catalog.delete_episode.
    destruct (delete_one _ _) as [es k]. simpl.
    destruct (k =? 0)%nat; simpl;
      apply (@queue_wf_sub db _ H); simpl;
      try exact (proj1 H); try apply incl_refl; lia.
  - unfold Catalog.delete_media.
    destruct (ObjectId _); [|exact H].
    destruct (delete_one _ _) as [ms k]. simpl.
    destruct (k =? 0)%nat; simpl;
      apply (@queue_wf_sub db _ H); simpl;
      try exact (proj1 H); try apply incl_refl; lia.
  - unfold Catalog.create_media. simpl.
    apply (@queue_wf_sub db _ H); simpl;
      [exact (proj1 H) | apply incl_refl | lia].
Qed.

Lemma serve_films_unique r db : films_unique db -> films_unique (serve r db).
Proof.
  intros H.
  destruct r as [user_id data now|user_id|user_id file_id|data now|data now
               |utcnow fault mid season_number episode_count uploader_id
               |mid season episode|mid|data]; cbn [serve].
  - exact H.
  - exact H.
  - unfold remove_from_queue. destruct (delete_one _ _). exact H.
  - now apply link_film_films_unique.
  - unfold link_episode.
    destruct (ObjectId _); [|exact H].
    destruct (find_one _ _); [|exact H].
    destruct (negb _); [exact H|].
    destruct (replace_one _ _ _ _). exact H.
  - unfold films_unique. rewrite link_season_bulk_films. exact H.
  - unfold Catalog.delete_episode. destruct (delete_one _ _) as [es k].
    simpl. destruct (k =? 0)%nat; exact H.
  - unfold Catalog.delete_media.
    destruct (ObjectId _); [|exact H].
    destruct (delete_one _ _) as [ms k]. simpl.
    destruct (k =? 0)%nat; simpl; [exact H|].
    intros fid. simpl. etransitivity; [apply count_filter_le | apply H].
  - exact H.
Qed.

Lemma serve_episodes_unique r db :
  episodes_unique db -> episodes_unique (serve r db).
Proof.
  intros H.
  destruct r as [user_id data now|user_id|user_id file_id|data now|data now
               |utcnow fault mid season_number episode_count uploader_id
               |mid season episode|mid|data]; cbn [serve].
  - exact H.
  - exact H.
  - unfold remove_from_queue. destruct (delete_one _ _). exact H.
  - unfold link_film.
    destruct (ObjectId _); [|exact H].
    destruct (find_one _ _); [|exact H].
    destruct (negb _); [exact H|].
    destruct (replace_one _ _ _ _). exact H.
  - unfold link_episode.
    destruct (ObjectId _); [|exact H].
    destruct (find_one _ _); [|exact H].
    destruct (negb _); [exact H|].
    pose proof (upsert_keeps_unique
                  (Episode.mk (EpisodeLink.media_id data)
                     (EpisodeLink.season_number data)
                     (EpisodeLink.episode_number data)
                     (EpisodeLink.file_id data) (EpisodeLink.message_id data)
                     (EpisodeLink.storage_bot data)
                     (EpisodeLink.uploader_id data) now)
                  (next_id db) (episodes db) H) as Hk.
    simpl in Hk. destruct (replace_one _ _ _ _). exact Hk.
  - unfold link_season_bulk. destruct (_ <? episode_count)%Z; [exact H|].
    pose proof (loop_episodes_unique utcnow fault mid season_number
                  uploader_id
                  (limit episode_count
                     (sort by_timestamp
                        (find (by_user uploader_id) (upload_queue db))))
                  0%nat H) as Hk.
    destruct (link_each _ _ _ _ _ _ _ _). exact Hk.
  - unfold Catalog.delete_episode.
    pose proof (fun q => @count_delete_one_le Episode.t
                           (episode_key mid season episode) q
                           (episodes db)) as Hle.
    destruct (delete_one _ _) as [es k]. simpl in *.
    assert (G : forall m s e,
              (count_documents (episode_key m s e) es <= 1)%nat).
    { intros m s e. etransitivity; [apply Hle | apply H]. }
    destruct (k =? 0)%nat; exact G.
  - unfold Catalog.delete_media.
    destruct (ObjectId _); [|exact H].
    destruct (delete_one _ _) as [ms k]. simpl.
    destruct (k =? 0)%nat; simpl; [exact H|].
    intros m s e. simpl. etransitivity; [apply count_filter_le | apply H].
  - exact H.
Qed.

Lemma media_wf_sub db db' :
  media_wf db ->
  NoDup (map (@_id Media.t) (media db')) ->
  incl (media db') (media db) ->
  (next_id db <= next_id db')%N ->
  media_wf db'.
Proof.
  unfold media_wf, media_ids_unique, media_ids_fresh.
  intros [Hu Hf] Hnd Hincl Hn. split; [assumption|].
  rewrite Forall_forall in *. intros d Hd.
  specialize (Hf d (Hincl d Hd)). lia.
Qed.

Lemma serve_media_wf r db : media_wf db -> media_wf (serve r db).
Proof.
  intros H.
  destruct r as [user_id data now|user_id|user_id file_id|data now|data now
               |utcnow fault mid season_number episode_count uploader_id
               |mid season episode|mid|data]; cbn [serve].
  - apply (@media_wf_sub db _ H); simpl;
      [exact (proj1 H) | apply incl_refl | lia].
  - exact H.
  - unfold remove_from_queue. destruct (delete_one _ _).
    apply (@media_wf_sub db _ H); simpl;
      [exact (proj1 H) | apply incl_refl | lia].
  - unfold link_film.
    destruct (ObjectId _); [|exact H].
    destruct (find_one _ _); [|exact H].
    destruct (negb _); [exact H|].
    destruct (replace_one _ _ _ _) as [fs ins]. simpl.
    apply (@media_wf_sub db _ H); simpl;
      [exact (proj1 H) | apply incl_refl | destruct ins; lia].
  - unfold link_episode.
    destruct (ObjectId _); [|exact H].
    destruct (find_one _ _); [|exact H].
    destruct (negb _); [exact H|].
    destruct (replace_one _ _ _ _) as [es ins]. simpl.
    apply (@media_wf_sub db _ H); simpl;
      [exact (proj1 H) | apply incl_refl | destruct ins; lia].
  - unfold link_season_bulk. destruct (_ <? episode_count)%Z; [exact H|].
    set (uploads := limit episode_count _).
    pose proof (loop_frame utcnow fault mid season_number uploader_id
                  uploads 0%nat db) as [Hm _].
    pose proof (loop_next_id utcnow fault mid season_number uploader_id
                  uploads 0%nat db) as Hn.
    destruct (link_each _ _ _ _ _ _ _ _) as [db' linked]. simpl in *.
    apply (@media_wf_sub db _ H).
    + rewrite Hm. exact (proj1 H).
    + rewrite Hm. apply incl_refl.
    + exact Hn.
  - unfold Catalog.delete_episode. destruct (delete_one _ _) as [es k].
    simpl. destruct (k =? 0)%nat; simpl;
      apply (@media_wf_sub db _ H); simpl;
      try exact (proj1 H); try apply incl_refl; lia.
  - unfold Catalog.delete_media.
    destruct (ObjectId _) as [i|]; [|exact H].
    pose proof (@delete_one_subset Media.t (by_id i) (media db)) as Hsub.
    pose proof (@delete_one_NoDup Media.t (by_id i) (media db) (proj1 H))
      as Hnd.
    destruct (delete_one _ _) as [ms k]. simpl in *.
    destruct (k =? 0)%nat; simpl;
      apply (@media_wf_sub db _ H); simpl;
      try assumption; lia.
  - unfold Catalog.create_media. simpl.
    destruct H as [Hu Hf]. unfold media_wf, media_ids_unique, media_ids_fresh in *.
    rewrite Forall_forall in Hf. simpl. unfold insert_one. split.
    + rewrite map_app. simpl. apply NoDup_app; [assumption | | ].
      * repeat constructor. simpl. tauto.
      * intros i Hi [<-|[]]. apply in_map_iff in Hi.
        destruct Hi as (d & Hd & Hin). specialize (Hf d Hin). lia.
    + apply Forall_forall. intros d Hd. apply in_app_or in Hd.
      destruct Hd as [Hd|[<-|[]]]; [specialize (Hf d Hd)|simpl]; lia.
Qed.

(** X19: Whatever requests the backend has served since the database
    was empty (titles created and deleted, uploads queued and removed,
    films and episodes linked, bulk links with any faults of the store),
    the ids of titles and of queue entries are distinct and below the
    next id, no film id has two film documents, and no episode key has
    two episode documents. *)
Theorem served_states_keep_invariants (reqs : list Request) :
  queue_wf (serve_all reqs empty_db)
  /\ media_wf (serve_all reqs empty_db)
  /\ films_unique (serve_all reqs empty_db)
  /\ episodes_unique (serve_all reqs empty_db).
Proof.
  unfold serve_all.
  assert (G : forall db,
            queue_wf db /\ media_wf db /\ films_unique db
            /\ episodes_unique db ->
            queue_wf (fold_left (fun db r => serve r db) reqs db)
            /\ media_wf (fold_left (fun db r => serve r db) reqs db)
            /\ films_unique (fold_left (fun db r => serve r db) reqs db)
            /\ episodes_unique (fold_left (fun db r => serve r db) reqs db)).
  { induction reqs as [|r rs IH]; intros db H; [exact H|].
    cbn [fold_left]. apply IH. destruct H as (Hq & Hm & Hf & He).
    split; [now apply serve_queue_wf|].
    split; [now apply serve_media_wf|].
    split; [now apply serve_films_unique | now apply serve_episodes_unique]. }
  apply G. split; [apply empty_db_wf|]. split.
  - split; constructor.
  - split; [apply empty_db_wf|].
    intros m s e. unfold count_documents. simpl. lia.
Qed.

End Reachable.

(** * Helpers for the bot commands *)

Lemma clear_upload_core user_id st :
  core (fst (UploadSlot.clear_upload user_id st)) = core st.
Proof.
  unfold UploadSlot.clear_upload. now destruct (delete_one _ _).
Qed.

Lemma clear_upload_gone user_id st :
  slot_unique st ->
  UploadSlot.get_upload user_id (fst (UploadSlot.clear_upload user_id st))
  = Raise (mkHTTPException 404 "No upload found").
Proof.
  intros Hs. unfold UploadSlot.clear_upload, UploadSlot.get_upload.
  pose proof (delete_one_unique (by_user user_id) (uploads st) (Hs user_id))
    as Hu.
  destruct (delete_one _ _) as [us k]. simpl in *. now rewrite Hu.
Qed.

Lemma clear_upload_others user_id st v :
  v <> user_id ->
  UploadSlot.get_upload v (fst (UploadSlot.clear_upload user_id st))
  = UploadSlot.get_upload v st.
Proof.
  intros Hv. unfold UploadSlot.clear_upload, UploadSlot.get_upload.
  pose proof (find_one_delete_one_other (by_user v) (by_user user_id)
                (uploads st)
                (fun d H => by_user_other (u := user_id) d Hv H)) as Ho.
  destruct (delete_one _ _) as [us k]. simpl in *. now rewrite Ho.
Qed.

(** * The control bot's link commands *)

Section ControlBotFacts.
Local Open Scope Z_scope.
Import UploadSlot Catalog.

Lemma link_film_media data now db :
  media (fst (link_film data now db)) = media db.
Proof.
  unfold link_film. destruct (ObjectId _); [|reflexivity].
  destruct (find_one _ _); [|reflexivity].
  destruct (negb _); [reflexivity|].
  destruct (replace_one _ _ _ _). reflexivity.
Qed.

Lemma get_media_same_catalog media_id db db' :
  media db' = media db -> get_media media_id db' = get_media media_id db.
Proof. unfold get_media. now intros ->. Qed.

(** X20: [/linkfilm] by an admin with a last upload, for an id of letters
    and digits, posts the link and then clears the last upload whatever
    the backend answered: afterwards the sender has no last upload.  The
    reply is "Film linked" whenever [get_media] knows the id, also for a
    series, for which no film is linked; otherwise the reply is the
    error naming ['title']. *)
Theorem control_link_film_clears_upload (film_id : string) (user_id : Z)
  (now : datetime) (st : Store) (upload : Stored Upload.t) :
  slot_unique st ->
  get_upload user_id st = Ok upload ->
  plain_segment film_id = true ->
  let data :=
    FilmLink.mk film_id (Upload.file_id (body upload))
      (Upload.message_id (body upload)) (Upload.bot_name (body upload))
      user_id in
  exists st' replies,
    ControlBot.link_film true [film_id] user_id now st = Some (st', replies)
    /\ get_upload user_id st'
       = Raise (mkHTTPException 404 "No upload found")
    /\ (forall v, v <> user_id -> get_upload v st' = get_upload v st)
    /\ core st' = fst (link_film data now (core st))
    /\ replies
       = [match get_media film_id (core st) with
          | Ok m =>
              ControlBot.FilmLinked (Media.title (body m)) film_id
                (Upload.message_id (body upload))
          | Raise _ => ControlBot.Error "'title'"
          end]
    /\ (forall m, get_media film_id (core st) = Ok m ->
                  Media.type (body m) = series ->
                  films (core st') = films (core st)
                  /\ replies
                     = [ControlBot.FilmLinked (Media.title (body m)) film_id
                          (Upload.message_id (body upload))]).
Proof.
  intros Hs Hup Hplain data.
  set (db1 := fst (link_film data now (core st))).
  pose proof (clear_upload_core user_id (mkStore db1 (uploads st))) as Hcore.
  pose proof (@clear_upload_gone user_id (mkStore db1 (uploads st)) Hs) as Hg.
  pose proof (@clear_upload_others user_id (mkStore db1 (uploads st))) as Ho.
  set (st2 := fst (clear_upload user_id (mkStore db1 (uploads st)))) in *.
  simpl in Hcore.
  assert (Hm : get_media film_id (core st2) = get_media film_id (core st)).
  { rewrite Hcore. apply (@get_media_same_catalog film_id (core st) db1).
    apply link_film_media. }
  exists st2.
  exists [match get_media film_id (core st) with
          | Ok m =>
              ControlBot.FilmLinked (Media.title (body m)) film_id
                (Upload.message_id (body upload))
          | Raise _ => ControlBot.Error "'title'"
          end].
  split.
  - unfold ControlBot.link_film. simpl negb. cbv iota. rewrite Hup.
    fold data. fold db1. fold st2.
    unfold ControlBot.get_media_by_url. rewrite Hplain, Hm.
    now destruct (get_media film_id (core st)).
  - split; [exact Hg|]. split; [exact Ho|]. split; [exact Hcore|].
    split; [reflexivity|].
    intros m Hgm Hty. rewrite Hgm. split; [|reflexivity].
    rewrite Hcore. unfold db1, link_film.
    change (FilmLink.film_id data) with film_id.
    unfold get_media in Hgm.
    destruct (ObjectId film_id) as [i|]; [|discriminate].
    destruct (find_one (by_id i) (media (core st))) as [m0|]; [|discriminate].
    inversion Hgm; subst m0. rewrite Hty. reflexivity.
Qed.

(** X21: [/linkseason] by an admin refuses a queue shorter than the count
    without posting the link.  Otherwise, for an id of letters and
    digits, the backend never answers "Not enough uploads": the reply is
    "Season linked" with the backend's count of linked episodes when
    [get_media] knows the id, and the error naming ['title'] otherwise,
    the episodes being linked in both cases. *)
Theorem control_link_season_guard (series_id : string)
  (season episode_count user_id : Z) (utcnow : nat -> datetime)
  (fault : nat -> StoreFault) (db : Db) :
  (Z.of_nat (get_queue_count user_id db) < episode_count ->
   ControlBot.link_season true series_id season episode_count user_id
     utcnow fault db
   = Some (db, [ControlBot.Linking episode_count;
                ControlBot.NotEnoughVideos (get_queue_count user_id db)
                  episode_count]))
  /\ (episode_count <= Z.of_nat (get_queue_count user_id db) ->
      plain_segment series_id = true ->
      exists db' r,
        link_season_bulk utcnow fault series_id season episode_count user_id
          db = (db', Ok r)
        /\ ControlBot.link_season true series_id season episode_count
             user_id utcnow fault db
           = Some (db',
                   [ControlBot.Linking episode_count;
                    ControlBot.QueueHas (get_queue_count user_id db);
                    match get_media series_id db with
                    | Ok m =>
                        ControlBot.SeasonLinked (Media.title (body m)) season
                          (linked_successfully r) episode_count
                    | Raise _ => ControlBot.Error "'title'"
                    end])).
Proof.
  unfold ControlBot.link_season. simpl negb. cbv iota.
  rewrite get_queue_length. split.
  - intros Hlt. apply Z.ltb_lt in Hlt. now rewrite Hlt.
  - intros Hle Hplain.
    assert (Hguard : episode_count
                     <= Z.of_nat (length (limit episode_count
                                            (get_queue user_id db)))).
    { destruct (Z_le_gt_dec episode_count 0) as [Hn|Hp]; [lia|].
      rewrite limit_positive by lia.
      rewrite length_firstn, get_queue_length. lia. }
    pose proof (link_season_bulk_past_guard utcnow fault series_id season
                  user_id db Hguard) as Hb.
    pose proof (loop_frame utcnow fault series_id season user_id
                  (limit episode_count (get_queue user_id db)) 0%nat db)
      as [Hmedia _].
    eexists. eexists. split; [exact Hb|].
    apply Z.ltb_ge in Hle. rewrite Hle, Hb.
    unfold ControlBot.get_media_by_url. rewrite Hplain.
    rewrite (@get_media_same_catalog series_id db _ Hmedia).
    now destruct (get_media series_id db).
Qed.

End ControlBotFacts.

(** * Instances *)

Lemma mixed_db_ids_unique : queue_ids_unique mixed_db.
Proof.
  unfold queue_ids_unique. vm_compute.
  repeat constructor; simpl; intuition discriminate.
Qed.

Lemma slot_store_unique : slot_unique slot_store.
Proof.
  intros u.
  assert (E : uploads slot_store = [mkStored 1%N (queue_doc upload_a 900%Z)])
    by reflexivity.
  rewrite E. unfold count_documents, by_user. simpl.
  match goal with
  | |- context [if ?b then _ else _] => destruct b
  end; simpl; lia.
Qed.

Lemma linked_db_episodes_unique : episodes_unique linked_db.
Proof.
  apply (@serve_episodes_unique
           (LinkSeasonBulk server_clock no_fault dark_id 1%Z 3%Z 7%Z)
           queued_db).
  assert (E : episodes queued_db = []) by reflexivity.
  intros m s e. rewrite E. unfold count_documents. simpl. lia.
Qed.

Lemma empty_store_unique : slot_unique empty_store.
Proof. intros u. unfold count_documents. simpl. lia. Qed.

Lemma clear_queue_removes_own_witness :
  snd (clear_queue 7%Z mixed_db) = 3%nat
  /\ get_queue 8%Z (fst (clear_queue 7%Z mixed_db)) = get_queue 8%Z mixed_db.
Proof.
  destruct (clear_queue_removes_own 7%Z mixed_db) as (Hc & _ & _ & Ho & _).
  split; [exact Hc | apply Ho; discriminate].
Defined.

Lemma remove_from_queue_removes_one_witness :
  get_queue_count 7%Z (fst (remove_from_queue 7%Z "BAACAgQAAx-b" mixed_db))
  = 2%nat
  /\ get_queue 8%Z (fst (remove_from_queue 7%Z "BAACAgQAAx-b" mixed_db))
     = get_queue 8%Z mixed_db.
Proof.
  destruct (remove_from_queue_removes_one 7%Z "BAACAgQAAx-b" mixed_db)
    as (_ & _ & Hc & _ & Ho).
  split; [exact Hc | apply Ho; discriminate].
Defined.

Lemma add_then_remove_restores_queue_witness :
  upload_queue
    (fst (remove_from_queue 8%Z "BAACAgQAAx-d"
            (fst (add_to_queue 7%Z upload_of_8 1030%Z queued_db))))
  = upload_queue queued_db.
Proof.
  assert (H : forall d, In d (upload_queue queued_db) ->
                        Upload.user_id (body d)
                        = UploadCreate.user_id upload_of_8 ->
                        Upload.file_id (body d)
                        <> UploadCreate.file_id upload_of_8).
  { intros d Hin Hu. simpl in Hin.
    destruct Hin as [<-|[<-|[<-|[]]]]; discriminate Hu. }
  exact (f_equal (fun r => upload_queue (fst r))
           (@add_then_remove_restores_queue 7%Z upload_of_8 1030%Z queued_db
              H)).
Defined.

Lemma add_to_queue_fresh_entry_witness :
  find_one (by_id 4%N) (upload_queue queued_db) = None
  /\ find_one (by_id 4%N) (upload_queue mixed_db)
     = Some (mkStored 4%N (queue_doc upload_of_8 1030%Z)).
Proof.
  assert (Hfresh : queue_ids_fresh queued_db).
  { unfold queue_ids_fresh. vm_compute. repeat constructor. }
  destruct (@add_to_queue_fresh_entry 7%Z upload_of_8 1030%Z queued_db Hfresh)
    as (Hnone & Hsome & _).
  split; [exact Hnone | exact Hsome].
Defined.

Lemma save_upload_read_back_witness :
  UploadSlot.get_upload 8%Z
    (fst (UploadSlot.save_upload upload_a 900%Z empty_store))
  = UploadSlot.get_upload 8%Z empty_store.
Proof.
  apply (proj1 (proj2 (save_upload_read_back upload_a 900%Z empty_store))).
  discriminate.
Defined.

Lemma save_upload_keeps_one_witness :
  count_documents (by_user 7%Z)
    (uploads (fst (UploadSlot.save_upload upload_b 950%Z slot_store)))
  = 1%nat.
Proof.
  exact (proj2 (@save_upload_keeps_one upload_b 950%Z slot_store
                  slot_store_unique)).
Defined.

Lemma clear_upload_forgets_witness :
  snd (UploadSlot.clear_upload 7%Z slot_store) = true
  /\ UploadSlot.get_upload 7%Z (fst (UploadSlot.clear_upload 7%Z slot_store))
     = Raise (mkHTTPException 404 "No upload found")
  /\ UploadSlot.get_upload 8%Z (fst (UploadSlot.clear_upload 7%Z slot_store))
     = UploadSlot.get_upload 8%Z slot_store.
Proof.
  destruct (clear_upload_forgets 7%Z slot_store) as (Hd & Hg & Ho & _).
  split; [exact Hd|]. split; [exact (Hg slot_store_unique)|].
  apply Ho. discriminate.
Defined.

Lemma save_to_backend_stores_both_witness :
  get_queue_count 7%Z
    (core (StorageBot.save_to_backend 7%Z "BAACAgQAAx-a" 811%Z 900%Z 901%Z
             empty_store)) = 1%nat
  /\ get_queue 8%Z
       (core (StorageBot.save_to_backend 7%Z "BAACAgQAAx-a" 811%Z 900%Z 901%Z
                empty_store)) = get_queue 8%Z (core empty_store).
Proof.
  destruct (save_to_backend_stores_both 7%Z "BAACAgQAAx-a" 811%Z 900%Z 901%Z
              empty_store) as (_ & _ & Hc & Ho).
  split; [exact Hc|].
  apply (Ho 8%Z). discriminate.
Defined.

Lemma link_episode_read_back_witness :
  exists i,
    get_episode dark_id 2%Z 1%Z (fst (link_episode dark_s2e1 6000%Z queued_db))
    = Ok (mkStored i
            (Episode.mk dark_id 2%Z 1%Z "BAACAgQAAx-e" (Some 815%Z)
               "storage_bot" 7%Z 6000%Z)).
Proof.
  exact (proj1 (@link_episode_read_back dark_s2e1 6000%Z queued_db
                  (fst (link_episode dark_s2e1 6000%Z queued_db)) true
                  eq_refl)).
Defined.

Lemma links_accept_what_get_media_shows_witness :
  (exists r, snd (link_film dune_first 1000%Z catalog_db) = Ok r)
  /\ ~ (exists r, snd (link_episode dark_s2e1 6000%Z empty_db) = Ok r).
Proof.
  split.
  - apply (proj1 (links_accept_what_get_media_shows catalog_db)).
    eexists. split; reflexivity.
  - intros H.
    apply (proj1 (proj2 (links_accept_what_get_media_shows empty_db))) in H.
    destruct H as (m & Hm & _). discriminate Hm.
Defined.

Lemma get_seasons_listing_witness : In 1%Z (Catalog.get_seasons dark_id linked_db).
Proof.
  apply (proj2 (get_seasons_listing dark_id linked_db)).
  exists (mkStored 4%N
            (Episode.mk dark_id 1%Z 1%Z "BAACAgQAAx-a" (Some 811%Z)
               "storage_bot" 7%Z 5000%Z)).
  split; [left; reflexivity | split; reflexivity].
Defined.

Lemma delete_episode_removes_key_witness :
  get_episode dark_id 1%Z 2%Z
    (fst (Catalog.delete_episode dark_id 1%Z 2%Z linked_db))
  = Raise (mkHTTPException 404 "Episode not found")
  /\ get_episode dark_id 1%Z 1%Z
       (fst (Catalog.delete_episode dark_id 1%Z 2%Z linked_db))
     = get_episode dark_id 1%Z 1%Z linked_db.
Proof.
  destruct (delete_episode_removes_key dark_id 1%Z 2%Z linked_db)
    as (_ & Hd & Ho & _).
  split.
  - destruct (Hd (mkStored 5%N
                    (Episode.mk dark_id 1%Z 2%Z "BAACAgQAAx-b" (Some 812%Z)
                       "storage_bot" 7%Z 5001%Z)) eq_refl) as (_ & _ & Hg).
    apply Hg. exact linked_db_episodes_unique.
  - apply Ho. intros E. inversion E.
Defined.

Lemma delete_media_cascades_witness :
  snd (Catalog.delete_media dark_id linked_db) = Ok true
  /\ Catalog.get_seasons dark_id (fst (Catalog.delete_media dark_id linked_db))
     = []
  /\ get_film dune_id (fst (Catalog.delete_media dark_id linked_db))
     = get_film dune_id linked_db.
Proof.
  destruct (delete_media_cascades dark_id linked_db) as (_ & Hd & Ho & _).
  destruct (Hd (mkStored (oid_of dark_id) (Media.mk "Dark" series)) eq_refl)
    as (Hok & _ & _ & Hs & _).
  split; [exact Hok|]. split; [exact Hs|].
  apply (Ho dune_id). discriminate.
Defined.

Lemma link_season_bulk_frame_witness :
  get_queue 8%Z
    (fst (link_season_bulk server_clock second_fails dark_id 1%Z 3%Z 7%Z
            mixed_db))
  = get_queue 8%Z mixed_db
  /\ get_episode dark_id 2%Z 1%Z
       (fst (link_season_bulk server_clock second_fails dark_id 1%Z 3%Z 7%Z
               mixed_db))
     = get_episode dark_id 2%Z 1%Z mixed_db.
Proof.
  destruct (link_season_bulk_frame server_clock second_fails dark_id 1%Z 7%Z
              3%Z mixed_db) as (_ & _ & He & Hq).
  split.
  - apply (Hq mixed_db_ids_unique). discriminate.
  - apply He. left. intros E. inversion E.
Defined.

Lemma link_season_bulk_count_not_positive_witness :
  exists db' linked,
    link_season_bulk server_clock no_fault dark_id 1%Z 0%Z 7%Z queued_db
    = (db',
       Ok (mkBulkResponse dark_id 1%Z 0%Z (length (filter success linked))
             linked))
    /\ length linked = 3%nat
    /\ get_queue 7%Z db' = [].
Proof.
  assert (Hn : (0 <= 0)%Z) by discriminate.
  destruct (@link_season_bulk_count_not_positive server_clock no_fault
              dark_id 1%Z 7%Z 0%Z queued_db Hn)
    as (db' & linked & Heq & Hlen & Hall).
  exists db', linked. split; [exact Heq|]. split; [exact Hlen|].
  apply (Hall eq_refl queued_db_ids_unique). reflexivity.
Defined.

(** The sender links the last upload to the id of a series: nothing is
    linked, the last upload is gone, and the reply is "Film linked". *)
Lemma control_link_film_clears_upload_witness :
  exists st',
    ControlBot.link_film true [dark_id] 7%Z 1000%Z slot_store
    = Some (st', [ControlBot.FilmLinked "Dark" dark_id (Some 811%Z)])
    /\ UploadSlot.get_upload 7%Z st'
       = Raise (mkHTTPException 404 "No upload found")
    /\ films (core st') = [].
Proof.
  destruct (@control_link_film_clears_upload dark_id 7%Z 1000%Z slot_store
              (mkStored 1%N (queue_doc upload_a 900%Z))
              slot_store_unique eq_refl eq_refl)
    as (st' & replies & Hl & Hg & _ & _ & _ & Hseries).
  destruct (Hseries (mkStored (oid_of dark_id) (Media.mk "Dark" series))
              eq_refl eq_refl) as (Hf & Hr).
  exists st'. split; [rewrite Hl, Hr; reflexivity|].
  split; [exact Hg | exact Hf].
Defined.

Lemma control_link_season_guard_witness :
  ControlBot.link_season true dark_id 1%Z 5%Z 7%Z server_clock no_fault
    queued_db
  = Some (queued_db,
          [ControlBot.Linking 5%Z; ControlBot.NotEnoughVideos 3 5%Z])
  /\ exists db' r,
       ControlBot.link_season true unknown_id 1%Z 3%Z 7%Z server_clock
         no_fault queued_db
       = Some (db',
               [ControlBot.Linking 3%Z; ControlBot.QueueHas 3;
                ControlBot.Error "'title'"])
       /\ link_season_bulk server_clock no_fault unknown_id 1%Z 3%Z 7%Z
            queued_db = (db', Ok r)
       /\ linked_successfully r = 3%nat.
Proof.
  split.
  - apply (proj1 (control_link_season_guard dark_id 1%Z 5%Z 7%Z server_clock
                    no_fault queued_db)).
    reflexivity.
  - assert (Hle : (3 <= Z.of_nat (get_queue_count 7%Z queued_db))%Z)
      by (vm_compute; discriminate).
    destruct (proj2 (control_link_season_guard unknown_id 1%Z 3%Z 7%Z
                       server_clock no_fault queued_db) Hle eq_refl)
      as (db' & r & Hb & Hc).
    exists db', r. split; [exact Hc|]. split; [exact Hb|].
    assert (Hr : snd (link_season_bulk server_clock no_fault unknown_id 1%Z
                        3%Z 7%Z queued_db) = Ok r) by (now rewrite Hb).
    vm_compute in Hr. inversion Hr. reflexivity.
Defined.

Lemma served_states_keep_invariants_witness :
  map (fun d => Film.file_id (body d)) (films (serve_all sample_run empty_db))
  = ["BAACAgQAAx-2"]
  /\ map (fun d => Episode.file_id (body d))
       (episodes (serve_all sample_run empty_db))
     = ["BAACAgQAAx-a"; "BAACAgQAAx-b"; "BAACAgQAAx-c"]
  /\ (count_documents (film_key first_id)
        (films (serve_all sample_run empty_db)) <= 1)%nat
  /\ media_ids_unique (serve_all sample_run empty_db).
Proof.
  split; [reflexivity|]. split; [reflexivity|].
  destruct (served_states_keep_invariants sample_run)
    as (_ & Hm & Hf & _).
  split; [exact (Hf first_id) | exact (proj1 Hm)].
Defined.

(** * From linking to playing *)

Section Playing.
Local Open Scope Z_scope.
Import StreamingBot StreamingPlay Catalog.

Variable bot : Bot.

Lemma send_video_replay (message_id : option Z) (file_id : string) :
  send_video_from_channel bot (mkVideoData message_id (Some file_id))
  = ([replay_of message_id file_id], bot (replay_of message_id file_id)).
Proof.
  unfold send_video_from_channel, replay_of, attempt. simpl.
  destruct message_id as [m|].
  - destruct (m =? 0); simpl; now destruct (bot _).
  - now destruct (bot _).
Qed.

Lemma play_known (message_id : option Z) (file_id : string)
  (m : Stored Media.t) :
  Answered :: play bot (mkVideoData message_id (Some file_id)) (Ok m)
  = played bot (replay_of message_id file_id).
Proof.
  unfold play, played. rewrite send_video_replay. reflexivity.
Qed.

(** X22: A film that [link_film] has just linked plays by the record's
    channel reference when that is present and not 0, and by the
    record's file id otherwise. *)
Theorem play_film_after_link (data : FilmLink.t) (now : datetime)
  (db db' : Db) (r : bool * string) :
  link_film data now db = (db', Ok r) ->
  play_film true bot (FilmLink.film_id data) db'
  = played bot (replay_of (FilmLink.message_id data) (FilmLink.file_id data)).
Proof.
  intros H.
  assert (Hm : exists m, get_media (FilmLink.film_id data) db' = Ok m).
  { pose proof (link_film_media data now db) as Hmedia.
    rewrite H in Hmedia. simpl in Hmedia.
    unfold get_media. rewrite Hmedia. unfold link_film in H.
    destruct (ObjectId _); [|discriminate].
    destruct (find_one _ _) as [m|]; [|discriminate]. now exists m. }
  destruct Hm as [m Hm].
  apply link_film_ok_inv in H. destruct H as (Hf & _).
  destruct (find_one_replace_one (film_key (FilmLink.film_id data))
              (Film.mk (FilmLink.film_id data) (FilmLink.file_id data)
                 (FilmLink.message_id data) (FilmLink.storage_bot data)
                 (FilmLink.uploader_id data) now)
              (next_id db) (films db)) as [i Hi].
  { intros; apply film_key_doc. }
  unfold play_film. simpl negb. cbv iota.
  unfold get_film. rewrite Hf, Hi, Hm. simpl film_data.
  apply play_known.
Qed.

(** X23: After a bulk link, the episode of position [j + 1] plays the upload
    read at position [j] of the queue, by its channel reference when
    present and not 0 and by its file id otherwise, provided its pass
    wrote the episode and the catalogue knows the id. *)
Theorem play_episode_after_bulk (utcnow : nat -> datetime)
  (fault : nat -> StoreFault) (media_id : string)
  (season_number episode_count uploader_id : Z) (db : Db)
  (m : Stored Media.t) (j : nat) (upload : Stored Upload.t) :
  get_media media_id db = Ok m ->
  episode_count
  <= Z.of_nat (length (limit episode_count (get_queue uploader_id db))) ->
  nth_error (limit episode_count (get_queue uploader_id db)) j = Some upload ->
  pass_writes (fault j) = true ->
  play_episode true bot media_id season_number (Z.of_nat j + 1)
    (fst (link_season_bulk utcnow fault media_id season_number episode_count
            uploader_id db))
  = played bot (replay_of (Upload.message_id (body upload))
              (Upload.file_id (body upload))).
Proof.
  intros Hm Hguard Hj Hw.
  rewrite link_season_bulk_past_guard by exact Hguard. simpl fst.
  set (uploads := limit episode_count (get_queue uploader_id db)) in *.
  destruct (loop_find_linked utcnow fault media_id season_number uploader_id
              uploads 0%nat db j Hj Hw) as [i Hi].
  pose proof (loop_frame utcnow fault media_id season_number uploader_id
                uploads 0%nat db) as [Hmedia _].
  unfold play_episode. simpl negb. cbv iota.
  rewrite (@get_media_same_catalog media_id db _ Hmedia), Hm.
  unfold get_episode. simpl in Hi. rewrite Hi. simpl ep_data.
  apply play_known.
Qed.

(** X24: What a play does when it cannot play.  A sender who is not approved
    gets "Access denied".  For an id the catalogue does not know the
    menu message is deleted and the alert shown, with no call.  For a
    known title with no film linked the menu message is deleted and
    [send_video] is called with no video. *)
Theorem play_film_unplayable (film_id : string) (db : Db) :
  play_film false bot film_id db = [Answered; AccessDenied]
  /\ (forall e, get_media film_id db = Raise e ->
                play_film true bot film_id db
                = [Answered; DeleteMessage; ErrorOccurred])
  /\ (forall m e, get_media film_id db = Ok m ->
                  get_film film_id db = Raise e ->
                  play_film true bot film_id db = played bot (send_video None)).
Proof.
  split; [reflexivity|]. split.
  - intros e He. unfold play_film, play. simpl. now rewrite He.
  - intros m e Hm Hf. unfold play_film, play, played. simpl.
    rewrite Hm, Hf. simpl. unfold send_video_from_channel, attempt. simpl.
    now destruct (bot (send_video None)).
Qed.

End Playing.

Lemma play_film_after_link_witness :
  StreamingPlay.play_film true expiring_bot dune_id dune_linked_once
  = [StreamingPlay.Answered; StreamingPlay.DeleteMessage;
     StreamingPlay.Call (StreamingBot.copy_message 811%Z)]
  /\ StreamingPlay.play_film true expiring_bot dune_id dune_linked_twice
     = [StreamingPlay.Answered; StreamingPlay.DeleteMessage;
        StreamingPlay.Call (StreamingBot.send_video (Some "BAACAgQAAx-2"));
        StreamingPlay.ErrorOccurred].
Proof.
  split.
  - exact (@play_film_after_link expiring_bot dune_first 1000%Z catalog_db
             dune_linked_once (true, dune_id) eq_refl).
  - exact (@play_film_after_link expiring_bot dune_second 2000%Z
             dune_linked_once dune_linked_twice (true, dune_id) eq_refl).
Defined.

Lemma play_episode_after_bulk_witness :
  StreamingPlay.play_episode true expiring_bot dark_id 1%Z 3%Z
    (fst (link_season_bulk server_clock second_fails dark_id 1%Z 3%Z 7%Z
            queued_db))
  = [StreamingPlay.Answered; StreamingPlay.DeleteMessage;
     StreamingPlay.Call (StreamingBot.copy_message 813%Z)].
Proof.
  assert (Hguard : (3 <= Z.of_nat (length (limit 3%Z (get_queue 7%Z queued_db))))%Z)
    by (vm_compute; discriminate).
  exact (@play_episode_after_bulk expiring_bot server_clock second_fails
           dark_id 1%Z 3%Z 7%Z queued_db
           (mkStored (oid_of dark_id) (Media.mk "Dark" series)) 2%nat
           (mkStored 3%N (queue_doc upload_c 1020%Z))
           eq_refl Hguard eq_refl eq_refl).
Defined.

Lemma play_film_unplayable_witness :
  StreamingPlay.play_film true expiring_bot unknown_id catalog_db
  = [StreamingPlay.Answered; StreamingPlay.DeleteMessage;
     StreamingPlay.ErrorOccurred]
  /\ StreamingPlay.play_film true expiring_bot dune_id catalog_db
     = [StreamingPlay.Answered; StreamingPlay.DeleteMessage;
        StreamingPlay.Call (StreamingBot.send_video None);
        StreamingPlay.ErrorOccurred].
Proof.
  destruct (play_film_unplayable expiring_bot unknown_id catalog_db)
    as (_ & Hu & _).
  destruct (play_film_unplayable expiring_bot dune_id catalog_db)
    as (_ & _ & Hd).
  split.
  - exact (Hu (mkHTTPException 404 "Media not found") eq_refl).
  - exact (Hd (mkStored (oid_of dune_id) (Media.mk "Dune" film))
             (mkHTTPException 404 "Film not linked") eq_refl eq_refl).
Defined.
